(** * run_allocations.py: weekly allocation of task hours

    A shallow embedding of [src/run_allocations.py] and the properties of
    its allocation engine: the Monday buckets of a task ([mondays_between]),
    the split of the estimate over the buckets (the loop of [run]), the
    resolution of a bucket to a week page, and the reconciliation against
    the Allocations database ([upsert_allocation]).

    Conventions.
    - Python [float] arithmetic is taken through the interface [PyFloat];
      the program is written once over it.  The instance [binary64] is
      IEEE 754 double precision, which is what CPython computes with; the
      instance [exact] is the same program over the rationals.  What is
      proved of the program for any arithmetic holds in both; a statement
      "in exact arithmetic" is one of the instance [exact].  What is said
      of the sums of the hours of a task is said of double precision.
    - A [datetime] is held by its proleptic Gregorian ordinal, as
      [datetime.toordinal()] gives it, with its time of day and UTC offset;
      the calendar fields come from the ordinal as in [datetime.py].
    - The Notion client is a state: the pages of the four databases, those
      of the Allocations database in query order, and the log of the writes
      made.  A query returns all its result pages at once; the loops over
      the result pages of a query are held apart, as [query_all], and shown
      to read the same pages.  The dates of a task are held parsed; the time
      that [set_job_status] writes to Finished At is left out. *)

From Stdlib Require Import ZArith QArith Qround Lia.
From Stdlib Require Import PrimFloat SpecFloat FloatOps FloatAxioms Uint63.
From stdpp Require Import base option list gmap strings fin_maps pretty.

Set Warnings "-inexact-float".

Local Open Scope Z_scope.

(** ** Python floats *)

(** The operations on [float] that the program uses. *)
Class PyFloat (F : Type) := {
  f_zero   : F;            (* 0.0 *)
  f_of_int : Z → F;        (* the conversion of an int operand *)
  f_add    : F → F → F;
  f_sub    : F → F → F;
  f_mul    : F → F → F;
  f_div    : F → F → F;
  f_gt0    : F → bool;     (* x > 0 *)
  f_round2 : F → F         (* round(x, 2) *)
}.

(** [sum(xs)]: left to right, from 0. *)
Definition f_sum {F} `{PyFloat F} (xs : list F) : F :=
  fold_left f_add xs f_zero.

(** Round half to even of the fraction [p / q], for [0 ≤ p] and [0 < q]. *)
Definition round_half_even (p q : Z) : Z :=
  let d := p / q in
  let r := p mod q in
  if 2 * r <? q then d
  else if q <? 2 * r then d + 1
  else if Z.even d then d else d + 1.

Module Binary64.

(** The double of an int, for the ints below 2^63 (the counts of weeks are
  far below). *)
Definition of_Z (z : Z) : float :=
  match z with
  | Z0 => 0%float
  | Zpos _ => PrimFloat.of_uint63 (Uint63.of_Z z)
  | Zneg _ => (- PrimFloat.of_uint63 (Uint63.of_Z (- z)))%float
  end.

(** [abs(x) * 100] rounded half to even to an integer, for a finite [x]
    given as mantissa [m] and exponent [e]: the two decimal digits that
    [round] keeps, from the exact value of the double. *)
Definition hundredths (m : positive) (e : Z) : Z :=
  match e with
  | Zneg k => round_half_even (Zpos m * 100) (Z.pow_pos 2 k)
  | _ => Zpos m * 100 * 2 ^ e
  end.

(** [round(x, 2)].  CPython rounds the exact value of [x] to two decimals,
    ties to even, and returns the double nearest to that decimal.  From
    2^46 on the doubles are more than 0.01 apart and [x] is that double;
    below, the decimal is [k / 100] with [k < 2^53], and the division of
    the two doubles [k] and [100] is the nearest double to it.  Zeros,
    infinities and NaN round to themselves. *)
Definition round2 (x : float) : float :=
  match Prim2SF x with
  | S754_finite s m e =>
      if PrimFloat.ltb (PrimFloat.abs x) 0x1p+46%float then
        let q := (of_Z (hundredths m e) / 100)%float in
        if s then (- q)%float else q
      else x
  | _ => x
  end.

#[export] Instance binary64 : PyFloat float := {|
  f_zero := 0%float;
  f_of_int := of_Z;
  f_add := PrimFloat.add;
  f_sub := PrimFloat.sub;
  f_mul := PrimFloat.mul;
  f_div := PrimFloat.div;
  f_gt0 x := PrimFloat.ltb 0%float x;
  f_round2 := round2
|}.

End Binary64.

Module Exact.

(** [round(x, 2)] on a rational: half to even on [x * 100]. *)
Definition round2 (x : Q) : Q :=
  let p := Qnum x * 100 in
  let q := Zpos (Qden x) in
  let k := if 0 <=? p then round_half_even p q
           else - round_half_even (- p) q in
  k # 100.

#[export] Instance exact : PyFloat Q := {|
  f_zero := 0%Q;
  f_of_int := inject_Z;
  f_add := Qplus;
  f_sub := Qminus;
  f_mul := Qmult;
  f_div := Qdiv;
  f_gt0 x := bool_decide (0 < Qnum x);
  f_round2 := round2
|}.

End Exact.

Export Binary64 Exact.

(** ** Exceptions *)

Inductive exn :=
  | OverflowError    (* date value out of range *)
  | ValueError       (* rrule: DTSTART and UNTIL differ in awareness *)
  | TypeError.       (* a date property that is null is subscripted *)

(** ** Dates and times *)

(** A [datetime.datetime]: the ordinal of its date (day 1 is 0001-01-01),
    the second of its day, its microsecond, and the UTC offset of its
    [tzinfo] in seconds ([None] for a naive datetime). *)
Record datetime := {
  toordinal   : Z;
  second_of_day : Z;
  microsecond : Z;
  utcoffset   : option Z
}.

#[global] Instance datetime_eq_dec : EqDecision datetime.
Proof. solve_decision. Defined.

(** [date.max.toordinal()], the last day of year 9999. *)
Definition MAXORD : Z := 3652059.

(** [dt.weekday()]: Monday is 0. *)
Definition weekday (dt : datetime) : Z := (toordinal dt + 6) mod 7.

(** [dt + timedelta(days=k)]; a date past year 9999 or before year 1 raises. *)
Definition plus_days (dt : datetime) (k : Z) : exn + datetime :=
  let o := toordinal dt + k in
  if (1 <=? o) && (o <=? MAXORD)
  then inr {| toordinal := o; second_of_day := second_of_day dt;
              microsecond := microsecond dt; utcoffset := utcoffset dt |}
  else inl OverflowError.

(** The point on the time line, in microseconds: what [<=] and [>] compare
    on two datetimes that are both naive or both aware. *)
Definition instant (dt : datetime) : Z :=
  ((toordinal dt * 86400 + second_of_day dt - default 0 (utcoffset dt)) * 1000000)
  + microsecond dt.

Definition aware (dt : datetime) : bool :=
  match utcoffset dt with Some _ => true | None => false end.

(** *** The calendar of [datetime.py] *)

Definition is_leap (year : Z) : bool :=
  (year mod 4 =? 0) && (negb (year mod 100 =? 0) || (year mod 400 =? 0)).

Definition days_before_year (year : Z) : Z :=
  let y := year - 1 in y * 365 + y / 4 - y / 100 + y / 400.

Definition DAYS_IN_MONTH : list Z := [31; 28; 31; 30; 31; 30; 31; 31; 30; 31; 30; 31].
Definition DAYS_BEFORE_MONTH : list Z :=
  [0; 31; 59; 90; 120; 151; 181; 212; 243; 273; 304; 334].

Definition days_before_month (year month : Z) : Z :=
  nth (Z.to_nat (month - 1)) DAYS_BEFORE_MONTH 0
  + (if (2 <? month) && is_leap year then 1 else 0).

Definition ymd2ord (year month day : Z) : Z :=
  days_before_year year + days_before_month year month + day.

Definition DI400Y : Z := Eval cbv in days_before_year 401.
Definition DI100Y : Z := Eval cbv in days_before_year 101.
Definition DI4Y   : Z := Eval cbv in days_before_year 5.

Definition ord2ymd (ordinal : Z) : Z * Z * Z :=
  let n := ordinal - 1 in
  let n400 := n / DI400Y in let n := n mod DI400Y in
  let year := n400 * 400 + 1 in
  let n100 := n / DI100Y in let n := n mod DI100Y in
  let n4 := n / DI4Y in let n := n mod DI4Y in
  let n1 := n / 365 in let n := n mod 365 in
  let year := year + n100 * 100 + n4 * 4 + n1 in
  if (n1 =? 4) || (n100 =? 4) then (year - 1, 12, 31)
  else
    let leapyear := (n1 =? 3) && (negb (n4 =? 24) || (n100 =? 3)) in
    let month := Z.shiftr (n + 50) 5 in
    let preceding := nth (Z.to_nat (month - 1)) DAYS_BEFORE_MONTH 0
                     + (if (2 <? month) && leapyear then 1 else 0) in
    if n <? preceding then
      let month := month - 1 in
      let preceding := preceding
                       - (nth (Z.to_nat (month - 1)) DAYS_IN_MONTH 0
                          + (if (month =? 2) && leapyear then 1 else 0)) in
      (year, month, n - preceding + 1)
    else (year, month, n - preceding + 1).

(** The datetime at midnight of a calendar date, naive. *)
Definition midnight (year month day : Z) : datetime :=
  {| toordinal := ymd2ord year month day; second_of_day := 0;
     microsecond := 0; utcoffset := None |}.

(** The ordinal of the Monday that starts ISO week 1 of [year]. *)
Definition isoweek1monday (year : Z) : Z :=
  let firstday := ymd2ord year 1 1 in
  let firstweekday := (firstday + 6) mod 7 in
  let week1monday := firstday - firstweekday in
  if 3 <? firstweekday then week1monday + 7 else week1monday.

(** [dt.isocalendar()], as (ISO year, ISO week). *)
Definition isocalendar (dt : datetime) : Z * Z :=
  let today := toordinal dt in
  let '(year, _, _) := ord2ymd today in
  let week := (today - isoweek1monday year) / 7 in
  if week <? 0 then
    let year := year - 1 in
    (year, (today - isoweek1monday year) / 7 + 1)
  else if (52 <=? week) && (isoweek1monday (year + 1) <=? today) then
    (year + 1, 1)
  else (year, week + 1).

(** *** Decimal fields *)

Definition digit (n : Z) : string :=
  String (Ascii.ascii_of_nat (48 + Z.to_nat (n mod 10))) EmptyString.

(** [n] in [w] decimal digits, zero padded ([%0wd] for [0 ≤ n < 10^w]). *)
Fixpoint zfill (w : nat) (n : Z) : string :=
  match w with
  | O => EmptyString
  | S w' => zfill w' (n / 10) +:+ digit n
  end.

(** [dt.date().isoformat()]: YYYY-MM-DD. *)
Definition date_isoformat (dt : datetime) : string :=
  let '(y, m, d) := ord2ymd (toordinal dt) in
  zfill 4 y +:+ "-" +:+ zfill 2 m +:+ "-" +:+ zfill 2 d.

(** [iso_week_label]: [dt.strftime("%G-[W]%V")], the ISO year in four digits
    and the ISO week in two, around the literal text "-[W]". *)
Definition iso_week_label (dt : datetime) : string :=
  let '(y, w) := isocalendar dt in
  zfill 4 y +:+ "-[W]" +:+ zfill 2 w.

(** *** Weekly recurrence *)

(** The occurrences of a weekly rule from the Monday [cur] on: one every
    seven days while the occurrence is not after [until]; the iteration
    ends when the date leaves year 9999. *)
Fixpoint rrule_iter (fuel : nat) (cur until : datetime) : list datetime :=
  match fuel with
  | O => []
  | S fuel' =>
      if instant until <? instant cur then []
      else cur :: match plus_days cur 7 with
                  | inr next => rrule_iter fuel' next until
                  | inl _ => []
                  end
  end.

(** [rrule(WEEKLY, byweekday=MO, dtstart=dtstart, until=until)] of dateutil,
    listed.  The rule drops the microsecond of [dtstart], refuses a pair of
    which one is aware and the other naive, and yields the Mondays on or
    after [dtstart], at the time of day of [dtstart], up to [until]. *)
Definition rrule_WEEKLY_MO (dtstart until : datetime) : exn + list datetime :=
  let dtstart := {| toordinal := toordinal dtstart;
                    second_of_day := second_of_day dtstart;
                    microsecond := 0; utcoffset := utcoffset dtstart |} in
  if negb (Bool.eqb (aware dtstart) (aware until)) then inl ValueError
  else
    match plus_days dtstart ((7 - weekday dtstart) mod 7) with
    | inl _ => inr []
    | inr first =>
        inr (rrule_iter (Z.to_nat ((MAXORD - toordinal first) / 7 + 1)) first until)
    end.

(** [mondays_between]: snap [start_dt] to the Monday on or after it, then the
    weekly rule up to [end_dt]; forced to a list, as [run] does. *)
Definition mondays_between (start_dt end_dt : datetime) : exn + list datetime :=
  match (if negb (weekday start_dt =? 0)
         then plus_days start_dt (7 - weekday start_dt)
         else inr start_dt) with
  | inl e => inl e
  | inr s => rrule_WEEKLY_MO s end_dt
  end.

(** ** The Notion workspace *)

(** [P_WEEK_START] of the script, and the name of the property that
    [upsert_allocation] writes the hours to. *)
Definition P_WEEK_START : string := "Week Start".
Definition P_PLANNED : string := "Planned Hours (h)".

(** The value of a page property: a title, a relation (the ids of the pages
    it refers to) or a number. *)
Inductive prop_value (F : Type) :=
  | PTitle (content : string)
  | PRelation (ids : list string)
  | PNumber (x : F).
Arguments PTitle {F} content.
Arguments PRelation {F} ids.
Arguments PNumber {F} x.

(** A page of the Allocations database: its properties by name. *)
Abbreviation page F := (gmap string (prop_value F)).

(** A page of the Master Tasks database, dates parsed. *)
Record task_page (F : Type) := {
  task_id     : string;
  task_type   : string;                 (* Type: Activity / Deliverable *)
  task_title  : list string;            (* plain_text of the title items *)
  task_start  : option datetime;        (* Start *)
  task_due    : option datetime;        (* Due *)
  task_number : option F                (* Hours Est (h) *)
}.
Arguments task_id {F} t.
Arguments task_type {F} t.
Arguments task_title {F} t.
Arguments task_start {F} t.
Arguments task_due {F} t.
Arguments task_number {F} t.

(** A page of the Weeks database. *)
Record week_page := {
  week_id    : string;
  week_title : list string;             (* plain_text of the title items *)
  week_start : option string            (* start of Week Start, when set *)
}.

(** A page of the Jobs database. *)
Record job_page := {
  job_id     : string;
  job_type   : string;
  job_status : string;
  job_notes  : option string
}.

(** The writes the client makes.  An allocation page is named by its
    position in the database, which is its identity: pages are never
    deleted or reordered. *)
Inductive write (F : Type) :=
  | WUpdate (page_id : nat) (properties : page F)
  | WCreate (properties : page F)
  | WJob (page_id status : string) (notes : option string).
Arguments WUpdate {F} page_id properties.
Arguments WCreate {F} properties.
Arguments WJob {F} page_id status notes.

Record notion (F : Type) := {
  master      : list (task_page F);
  weeks       : list week_page;
  allocations : list (page F);
  jobs        : list job_page;
  writes      : list (write F)
}.
Arguments master {F} n.
Arguments weeks {F} n.
Arguments allocations {F} n.
Arguments jobs {F} n.
Arguments writes {F} n.

(** ** Computations on the workspace *)

(** A computation reads and writes the workspace and returns or raises;
    what was written before an exception stays written. *)
Definition M (F A : Type) : Type := notion F → (exn + A) * notion F.

Definition ret {F A} (a : A) : M F A := λ σ, (inr a, σ).

Definition bind {F A B} (m : M F A) (k : A → M F B) : M F B :=
  λ σ, match m σ with
       | (inr a, σ') => k a σ'
       | (inl e, σ') => (inl e, σ')
       end.

Definition lift {F A} (r : exn + A) : M F A := λ σ, (r, σ).

Declare Scope py_scope.
Delimit Scope py_scope with py.
Notation "x <- m ;; k" := (bind m (λ x, k))
  (at level 100, m at next level, right associativity) : py_scope.
Notation "m ;;; k" := (bind m (λ _, k))
  (at level 100, right associativity) : py_scope.

(** [for x in xs: acc = body(acc, x)]. *)
Fixpoint for_each {F A S} (xs : list A) (acc : S) (body : S → A → M F S) : M F S :=
  match xs with
  | [] => ret acc
  | x :: xs' => bind (body acc x) (λ acc', for_each xs' acc' body)
  end.

(** The truth value of [d.get(k)]: [None] and the empty string are false. *)
Definition truthy (v : option string) : bool :=
  match v with
  | Some s => negb (String.eqb s "")
  | None => false
  end.

Inductive upsert_result := Created | Updated.

#[global] Instance upsert_result_eq_dec : EqDecision upsert_result.
Proof. solve_decision. Defined.

Section Program.

Context {F : Type} `{PyFloat F}.

Local Open Scope py_scope.

(** *** The Notion API *)

(** The relation filter [{"property": prop, "relation": {"contains": id}}]. *)
Definition relation_contains (prop id : string) (p : page F) : bool :=
  match p !! prop with
  | Some (PRelation ids) => bool_decide (id ∈ ids)
  | _ => false
  end.

(** The filter of [upsert_allocation]: Task contains [task] and Week
    contains [week]. *)
Definition matches (task week : string) (p : page F) : bool :=
  relation_contains "Task" task p && relation_contains "Week" week p.

(** The pages of a database that pass the filter, with their ids, in the
    order of the database. *)
Definition matching (task week : string) (l : list (page F)) : list (nat * page F) :=
  filter (λ ip, matches task week ip.2) (imap pair l).

(** [notion.databases.query] on the Allocations database with that filter. *)
Definition query_allocations (task week : string) : M F (list (nat * page F)) :=
  λ σ, (inr (matching task week (allocations σ)), σ).

(** [notion.pages.update]: the properties given replace those of the page,
    the others stay. *)
Definition pages_update (page_id : nat) (properties : page F) : M F unit :=
  λ σ, (inr tt,
        {| master := master σ; weeks := weeks σ;
           allocations := alter (λ p, properties ∪ p) page_id (allocations σ);
           jobs := jobs σ;
           writes := writes σ ++ [WUpdate page_id properties] |}).

(** [notion.pages.create] in the Allocations database. *)
Definition pages_create (properties : page F) : M F unit :=
  λ σ, (inr tt,
        {| master := master σ; weeks := weeks σ;
           allocations := allocations σ ++ [properties];
           jobs := jobs σ;
           writes := writes σ ++ [WCreate properties] |}).

(** *** [upsert_allocation] *)

Definition upsert_allocation (task_id task_name week_id week_label : string)
    (hours : F) : M F upsert_result :=
  qry <- query_allocations task_id week_id ;;
  match qry with
  | (alloc_id, _) :: _ =>
      pages_update alloc_id {[ P_PLANNED := PNumber (f_round2 hours) ]} ;;;
      ret Updated
  | [] =>
      pages_create
        {[ "Name" := PTitle (task_name +:+ " · " +:+ week_label);
           "Task" := PRelation [task_id];
           "Week" := PRelation [week_id];
           P_PLANNED := PNumber (f_round2 hours) ]} ;;;
      ret Created
  end.

(** *** The week index *)

(** Lines 48-58: the loop of [fetch_weeks_index] over the week pages; a
    later page replaces an earlier one under the same key. *)
Definition index_weeks (pages : list week_page)
    : gmap string string * gmap string string :=
  fold_left
    (λ '(idx_by_title, idx_by_date) p,
       let pid := week_id p in
       let title := match week_title p with t :: _ => t | [] => "" end in
       let idx_by_title :=
         if negb (String.eqb title "") then <[title := pid]> idx_by_title
         else idx_by_title in
       let idx_by_date :=
         match week_start p with
         | Some d => <[d := pid]> idx_by_date
         | None => idx_by_date
         end in
       (idx_by_title, idx_by_date))
    pages (∅, ∅).

(** [fetch_weeks_index]: the pages of the Weeks database, all result pages
    of the query one after the other, into the two dictionaries. *)
Definition fetch_weeks_index : M F (gmap string string * gmap string string) :=
  λ σ, (inr (index_weeks (weeks σ)), σ).

(** Lines 148-150 of [run]: the week id of a bucket. *)
Definition resolve_week (idx_by_title idx_by_date : gmap string string)
    (w : datetime) : option string :=
  let label := iso_week_label w in
  let week_id := idx_by_title !! label in
  if negb (truthy week_id) && bool_decide (P_WEEK_START ∈ dom idx_by_date)
  then idx_by_date !! date_isoformat w
  else week_id.

(** *** The split of the estimate *)

(** Line 142. *)
Definition per_week (est : F) (n : Z) : F :=
  if f_gt0 est then f_div est (f_of_int n) else f_zero.

(** Line 145. *)
Definition carry (est : F) (n : Z) : F :=
  f_sub est (f_mul (f_round2 (per_week est n)) (f_of_int (n - 1))).

(** Line 154: the hours of bucket [i] of [n]. *)
Definition bucket_hours (est : F) (n : Z) (i : nat) : F :=
  if (Z.of_nat i =? n - 1) && f_gt0 est then carry est n else per_week est n.

(** Lines 138-140: the buckets of a task. *)
Definition task_weeks (s e : datetime) : exn + list datetime :=
  match mondays_between s e with
  | inl err => inl err
  | inr [] => inr [s]
  | inr weeks => inr weeks
  end.

(** *** The jobs *)

(** The result of the query of [first_queued_job] on the Jobs database. *)
Definition queued (js : list job_page) : list job_page :=
  filter (λ j, String.eqb (job_type j) "Run Allocations"
               && String.eqb (job_status j) "Queued") js.

Definition first_queued_job : M F (option job_page) :=
  λ σ, (inr (head (queued (jobs σ))), σ).

(** [set_job_status]; the time written to Finished At is left out. *)
Definition set_job_status (id status : string) (note : option string) : M F unit :=
  λ σ, let notes := if truthy note then (String.substring 0 1900) <$> note else None in
       (inr tt,
        {| master := master σ; weeks := weeks σ; allocations := allocations σ;
           jobs := (λ j, if String.eqb (job_id j) id
                         then {| job_id := job_id j; job_type := job_type j;
                                 job_status := status;
                                 job_notes := if notes is Some _ then notes
                                              else job_notes j |}
                         else j) <$> jobs σ;
           writes := writes σ ++ [WJob id status notes] |}).

(** *** [run] *)

(** Lines 124-157: one task. [counts] is (created, updated). *)
Definition run_task (idx_by_title idx_by_date : gmap string string)
    (counts : nat * nat) (t : task_page F) : M F (nat * nat) :=
  let name := match task_title t with x :: _ => x | [] => "(untitled)" end in
  s <- lift (from_option inr (inl TypeError) (task_start t)) ;;
  e <- lift (from_option inr (inl TypeError) (task_due t)) ;;
  let est := default f_zero (task_number t) in
  weeks <- lift (task_weeks s e) ;;
  let n := Z.max 1 (Z.of_nat (length weeks)) in
  for_each (imap pair weeks) counts (λ '(created, updated) '(i, w),
    let label := iso_week_label w in
    let week_id := resolve_week idx_by_title idx_by_date w in
    if negb (truthy week_id) then ret (created, updated)
    else
      let hrs := bucket_hours est n i in
      res <- upsert_allocation (task_id t) name (default "" week_id) label hrs ;;
      ret (created + (if decide (res = Created) then 1 else 0),
           updated + (if decide (res = Updated) then 1 else 0))%nat).

(** The result of the query of lines 111-121 on the Master Tasks
    database: the Activities with Start and Due, all result pages one after
    the other. *)
Definition activities (σ : notion F) : list (task_page F) :=
  filter (λ t, String.eqb (task_type t) "Activity"
               && bool_decide (is_Some (task_start t))
               && bool_decide (is_Some (task_due t)))
         (master σ).

(** Lines 108-157: the query, then the loop over the tasks. *)
Definition run_tasks (idx_by_title idx_by_date : gmap string string)
    : M F (nat * nat) :=
  λ σ, for_each (activities σ) (0, 0)%nat (run_task idx_by_title idx_by_date) σ.

(** The text that [run] returns after the loop. *)
Definition summary (counts : nat * nat) : string :=
  "Done (+" +:+ pretty counts.1 +:+ ", ✎" +:+ pretty counts.2 +:+ ")".

Definition run (RUN_IF_NO_JOB : bool) : M F string :=
  job <- first_queued_job ;;
  if negb (bool_decide (is_Some job)) && negb RUN_IF_NO_JOB
  then ret "No job; exiting."
  else
    (if job is Some j then set_job_status (job_id j) "Running" None else ret tt) ;;;
    idx <- fetch_weeks_index ;;
    counts <- run_tasks idx.1 idx.2 ;;
    (if job is Some j
     then set_job_status (job_id j) "Done"
            (Some ("Allocations: +" +:+ pretty counts.1
                   +:+ " / ✎" +:+ pretty counts.2))
     else ret tt) ;;;
    ret (summary counts).

End Program.

(** * Definitions for the statements *)

(** ** Mondays *)

(** [dt] moved by [k] days. *)
Definition shift (dt : datetime) (k : Z) : datetime :=
  {| toordinal := toordinal dt + k; second_of_day := second_of_day dt;
     microsecond := microsecond dt; utcoffset := utcoffset dt |}.

(** The first Monday on or after [start], at the time of day of [start] to
    the second. *)
Definition first_monday (start : datetime) : datetime :=
  {| toordinal := toordinal start + (7 - weekday start) mod 7;
     second_of_day := second_of_day start;
     microsecond := 0; utcoffset := utcoffset start |}.

(** The sequence that the specification words: every Monday from the first
    Monday on or after [start] up to and including the first Monday on or
    after [due]. *)
Definition spec_mondays (start due : datetime) : list datetime :=
  (λ k : nat, shift (first_monday start) (7 * Z.of_nat k))
  <$> seq 0 (S (Z.to_nat ((toordinal (first_monday due)
                           - toordinal (first_monday start)) / 7))).

(** ** The reconciliation on the pages alone *)

(** One call of [upsert_allocation], by its arguments. *)
Record call (F : Type) := {
  c_task  : string;
  c_name  : string;
  c_week  : string;
  c_label : string;
  c_hours : F
}.
Arguments c_task {F} c.
Arguments c_name {F} c.
Arguments c_week {F} c.
Arguments c_label {F} c.
Arguments c_hours {F} c.

Section Reconciliation.

Context {F : Type} `{PyFloat F}.
Implicit Types (l m : list (page F)) (p q : page F) (c : call F).

Local Open Scope py_scope.

(** The id of the first page that the query of [c] returns. *)
Definition first_match c l : option nat :=
  fst <$> head (matching (c_task c) (c_week c) l).

Definition hours_patch c : page F :=
  {[ P_PLANNED := PNumber (f_round2 (c_hours c)) ]}.

Definition new_allocation c : page F :=
  {[ "Name" := PTitle (c_name c +:+ " · " +:+ c_label c);
     "Task" := PRelation [c_task c];
     "Week" := PRelation [c_week c];
     P_PLANNED := PNumber (f_round2 (c_hours c)) ]}.

(** What [upsert_allocation] returns, writes, and leaves in the database. *)
Definition upsert_pages c l : upsert_result * write F * list (page F) :=
  match first_match c l with
  | Some i => (Updated, WUpdate i (hours_patch c), alter (λ p, hours_patch c ∪ p) i l)
  | None => (Created, WCreate (new_allocation c), l ++ [new_allocation c])
  end.

Definition call_upsert c : M F upsert_result :=
  upsert_allocation (c_task c) (c_name c) (c_week c) (c_label c) (c_hours c).

(** A page without its planned hours: what an update never changes. *)
Definition frame p : page F := delete P_PLANNED p.

(** [m] has the pages of [l], up to their planned hours, and then more. *)
Definition extends l m : Prop := ∃ e, frame <$> m = (frame <$> l) ++ e.

(** At most one allocation page for a task and a week. *)
Definition at_most_one l : Prop :=
  ∀ task week, (length (matching task week l) ≤ 1)%nat.

Definition bump (counts : nat * nat) (r : upsert_result) : nat * nat :=
  (counts.1 + (if decide (r = Created) then 1 else 0),
   counts.2 + (if decide (r = Updated) then 1 else 0))%nat.

(** The calls [cs] one after the other: the counts, the writes and the
    pages at the end. *)
Fixpoint exec (cs : list (call F)) (counts : nat * nat) l
    : (nat * nat) * list (write F) * list (page F) :=
  match cs with
  | [] => (counts, [], l)
  | c :: cs' =>
      let '(r, w, l') := upsert_pages c l in
      let '(counts', ws, l'') := exec cs' (bump counts r) l' in
      (counts', w :: ws, l'')
  end.

Definition pages_after (cs : list (call F)) l : list (page F) :=
  fold_left (λ l c, (upsert_pages c l).2) cs l.

(** The calls [cs] as [run] makes them, counting. *)
Definition exec_calls (cs : list (call F)) (counts : nat * nat) : M F (nat * nat) :=
  for_each cs counts (λ counts c, res <- call_upsert c ;; ret (bump counts res)).

(** The call that [run] makes for bucket [i] of a task, if it makes one. *)
Definition bucket_call (idx_by_title idx_by_date : gmap string string)
    (t : task_page F) (n : Z) (iw : nat * datetime) : option (call F) :=
  let week_id := resolve_week idx_by_title idx_by_date iw.2 in
  if truthy week_id then
    Some {| c_task := task_id t;
            c_name := match task_title t with x :: _ => x | [] => "(untitled)" end;
            c_week := default "" week_id;
            c_label := iso_week_label iw.2;
            c_hours := bucket_hours (default f_zero (task_number t)) n iw.1 |}
  else None.

(** The calls that [run] makes for a task. *)
Definition task_calls (idx_by_title idx_by_date : gmap string string)
    (t : task_page F) : exn + list (call F) :=
  match task_start t, task_due t with
  | Some s, Some e =>
      match task_weeks s e with
      | inl err => inl err
      | inr weeks =>
          inr (omap (bucket_call idx_by_title idx_by_date t
                       (Z.max 1 (Z.of_nat (length weeks))))
                    (imap pair weeks))
      end
  | _, _ => inl TypeError
  end.

(** The calls that the loop over the tasks makes, up to the first task
    that raises, and what that task raises. *)
Fixpoint tasks_calls (idx_by_title idx_by_date : gmap string string)
    (ts : list (task_page F)) : list (call F) * option exn :=
  match ts with
  | [] => ([], None)
  | t :: ts' =>
      match task_calls idx_by_title idx_by_date t with
      | inl err => ([], Some err)
      | inr cs =>
          let '(cs', err) := tasks_calls idx_by_title idx_by_date ts' in
          (cs ++ cs', err)
      end
  end.

(** The calls of a run on the workspace [σ]. *)
Definition run_calls (σ : notion F) : list (call F) * option exn :=
  let idx := index_weeks (weeks σ) in
  tasks_calls idx.1 idx.2 (activities σ).

(** The buckets that resolve to a week. *)
Definition resolvable (idx_by_title idx_by_date : gmap string string)
    (ws : list datetime) : list datetime :=
  filter (λ w, truthy (resolve_week idx_by_title idx_by_date w)) ws.

End Reconciliation.

(** The planned hours that a write carries. *)
Definition planned {F} (w : write F) : option (prop_value F) :=
  match w with
  | WUpdate _ properties | WCreate properties => properties !! P_PLANNED
  | WJob _ _ _ => None
  end.

(** The hours of the buckets of a task of estimate [est] over [n] weeks, as
    they go to [upsert_allocation]. *)
Definition emitted_hours {F} `{PyFloat F} (est : F) (n : nat) : list F :=
  bucket_hours est (Z.of_nat n) <$> seq 0 n.

(** [round_half_even p (2 ^ k)], with shifts for the division. *)
Definition round_half_even_pow2 (p : Z) (k : positive) : Z :=
  let d := Z.shiftr p (Zpos k) in
  let r := Z.land p (Z.ones (Zpos k)) in
  let q := Z.shiftl 1 (Zpos k) in
  if 2 * r <? q then d
  else if q <? 2 * r then d + 1
  else if Z.even d then d else d + 1.

(** [Binary64.round2], with shifts for the division: the same double, in
    less steps. *)
Definition round2_shift (x : float) : float :=
  match Prim2SF x with
  | S754_finite s m e =>
      if PrimFloat.ltb (PrimFloat.abs x) 0x1p+46%float then
        let h := match e with
                 | Zneg k => round_half_even_pow2 (Zpos m * 100) k
                 | _ => Zpos m * 100 * 2 ^ e
                 end in
        let q := (Binary64.of_Z h / 100)%float in
        if s then (- q)%float else q
      else x
  | _ => x
  end.

(** [sum] of the hours of [n] buckets, the first [n - 1] all [x] and the
    last [y]: from 0, left to right. *)
Definition sum_of {F} `{PyFloat F} (n : nat) (x y : F) : F :=
  f_add (Nat.iter (n - 1) (λ s, f_add s x) f_zero) y.

(** The estimate of [k] hundredths of an hour: the double nearest to
    [k / 100], which is the float of the decimal number. *)
Definition hundredths_of (k : Z) : float := (Binary64.of_Z k / 100)%float.

(** For the estimate of [k] hundredths over [n] buckets, in double
    precision: the estimate is above 0; the hours as persisted add up to it
    within 1e-9; the last bucket is within [(n - 1) * 0.005 + 1e-9] of the
    even share, and so is the sum of the hours as emitted of the
    estimate. *)
Definition split_ok (k : Z) (n : nat) : bool :=
  let H := hundredths_of k in
  let q := (H / Binary64.of_Z (Z.of_nat n))%float in
  let r := round2_shift q in
  let last := (H - r * Binary64.of_Z (Z.of_nat n - 1))%float in
  let slack := (Binary64.of_Z (Z.of_nat n - 1) * 0.005 + 1e-9)%float in
  PrimFloat.ltb 0 H
  && PrimFloat.leb (PrimFloat.abs (sum_of n r (round2_shift last) - H)) 1e-9
  && PrimFloat.leb (PrimFloat.abs (last - q)) slack
  && PrimFloat.leb (PrimFloat.abs (sum_of n q last - H)) slack.

(** [split_ok] for the estimates of [k0 + 1] to [k0 + count] hundredths
    over 1 to [nmax] buckets. *)
Fixpoint split_ok_upto (count : nat) (k0 : Z) (nmax : nat) : bool :=
  match count with
  | O => true
  | S count' =>
      let k := k0 + 1 in
      forallb (split_ok k) (seq 1 nmax) && split_ok_upto count' k nmax
  end.

(** A number that is zero or finite. *)
Definition SFfinite (x : spec_float) : Prop :=
  match x with
  | S754_zero _ | S754_finite _ _ _ => True
  | _ => False
  end.

(** ** The scenario of the specification *)

Module Scenario.

Definition week_pages : list week_page :=
  [ {| week_id := "w02"; week_title := ["2026-[W]02"]; week_start := Some "2026-01-05" |};
    {| week_id := "w03"; week_title := ["2026-[W]03"]; week_start := Some "2026-01-12" |};
    {| week_id := "w04"; week_title := ["2026-[W]04"]; week_start := Some "2026-01-19" |} ].

(** A task from Monday 2026-01-05 to 2026-01-19. *)
Definition task {F} (number : option F) : task_page F :=
  {| task_id := "t1"; task_type := "Activity"; task_title := ["Report"];
     task_start := Some (midnight 2026 1 5);
     task_due := Some (midnight 2026 1 19);
     task_number := number |}.

Definition job : job_page :=
  {| job_id := "j1"; job_type := "Run Allocations"; job_status := "Queued";
     job_notes := None |}.

Definition workspace {F} (number : option F) : notion F :=
  {| master := [task number]; weeks := week_pages; allocations := [];
     jobs := [job]; writes := [] |}.

(** The week pages without their titles: only Week Start tells the week. *)
Definition untitled_weeks : list week_page :=
  (λ p, {| week_id := week_id p; week_title := []; week_start := week_start p |})
  <$> week_pages.

Definition untitled_workspace {F} (number : option F) : notion F :=
  {| master := [task number]; weeks := untitled_weeks; allocations := [];
     jobs := [job]; writes := [] |}.

(** Two allocation pages for the same task and week. *)
Definition duplicate {F} (hours : F) : page F :=
  {[ "Name" := PTitle "Report · 2026-[W]02";
     "Task" := PRelation ["t1"];
     "Week" := PRelation ["w02"];
     P_PLANNED := PNumber hours ]}.

Definition duplicated {F} (a b : F) : notion F :=
  {| master := []; weeks := week_pages; allocations := [duplicate a; duplicate b];
     jobs := []; writes := [] |}.

(** What is read of an allocation page. *)
Definition shown {F} (p : page F) :=
  (p !! "Name", p !! "Task", p !! "Week", p !! P_PLANNED).

End Scenario.

(** ** Definitions for the further properties *)

(** The note that [run] leaves on its job. *)
Definition job_note (counts : nat * nat) : string :=
  "Allocations: +" +:+ pretty counts.1 +:+ " / ✎" +:+ pretty counts.2.

(** The workspace after [set_job_status]. *)
Definition job_set {F} `{PyFloat F} (j : option job_page) (status : string)
    (note : option string) (σ : notion F) : notion F :=
  match j with
  | Some j => (set_job_status (job_id j) status note σ).2
  | None => σ
  end.

Definition is_create {F} (w : write F) : bool :=
  match w with WCreate _ => true | _ => false end.

Definition is_update {F} (w : write F) : bool :=
  match w with WUpdate _ _ => true | _ => false end.

Definition is_job {F} (w : write F) : bool :=
  match w with WJob _ _ _ => true | _ => false end.

(** The numbers of pages that the writes [ws] create and update. *)
Definition creates {F} (ws : list (write F)) : nat :=
  length (filter (λ w, is_create w) ws).

Definition updates {F} (ws : list (write F)) : nat :=
  length (filter (λ w, is_update w) ws).

(** A job page after [set_job_status] on its id. *)
Definition job_with (status : string) (notes : option string) (k : job_page)
    : job_page :=
  {| job_id := job_id k; job_type := job_type k; job_status := status;
     job_notes := if notes is Some _ then notes else job_notes k |}.

(** Lines 49-58: what one week page adds to the two dictionaries. *)
Definition index_step (idx : gmap string string * gmap string string)
    (p : week_page) : gmap string string * gmap string string :=
  let '(idx_by_title, idx_by_date) := idx in
  let pid := week_id p in
  let title := match week_title p with t :: _ => t | [] => "" end in
  let idx_by_title :=
    if negb (String.eqb title "") then <[title := pid]> idx_by_title
    else idx_by_title in
  let idx_by_date :=
    match week_start p with
    | Some d => <[d := pid]> idx_by_date
    | None => idx_by_date
    end in
  (idx_by_title, idx_by_date).

(** The title that [fetch_weeks_index] reads of a week page. *)
Definition title_of (p : week_page) : string :=
  match week_title p with t :: _ => t | [] => "" end.

(** Lines 126-127: the name that [run] reads of a task. *)
Definition name_of {F} (t : task_page F) : string :=
  match task_title t with x :: _ => x | [] => "(untitled)" end.

(** A datetime of a date alone, as [fromisoformat] gives for "YYYY-MM-DD":
    midnight, naive. *)
Definition date_only (dt : datetime) : Prop :=
  second_of_day dt = 0 ∧ microsecond dt = 0 ∧ utcoffset dt = None.

(** ** The result pages of a query *)

(** A response of [notion.databases.query]: one page of results. *)
Record response (A : Type) := {
  results     : list A;
  has_more    : bool;             (* the truth of res.get("has_more") *)
  next_cursor : option string
}.
Arguments results {A} r.
Arguments has_more {A} r.
Arguments next_cursor {A} r.

(** Lines 45-61 and 109-121, the loop over the result pages: [query] is the
    response of the database to a start cursor, [None] for the query without
    one, which is also the query made for an empty cursor; [body] is what
    the loop does with the results of a response.  The loop ends at the
    first response that has no more; [None] when [fuel] responses have not
    brought it to its end. *)
Fixpoint query_all {A St} (fuel : nat) (query : option string → response A)
    (body : St → list A → St) (cursor : option string) (acc : St) : option St :=
  match fuel with
  | O => None
  | S fuel' =>
      let res := if truthy cursor then query cursor else query None in
      let acc := body acc (results res) in
      if negb (has_more res) then Some acc
      else query_all fuel' query body (next_cursor res) acc
  end.

(** [fetch_weeks_index] on the result pages of the Weeks database. *)
Definition fetch_weeks_pages (fuel : nat) (query : option string → response week_page)
    : option (gmap string string * gmap string string) :=
  query_all fuel query (λ idx rs, fold_left index_step rs idx) None (∅, ∅).

(** Lines 109-121 of [run] on the result pages of the Master Tasks
    database. *)
Definition fetch_tasks_pages {F} (fuel : nat)
    (query : option string → response (task_page F)) : option (list (task_page F)) :=
  query_all fuel query (λ tasks rs, tasks ++ rs) None [].

(** The database answers the start cursor [cursor] with the first of the
    result pages [chunks], and each next cursor with the next one. *)
Inductive serves {A} (query : option string → response A)
    : option string → list (list A) → Prop :=
  | serves_last cursor :
      has_more (query cursor) = false →
      serves query cursor [results (query cursor)]
  | serves_more cursor next chunks :
      has_more (query cursor) = true →
      next_cursor (query cursor) = Some next → next ≠ "" →
      serves query (Some next) chunks →
      serves query cursor (results (query cursor) :: chunks).

(** The year of [ord2ymd], without the month and the day. *)
Definition ord2year (ordinal : Z) : Z :=
  let n := ordinal - 1 in
  let n400 := n / DI400Y in let n := n mod DI400Y in
  let year := n400 * 400 + 1 in
  let n100 := n / DI100Y in let n := n mod DI100Y in
  let n4 := n / DI4Y in let n := n mod DI4Y in
  let n1 := n / 365 in
  let year := year + n100 * 100 + n4 * 4 + n1 in
  if (n1 =? 4) || (n100 =? 4) then year - 1 else year.

(** ** Further cases *)

Module Cases.

(** A task whose Start is a date and whose Due has a time and an offset:
    2026-01-05 and 2026-01-19T09:00:00+00:00. *)
Definition mixed_task : task_page float :=
  {| task_id := "t2"; task_type := "Activity"; task_title := ["Review"];
     task_start := Some (midnight 2026 1 5);
     task_due := Some {| toordinal := ymd2ord 2026 1 19; second_of_day := 32400;
                         microsecond := 0; utcoffset := Some 0 |};
     task_number := Some 4%float |}.

(** The task of the scenario, then that task. *)
Definition mixed_workspace : notion float :=
  {| master := [Scenario.task (Some 10%float); mixed_task];
     weeks := Scenario.week_pages; allocations := [];
     jobs := [Scenario.job]; writes := [] |}.

(** An allocation page of the task of the scenario for a week that is not
    among its buckets. *)
Definition stale : page float :=
  {[ "Name" := PTitle "Report · 2025-[W]52";
     "Task" := PRelation ["t1"];
     "Week" := PRelation ["w52"];
     P_PLANNED := PNumber 5%float ]}.

Definition stale_workspace : notion float :=
  {| master := [Scenario.task (Some 10%float)]; weeks := Scenario.week_pages;
     allocations := [stale]; jobs := [Scenario.job]; writes := [] |}.

(** The workspace of the scenario without its job. *)
Definition jobless_workspace : notion float :=
  {| master := [Scenario.task (Some 10%float)]; weeks := Scenario.week_pages;
     allocations := []; jobs := []; writes := [] |}.

(** The Weeks database in two result pages, of two week pages and of one. *)
Definition weeks_in_two (cursor : option string) : response week_page :=
  match cursor with
  | None => {| results := take 2 Scenario.week_pages; has_more := true;
               next_cursor := Some "c1" |}
  | Some _ => {| results := drop 2 Scenario.week_pages; has_more := false;
                 next_cursor := None |}
  end.

(** The Master Tasks database in one result page. *)
Definition tasks_in_one (cursor : option string) : response (task_page float) :=
  {| results := [Scenario.task (Some 10%float)]; has_more := false;
     next_cursor := None |}.

(** A database that says it has more and gives no cursor. *)
Definition no_cursor (cursor : option string) : response week_page :=
  {| results := Scenario.week_pages; has_more := true; next_cursor := None |}.

End Cases.

(** * Properties *)

(** ** Queries and updates of the pages *)

Section Pages.

Context {F : Type} `{PyFloat F}.
Implicit Types (σ : notion F) (l m : list (page F)) (p q : page F) (c : call F).

Lemma bind_eq {A B} (m : M F A) (k : A → M F B) σ :
  bind m k σ = match m σ with
               | (inr a, σ') => k a σ'
               | (inl e, σ') => (inl e, σ')
               end.
Proof. reflexivity. Qed.

Lemma upsert_allocation_pages c σ :
  call_upsert c σ =
  (inr (upsert_pages c (allocations σ)).1.1,
   {| master := master σ; weeks := weeks σ;
      allocations := (upsert_pages c (allocations σ)).2;
      jobs := jobs σ;
      writes := writes σ ++ [(upsert_pages c (allocations σ)).1.2] |}).
Proof.
  unfold call_upsert, upsert_allocation, upsert_pages, first_match, bind,
    query_allocations.
  destruct (matching (c_task c) (c_week c) (allocations σ)) as [|[i p] rest];
    reflexivity.
Qed.

(** The first result of the query is the first page that passes the filter. *)
Lemma head_matching_find task week l :
  head (matching task week l) = list_find (λ p, matches task week p) l.
Proof.
  unfold matching.
  enough (∀ g : nat → nat,
    head (filter (λ ip : nat * page F, matches task week ip.2)
                 (imap (λ i p, (g i, p)) l))
    = prod_map g id <$> list_find (λ p, matches task week p) l) as Hg.
  { etrans; [exact (Hg id)|]. by destruct (list_find _ l) as [[]|]. }
  induction l as [|p l IH]; intros g; [done|].
  cbn [imap list_find]. rewrite filter_cons. cbn [snd].
  destruct (decide (matches task week p)) as [Hp|Hp]; [done|].
  etrans; [exact (IH (g ∘ S))|].
  by destruct (list_find _ l) as [[]|].
Qed.

Lemma first_match_find c l :
  first_match c l = fst <$> list_find (λ p, matches (c_task c) (c_week c) p) l.
Proof. unfold first_match. by rewrite head_matching_find. Qed.

Lemma frame_patch c p : frame (hours_patch c ∪ p) = frame p.
Proof.
  unfold frame, hours_patch.
  rewrite delete_union, delete_singleton_eq. apply (left_id_L ∅ (∪)).
Qed.

Lemma matches_frame task week p : matches task week (frame p) = matches task week p.
Proof.
  unfold matches, relation_contains, frame.
  by rewrite !lookup_delete_ne.
Qed.

Lemma patch_same c p :
  p !! P_PLANNED = Some (PNumber (f_round2 (c_hours c))) → hours_patch c ∪ p = p.
Proof.
  intros Hp. unfold hours_patch.
  rewrite <- insert_union_singleton_l. by apply insert_id.
Qed.

Lemma patch_frame c p q : frame p = frame q → hours_patch c ∪ p = hours_patch c ∪ q.
Proof.
  intros Hpq. unfold hours_patch.
  rewrite <- !insert_union_singleton_l.
  rewrite <- (insert_delete_eq p), <- (insert_delete_eq q).
  unfold frame in Hpq. by rewrite Hpq.
Qed.

Lemma first_match_frames c l :
  first_match c l
  = fst <$> list_find (λ p, matches (c_task c) (c_week c) p) (frame <$> l).
Proof.
  rewrite first_match_find, list_find_fmap.
  rewrite (list_find_ext (_ ∘ frame) (λ p, matches (c_task c) (c_week c) p) l).
  - by destruct (list_find _ l) as [[]|].
  - intros p. simpl. by rewrite matches_frame.
Qed.

Lemma extends_refl l : extends l l.
Proof. exists []. by rewrite app_nil_r. Qed.

Lemma extends_trans l1 l2 l3 : extends l1 l2 → extends l2 l3 → extends l1 l3.
Proof.
  intros [e1 H1] [e2 H2]. exists (e1 ++ e2).
  by rewrite H2, H1, app_assoc.
Qed.

Lemma extends_length l m : extends l m → (length l ≤ length m)%nat.
Proof.
  intros [e He]. apply (f_equal length) in He.
  rewrite length_app, !length_fmap in He. lia.
Qed.

Lemma first_match_extends c l m i :
  extends l m → first_match c l = Some i → first_match c m = Some i.
Proof.
  intros [e He]. rewrite !first_match_frames, He.
  destruct (list_find _ (frame <$> l)) as [[j x]|] eqn:Hf; [|done].
  intros [= ->]. by rewrite (list_find_app_l _ _ _ _ _ Hf).
Qed.

Lemma first_match_lt c l i : first_match c l = Some i → (i < length l)%nat.
Proof.
  rewrite first_match_find.
  destruct (list_find _ l) as [[j x]|] eqn:Hf; [|done].
  intros [= ->]. apply list_find_Some in Hf as (Hl & _).
  by apply lookup_lt_Some in Hl.
Qed.

Lemma first_match_matches c l i :
  first_match c l = Some i →
  ∃ p, l !! i = Some p ∧ matches (c_task c) (c_week c) p.
Proof.
  rewrite first_match_find.
  destruct (list_find _ l) as [[j x]|] eqn:Hf; [|done].
  intros [= ->]. apply list_find_Some in Hf as (Hl & Hm & _). eauto.
Qed.

Lemma first_match_None c l :
  first_match c l = None ↔ Forall (λ p, ¬ matches (c_task c) (c_week c) p) l.
Proof.
  rewrite first_match_find.
  destruct (list_find _ l) as [[j x]|] eqn:Hf; simpl.
  - split; [done|]. intros Hall.
    apply (list_find_None (λ p, matches (c_task c) (c_week c) p)) in Hall.
    congruence.
  - split; [|done]. intros _. by apply list_find_None in Hf.
Qed.

Lemma matches_new c : matches (c_task c) (c_week c) (new_allocation c).
Proof.
  unfold matches, relation_contains, new_allocation.
  rewrite lookup_insert_ne by done. rewrite lookup_insert_eq.
  rewrite lookup_insert_ne by done. rewrite lookup_insert_ne by done.
  rewrite lookup_insert_eq.
  rewrite !bool_decide_eq_true_2; [done|by apply list_elem_of_singleton..].
Qed.

Lemma elem_of_matching task week l i p :
  (i, p) ∈ matching task week l ↔ l !! i = Some p ∧ matches task week p.
Proof.
  unfold matching. rewrite list_elem_of_filter, elem_of_lookup_imap. simpl.
  split.
  - intros (Hm & j & x & [= -> ->] & Hl). done.
  - intros (Hl & Hm). eauto.
Qed.

Lemma matching_app task week l m :
  matching task week (l ++ m)
  = matching task week l
    ++ filter (λ ip : nat * page F, matches task week ip.2)
              (imap (λ i p, (length l + i, p)%nat) m).
Proof. unfold matching. by rewrite imap_app, filter_app. Qed.

(** The ids that a query returns depend on the pages up to their planned
    hours only. *)
Lemma matching_ids_frame task week l m :
  frame <$> l = frame <$> m →
  (matching task week l).*1 = (matching task week m).*1.
Proof.
  unfold matching.
  enough (∀ g : nat → nat, frame <$> l = frame <$> m →
    (filter (λ ip : nat * page F, matches task week ip.2)
            (imap (λ i p, (g i, p)) l)).*1
    = (filter (λ ip : nat * page F, matches task week ip.2)
              (imap (λ i p, (g i, p)) m)).*1) as Hg by exact (Hg id).
  revert m. induction l as [|p l IH]; intros [|q m] g Hfr; try done.
  injection Hfr as Hpq Hfr.
  cbn [imap]. rewrite !filter_cons. cbn [snd].
  assert (matches task week p = matches task week q) as Hmq
    by (by rewrite <- (matches_frame _ _ p), Hpq, matches_frame).
  rewrite Hmq. specialize (IH m (g ∘ S) Hfr).
  destruct (decide (matches task week q)); [rewrite !fmap_cons; f_equal|]; exact IH.
Qed.

Lemma frame_alter_patch c i l :
  frame <$> alter (λ p, hours_patch c ∪ p) i l = frame <$> l.
Proof.
  apply list_eq. intros j. rewrite !list_lookup_fmap.
  destruct (decide (i = j)) as [->|Hij].
  - rewrite list_lookup_alter_eq. destruct (l !! j); simpl; [|done].
    by rewrite frame_patch.
  - by rewrite list_lookup_alter_ne.
Qed.

Lemma upsert_extends c l : extends l (upsert_pages c l).2.
Proof.
  unfold upsert_pages. destruct (first_match c l) as [i|]; simpl.
  - exists []. rewrite app_nil_r.
    apply list_eq. intros j. rewrite !list_lookup_fmap.
    destruct (decide (i = j)) as [->|Hij].
    + rewrite list_lookup_alter_eq. destruct (l !! j); simpl; [|done].
      by rewrite frame_patch.
    + by rewrite list_lookup_alter_ne.
  - exists [frame (new_allocation c)]. by rewrite fmap_app.
Qed.

(** After the call, the query of [c] has a first result, and its planned
    hours are those of [c]. *)
Lemma upsert_target c l :
  ∃ i p, first_match c (upsert_pages c l).2 = Some i
         ∧ (upsert_pages c l).2 !! i = Some p
         ∧ p !! P_PLANNED = Some (PNumber (f_round2 (c_hours c))).
Proof.
  pose proof (upsert_extends c l) as Hext.
  unfold upsert_pages in *. destruct (first_match c l) as [i|] eqn:Hm; simpl in *.
  - destruct (first_match_matches _ _ _ Hm) as (p & Hp & _).
    exists i, (hours_patch c ∪ p). split_and!.
    + by eapply first_match_extends.
    + by rewrite list_lookup_alter_eq, Hp.
    + apply lookup_union_Some_l. apply lookup_singleton_eq.
  - exists (length l), (new_allocation c). split_and!.
    + rewrite first_match_find.
      apply first_match_None in Hm.
      apply (list_find_None (λ p, matches (c_task c) (c_week c) p)) in Hm.
      rewrite (list_find_app_r _ _ _ Hm). simpl.
      rewrite decide_True by apply matches_new. simpl. f_equal; lia.
    + by rewrite lookup_app_r, Nat.sub_diag.
    + unfold new_allocation. by rewrite 3!lookup_insert_ne, lookup_singleton_eq.
Qed.

Lemma upsert_other c l j :
  first_match c (upsert_pages c l).2 ≠ Some j → (j < length l)%nat →
  (upsert_pages c l).2 !! j = l !! j.
Proof.
  intros Hne Hj. destruct (upsert_target c l) as (i & p & Hi & _).
  assert (i ≠ j) by congruence. clear Hne.
  pose proof (upsert_extends c l) as Hext.
  unfold upsert_pages in *. destruct (first_match c l) as [i'|] eqn:Hm; simpl in *.
  - rewrite (first_match_extends _ _ _ _ Hext Hm) in Hi. simplify_eq.
    by rewrite list_lookup_alter_ne.
  - by rewrite lookup_app_l.
Qed.

Lemma matches_created task_id task_name week_id week_label hours task week :
  matches task week
    ({[ "Name" := PTitle (task_name +:+ " · " +:+ week_label);
        "Task" := PRelation [task_id];
        "Week" := PRelation [week_id];
        P_PLANNED := PNumber (f_round2 hours) ]} : page F)
  → task = task_id ∧ week = week_id.
Proof.
  unfold matches, relation_contains.
  rewrite lookup_insert_ne by done. rewrite lookup_insert_eq.
  rewrite lookup_insert_ne by done. rewrite lookup_insert_ne by done.
  rewrite lookup_insert_eq.
  intros [Ht Hw]%andb_True.
  apply bool_decide_unpack, list_elem_of_singleton in Ht.
  apply bool_decide_unpack, list_elem_of_singleton in Hw. done.
Qed.

End Pages.

(** ** [upsert_allocation] *)

Section Upsert.

Context {F : Type} `{PyFloat F}.
Implicit Types (σ : notion F) (l m : list (page F)) (p q : page F) (c : call F).

(** C6. A call of [upsert_allocation] makes one write.  When the query has a
    result, the write updates its first result and the call returns
    "updated"; when it has none, the write creates one page, with the name
    "{task_name} · {week_label}", the relations [task_id] and [week_id] and
    the planned hours [round(hours, 2)], and the call returns "created". *)
Theorem upsert_allocation_one_write task_id task_name week_id week_label hours σ :
  ∃ r w σ',
    upsert_allocation task_id task_name week_id week_label hours σ = (inr r, σ')
    ∧ writes σ' = writes σ ++ [w]
    ∧ match matching task_id week_id (allocations σ) with
      | (alloc_id, _) :: _ =>
          r = Updated
          ∧ w = WUpdate alloc_id {[ P_PLANNED := PNumber (f_round2 hours) ]}
          ∧ allocations σ'
            = alter (λ p, {[ P_PLANNED := PNumber (f_round2 hours) ]} ∪ p)
                    alloc_id (allocations σ)
      | [] =>
          r = Created
          ∧ ∃ new, w = WCreate new
              ∧ allocations σ' = allocations σ ++ [new]
              ∧ new !! "Name" = Some (PTitle (task_name +:+ " · " +:+ week_label))
              ∧ new !! "Task" = Some (PRelation [task_id])
              ∧ new !! "Week" = Some (PRelation [week_id])
              ∧ new !! P_PLANNED = Some (PNumber (f_round2 hours))
              ∧ size new = 4%nat
      end.
Proof.
  unfold upsert_allocation. rewrite bind_eq. unfold query_allocations at 1.
  destruct (matching task_id week_id (allocations σ)) as [|[alloc_id p] rest].
  - do 3 eexists. split; [reflexivity|]. split; [reflexivity|].
    split; [done|]. eexists. split; [reflexivity|]. split; [reflexivity|].
    split_and!; done.
  - do 3 eexists. split; [reflexivity|]. done.
Qed.

(** C9. On the update path the write carries the planned hours only, set
    to [round(hours, 2)]; every other property of the page, its name and
    its two relations among them, and every other page stay as they were. *)
Theorem upsert_allocation_update_frame
    task_id task_name week_id week_label hours σ alloc_id p rest :
  matching task_id week_id (allocations σ) = (alloc_id, p) :: rest →
  ∃ σ' p',
    upsert_allocation task_id task_name week_id week_label hours σ
    = (inr Updated, σ')
    ∧ writes σ'
      = writes σ ++ [WUpdate alloc_id {[ P_PLANNED := PNumber (f_round2 hours) ]}]
    ∧ allocations σ !! alloc_id = Some p
    ∧ allocations σ' !! alloc_id = Some p'
    ∧ p' !! P_PLANNED = Some (PNumber (f_round2 hours))
    ∧ (∀ name, name ≠ P_PLANNED → p' !! name = p !! name)
    ∧ (∀ j, j ≠ alloc_id → allocations σ' !! j = allocations σ !! j)
    ∧ length (allocations σ') = length (allocations σ).
Proof.
  intros Hq.
  assert (allocations σ !! alloc_id = Some p) as Hp.
  { eapply (elem_of_matching task_id week_id). rewrite Hq. by left. }
  unfold upsert_allocation. rewrite bind_eq. unfold query_allocations at 1.
  rewrite Hq. eexists. exists ({[ P_PLANNED := PNumber (f_round2 hours) ]} ∪ p).
  split; [reflexivity|]. cbn [writes allocations].
  split_and!; try done.
  - by rewrite list_lookup_alter_eq, Hp.
  - apply lookup_union_Some_l, lookup_singleton_eq.
  - intros name Hname. apply lookup_union_r. by apply lookup_singleton_ne.
  - intros j Hj. by apply list_lookup_alter_ne.
  - apply length_alter.
Qed.

(** C10. When the query has two results or more, the call updates the
    first and returns "updated"; the other pages are unchanged, none is
    deleted, and the query still returns the same pages.  The database has
    at most one page per task and week after the call if and only if it had
    before. *)
Theorem upsert_allocation_duplicates
    task_id task_name week_id week_label hours σ :
  let σ' := (upsert_allocation task_id task_name week_id week_label hours σ).2 in
  (at_most_one (allocations σ) ↔ at_most_one (allocations σ'))
  ∧ ∀ i p j q rest,
      matching task_id week_id (allocations σ) = (i, p) :: (j, q) :: rest →
      (upsert_allocation task_id task_name week_id week_label hours σ).1
      = inr Updated
      ∧ allocations σ' !! i
        = Some ({[ P_PLANNED := PNumber (f_round2 hours) ]} ∪ p)
      ∧ (∀ k, k ≠ i → allocations σ' !! k = allocations σ !! k)
      ∧ allocations σ' !! j = Some q
      ∧ length (allocations σ') = length (allocations σ)
      ∧ (matching task_id week_id (allocations σ')).*1 = i :: j :: rest.*1.
Proof.
  set (c := {| c_task := task_id; c_name := task_name; c_week := week_id;
               c_label := week_label; c_hours := hours |}).
  pose proof (upsert_allocation_pages c σ) as Hup.
  unfold call_upsert in Hup. cbv [c c_task c_name c_week c_label c_hours] in Hup.
  rewrite Hup. cbn [fst snd allocations]. clear Hup.
  unfold upsert_pages, first_match. cbn [c_task c_week].
  change (c_task c) with task_id. change (c_week c) with week_id.
  split.
  - destruct (matching task_id week_id (allocations σ)) as [|[i p] rest] eqn:Hq;
      cbn [head fmap option_fmap option_map fst snd].
    + split; intros Hone task week; specialize (Hone task week);
        rewrite matching_app in *; rewrite length_app in *; [|lia].
      cbn [imap filter list_filter] in *.
      destruct (decide _) as [Hm|]; simpl in *; [|lia].
      apply matches_created in Hm as [Ht Hw]. cbn [c_task c_week] in Ht, Hw.
      rewrite Ht, Hw, Hq. simpl. lia.
    + assert (∀ task week,
        length (matching task week
                  (alter (λ p0, hours_patch c ∪ p0) i (allocations σ)))
        = length (matching task week (allocations σ))) as Hlen.
      { intros task week.
        rewrite <- (length_fmap fst), <- (length_fmap fst (matching _ _ (allocations σ))).
        f_equal. apply matching_ids_frame, frame_alter_patch. }
      split; intros Hone task week; specialize (Hone task week);
        rewrite Hlen in *; done.
  - intros i p j q rest Hq. rewrite Hq.
    cbn [head fmap option_fmap option_map fst snd].
    assert (allocations σ !! i = Some p) as Hp.
    { eapply (elem_of_matching task_id week_id). rewrite Hq. by left. }
    assert (allocations σ !! j = Some q) as Hq'.
    { eapply (elem_of_matching task_id week_id). rewrite Hq. right. by left. }
    assert (i ≠ j) as Hij.
    { intros ->.
      assert (NoDup (matching task_id week_id (allocations σ)).*1) as Hnd.
      { unfold matching. apply NoDup_fmap_fst.
        - intros k x y [_ Hx]%list_elem_of_filter [_ Hy]%list_elem_of_filter.
          apply elem_of_lookup_imap in Hx as (? & ? & [= <- <-] & Hx).
          apply elem_of_lookup_imap in Hy as (? & ? & [= <- <-] & Hy).
          congruence.
        - apply NoDup_filter. apply NoDup_alt. intros a b x.
          rewrite !list_lookup_imap. intros Ha Hb.
          destruct (allocations σ !! a), (allocations σ !! b); simpl in *;
            congruence. }
      rewrite Hq in Hnd. simpl in Hnd. apply NoDup_cons in Hnd as [Hnd _].
      apply Hnd. by left. }
    split_and!; try done.
    + by rewrite list_lookup_alter_eq, Hp.
    + intros k Hk. by apply list_lookup_alter_ne.
    + by rewrite list_lookup_alter_ne.
    + apply length_alter.
    + rewrite (matching_ids_frame _ _ _ (allocations σ)), Hq; [done|].
      apply (frame_alter_patch c).
Qed.

End Upsert.

(** ** A sequence of calls *)

Section Replay.

Context {F : Type} `{PyFloat F}.
Implicit Types (σ : notion F) (l m : list (page F)) (p q : page F) (c : call F).

Lemma exec_pages cs counts l : (exec cs counts l).2 = pages_after cs l.
Proof.
  revert counts l. induction cs as [|c cs IH]; intros counts l; [done|].
  simpl. destruct (upsert_pages c l) as [[r w] l'] eqn:Hu.
  specialize (IH (bump counts r) l').
  destruct (exec cs (bump counts r) l') as [[counts' ws] l'']. simpl in *.
  by rewrite IH.
Qed.

Lemma pages_after_extends cs l : extends l (pages_after cs l).
Proof.
  revert l. induction cs as [|c cs IH]; intros l; [apply extends_refl|].
  simpl. eapply extends_trans; [apply upsert_extends|apply IH].
Qed.

(** A page that is the first result of no call of [cs] is as it was. *)
Lemma pages_after_untouched cs l j :
  (∀ c, c ∈ cs → first_match c (pages_after cs l) ≠ Some j) →
  (j < length l)%nat →
  pages_after cs l !! j = l !! j.
Proof.
  revert l. induction cs as [|c cs IH]; intros l Hun Hj; [done|].
  simpl in *.
  rewrite IH.
  - apply upsert_other; [|done].
    destruct (upsert_target c l) as (i & p & Hi & _).
    rewrite Hi. intros [= ->].
    eapply (Hun c); [by left|].
    eapply first_match_extends; [apply pages_after_extends|done].
  - intros c' Hc'. apply Hun. by right.
  - eapply Nat.lt_le_trans; [done|]. apply extends_length, upsert_extends.
Qed.

Lemma exec_counts cs counts l :
  ((exec cs counts l).1.1.1 + (exec cs counts l).1.1.2
   = counts.1 + counts.2 + length cs)%nat.
Proof.
  revert counts l. induction cs as [|c cs IH]; intros counts l; simpl; [lia|].
  destruct (upsert_pages c l) as [[r w] l'].
  specialize (IH (bump counts r) l').
  destruct (exec cs (bump counts r) l') as [[counts' ws] l'']. simpl in *.
  rewrite IH. unfold bump. simpl. destruct r; simpl; lia.
Qed.

(** Replay.  On a database [m] that has the pages that the calls [cs]
    leave from [l], up to the planned hours of the pages that some call
    writes to, the calls [cs] only update, and leave what they left
    from [l]. *)
Lemma replay cs : ∀ l m counts,
  frame <$> m = frame <$> pages_after cs l →
  (∀ j, (∀ c, c ∈ cs → first_match c (pages_after cs l) ≠ Some j) →
        m !! j = pages_after cs l !! j) →
  (exec cs counts m).1.1 = (counts.1, counts.2 + length cs)%nat
  ∧ (exec cs counts m).2 = pages_after cs l.
Proof.
  induction cs as [|c cs IH]; intros l m counts Hfr Hun.
  - simpl in *. split; [destruct counts; simpl; f_equal; lia|].
    apply list_eq. intros j. apply Hun. intros c Hc. by apply elem_of_nil in Hc.
  - simpl in Hfr, Hun.
    destruct (upsert_target c l) as (i & p0 & Hi & Hp0 & Hv).
    set (l' := (upsert_pages c l).2) in *.
    assert (first_match c (pages_after cs l') = Some i) as Hfin
      by (eapply first_match_extends; [apply pages_after_extends|done]).
    assert (first_match c m = Some i) as Hm.
    { rewrite first_match_frames, Hfr, <- first_match_frames. done. }
    assert (upsert_pages c m
            = (Updated, WUpdate i (hours_patch c),
               alter (λ p, hours_patch c ∪ p) i m)) as Hup
      by (unfold upsert_pages; by rewrite Hm).
    cbn [exec]. rewrite Hup.
    specialize (IH l' (alter (λ p, hours_patch c ∪ p) i m) (bump counts Updated)).
    destruct (exec cs (bump counts Updated) _) as [[counts' ws] l''].
    simpl in *. destruct IH as [IH1 IH2].
    + by rewrite frame_alter_patch.
    + intros j Hj. destruct (decide (i = j)) as [<-|Hij].
      * rewrite list_lookup_alter_eq.
        rewrite pages_after_untouched; [|done|by eapply lookup_lt_Some].
        assert ((frame <$> m) !! i = Some (frame p0)) as Hmi.
        { rewrite Hfr, list_lookup_fmap.
          rewrite pages_after_untouched; [|done|by eapply lookup_lt_Some].
          by rewrite Hp0. }
        rewrite list_lookup_fmap in Hmi.
        destruct (m !! i) as [pm|]; simpl in *; [|done].
        injection Hmi as Hmi.
        rewrite Hp0. f_equal.
        rewrite (patch_frame _ _ _ Hmi). by apply patch_same.
      * rewrite list_lookup_alter_ne by done.
        apply Hun. intros c' [->|Hc']%elem_of_cons; [congruence|by apply Hj].
    + split; [|done]. rewrite IH1. simpl. f_equal; lia.
Qed.

(** The calls [cs], made again on the pages they left, create nothing and
    leave the pages as they are. *)
Lemma exec_twice cs counts counts' l :
  (exec cs counts' (exec cs counts l).2).1.1 = (counts'.1, counts'.2 + length cs)%nat
  ∧ (exec cs counts' (exec cs counts l).2).2 = (exec cs counts l).2.
Proof.
  rewrite (exec_pages cs counts l). apply replay; done.
Qed.

Lemma exec_writes_planned cs counts (l : list (page F)) :
  planned <$> (exec cs counts l).1.2
  = (λ c, Some (PNumber (f_round2 (c_hours c)))) <$> cs.
Proof.
  revert counts l. induction cs as [|c cs IH]; intros counts l; [done|].
  cbn [exec]. destruct (upsert_pages c l) as [[r w] l'] eqn:Hu.
  specialize (IH (bump counts r) l').
  destruct (exec cs (bump counts r) l') as [[counts' ws] l''].
  cbn [fst snd fmap list_fmap] in *. rewrite IH. f_equal.
  unfold upsert_pages in Hu.
  destruct (first_match c l); injection Hu as <- <- <-; simpl.
  - apply lookup_singleton_eq.
  - unfold new_allocation. by rewrite 3!lookup_insert_ne, lookup_singleton_eq.
Qed.

End Replay.

(** ** The loop of [run] as a sequence of calls *)

Section Calls.

Context {F : Type} `{PyFloat F}.
Implicit Types (σ : notion F) (c : call F).

Local Open Scope py_scope.

Lemma exec_calls_pure cs counts σ :
  exec_calls cs counts σ =
  (inr (exec cs counts (allocations σ)).1.1,
   {| master := master σ; weeks := weeks σ;
      allocations := (exec cs counts (allocations σ)).2;
      jobs := jobs σ;
      writes := writes σ ++ (exec cs counts (allocations σ)).1.2 |}).
Proof.
  revert counts σ. induction cs as [|c cs IH]; intros counts σ.
  - destruct σ. simpl. unfold ret. by rewrite app_nil_r.
  - unfold exec_calls in *. cbn [for_each exec]. unfold bind at 1 2.
    rewrite upsert_allocation_pages.
    destruct (upsert_pages c (allocations σ)) as [[r w] l'].
    cbn [fst snd ret]. rewrite IH. cbn [allocations writes master weeks jobs].
    destruct (exec cs (bump counts r) l') as [[counts' ws] l''].
    cbn [fst snd]. by rewrite <- app_assoc.
Qed.

(** A loop whose body skips the elements that [g] drops is the loop over
    the elements that [g] keeps. *)
Lemma for_each_omap {A B S} (g : A → option B) (body : S → B → M F S)
    (body' : S → A → M F S) :
  (∀ acc x σ, body' acc x σ = match g x with
                             | Some y => body acc y σ
                             | None => (inr acc, σ)
                             end) →
  ∀ xs acc σ, for_each xs acc body' σ = for_each (omap g xs) acc body σ.
Proof.
  intros Hbody. induction xs as [|x xs IH]; intros acc σ; [done|].
  change (omap g (x :: xs))
    with (match g x with Some y => y :: omap g xs | None => omap g xs end).
  cbn [for_each]. unfold bind at 1. rewrite Hbody.
  destruct (g x) as [y|]; [|apply IH].
  cbn [for_each]. unfold bind at 1.
  destruct (body acc y σ) as [[e|acc'] σ']; [done|apply IH].
Qed.

Lemma for_each_app {A S} (body : S → A → M F S) xs ys acc σ :
  for_each (xs ++ ys) acc body σ
  = bind (for_each xs acc body) (λ acc', for_each ys acc' body) σ.
Proof.
  revert acc σ. induction xs as [|x xs IH]; intros acc σ; [done|].
  cbn [app for_each]. unfold bind at 1 2 3.
  destruct (body acc x σ) as [[e|acc'] σ']; [done|].
  rewrite IH. done.
Qed.

Lemma exec_calls_app cs cs' counts σ :
  exec_calls (cs ++ cs') counts σ =
  match exec_calls cs counts σ with
  | (inr counts', σ') => exec_calls cs' counts' σ'
  | (inl e, σ') => (inl e, σ')
  end.
Proof. unfold exec_calls. by rewrite for_each_app. Qed.

Lemma run_task_calls idx_by_title idx_by_date counts t σ :
  run_task idx_by_title idx_by_date counts t σ =
  match task_calls idx_by_title idx_by_date t with
  | inl err => (inl err, σ)
  | inr cs => exec_calls cs counts σ
  end.
Proof.
  unfold run_task, task_calls, bind, lift.
  destruct (task_start t) as [s|]; [|done].
  destruct (task_due t) as [e|]; [|done]. simpl.
  destruct (task_weeks s e) as [err|weeks]; [done|].
  unfold exec_calls. apply for_each_omap.
  intros [created updated] [i w] σ'. unfold bucket_call. cbn [fst snd].
  destruct (truthy (resolve_week idx_by_title idx_by_date w)); [|done].
  cbn [negb]. unfold bind, call_upsert. cbn [c_task c_name c_week c_label c_hours].
  destruct (upsert_allocation _ _ _ _ _ σ') as [[err|r] σ'']; done.
Qed.

Lemma for_each_tasks idx_by_title idx_by_date ts counts σ :
  for_each ts counts (run_task idx_by_title idx_by_date) σ =
  let '(cs, err) := tasks_calls idx_by_title idx_by_date ts in
  let r := exec_calls cs counts σ in
  (match err with Some e => inl e | None => r.1 end, r.2).
Proof.
  revert counts σ. induction ts as [|t ts IH]; intros counts σ; [done|].
  cbn [for_each tasks_calls]. rewrite bind_eq, run_task_calls.
  destruct (task_calls idx_by_title idx_by_date t) as [err|cs]; [done|].
  destruct (tasks_calls idx_by_title idx_by_date ts) as [cs' err] eqn:Hts.
  rewrite exec_calls_app.
  destruct (exec_calls cs counts σ) as [[e|counts'] σ'] eqn:Hcs.
  { rewrite exec_calls_pure in Hcs. done. }
  rewrite IH. done.
Qed.

Lemma run_tasks_calls idx_by_title idx_by_date σ :
  run_tasks idx_by_title idx_by_date σ =
  let '(cs, err) := tasks_calls idx_by_title idx_by_date (activities σ) in
  let r := exec_calls cs (0, 0)%nat σ in
  (match err with Some e => inl e | None => r.1 end, r.2).
Proof. apply for_each_tasks. Qed.

(** The loop over the tasks, run again on the workspace it left, creates
    nothing and leaves the allocation pages as they are. *)
Theorem run_tasks_idempotent idx_by_title idx_by_date σ σ1 created updated :
  run_tasks idx_by_title idx_by_date σ = (inr (created, updated), σ1) →
  ∃ σ2, run_tasks idx_by_title idx_by_date σ1
        = (inr (0, created + updated)%nat, σ2)
        ∧ allocations σ2 = allocations σ1.
Proof.
  rewrite !run_tasks_calls.
  destruct (tasks_calls idx_by_title idx_by_date (activities σ)) as [cs err] eqn:Hcs.
  rewrite exec_calls_pure. cbn [fst snd].
  destruct err as [e|]; [done|].
  intros [= Hcounts <-]. unfold activities in *. cbn [master].
  rewrite Hcs, exec_calls_pure. cbn [fst snd allocations].
  destruct (exec_twice cs (0, 0)%nat (0, 0)%nat (allocations σ)) as [Hc Hp].
  pose proof (exec_counts cs (0, 0)%nat (allocations σ)) as Hn.
  rewrite Hcounts in Hn. simpl in Hn.
  eexists. split.
  - rewrite Hc. simpl. rewrite <- Hn. reflexivity.
  - exact Hp.
Qed.

Lemma run_tasks_frame idx_by_title idx_by_date σ :
  ∃ σ', run_tasks idx_by_title idx_by_date σ =
        (match (tasks_calls idx_by_title idx_by_date (activities σ)).2 with
         | Some e => inl e
         | None => inr (exec (tasks_calls idx_by_title idx_by_date (activities σ)).1
                             (0, 0)%nat (allocations σ)).1.1
         end, σ')
        ∧ master σ' = master σ ∧ weeks σ' = weeks σ
        ∧ allocations σ'
          = (exec (tasks_calls idx_by_title idx_by_date (activities σ)).1
                  (0, 0)%nat (allocations σ)).2.
Proof.
  rewrite run_tasks_calls.
  destruct (tasks_calls idx_by_title idx_by_date (activities σ)) as [cs err].
  rewrite exec_calls_pure. cbn [fst snd].
  eexists. split; [reflexivity|done].
Qed.

Lemma run_no_job σ :
  head (queued (jobs σ)) = None →
  run false σ = (inr "No job; exiting.", σ).
Proof. intros Hq. unfold run, bind, first_queued_job. by rewrite Hq. Qed.

(** [run], when it does not leave at once: what it returns and the pages
    it leaves. *)
Lemma run_outcome RUN_IF_NO_JOB σ :
  is_Some (head (queued (jobs σ))) ∨ RUN_IF_NO_JOB = true →
  ∃ σ', run RUN_IF_NO_JOB σ =
        (match (run_calls σ).2 with
         | Some e => inl e
         | None => inr (summary (exec (run_calls σ).1 (0, 0)%nat (allocations σ)).1.1)
         end, σ')
        ∧ master σ' = master σ ∧ weeks σ' = weeks σ
        ∧ allocations σ' = (exec (run_calls σ).1 (0, 0)%nat (allocations σ)).2.
Proof.
  intros Hgo. unfold run, run_calls.
  rewrite bind_eq. unfold first_queued_job at 1.
  assert (negb (bool_decide (is_Some (head (queued (jobs σ)))))
          && negb RUN_IF_NO_JOB = false) as ->.
  { destruct Hgo as [Hj| ->]; [|by rewrite andb_false_r].
    by rewrite bool_decide_eq_true_2. }
  rewrite bind_eq.
  set (σa := (match head (queued (jobs σ)) with
              | Some j => set_job_status (job_id j) "Running" None
              | None => ret tt
              end σ).2).
  assert (match head (queued (jobs σ)) with
          | Some j => set_job_status (job_id j) "Running" None
          | None => ret tt
          end σ = (inr tt, σa)) as ->
    by (subst σa; by destruct (head (queued (jobs σ)))).
  assert (master σa = master σ ∧ weeks σa = weeks σ
          ∧ allocations σa = allocations σ) as (Hm & Hw & Ha)
    by (subst σa; by destruct (head (queued (jobs σ)))).
  clearbody σa.
  rewrite bind_eq.
  change (fetch_weeks_index σa) with (@inr exn _ (index_weeks (weeks σa)), σa).
  rewrite Hw. rewrite bind_eq. cbn [fst snd].
  destruct (run_tasks_frame (index_weeks (weeks σ)).1 (index_weeks (weeks σ)).2 σa)
    as (σb & -> & Hm' & Hw' & Ha').
  unfold activities in *. rewrite Hm, Ha in *.
  destruct (tasks_calls _ _ _) as [cs [e|]]; cbn [fst snd] in *.
  { eexists. split; [reflexivity|]. by rewrite Hm', Hw', Ha'. }
  rewrite bind_eq.
  destruct (head (queued (jobs σ))) as [j|].
  - eexists. split; [reflexivity|].
    cbn [master weeks allocations]. by rewrite Hm', Hw', Ha'.
  - eexists. split; [reflexivity|]. by rewrite Hm', Hw', Ha'.
Qed.

Lemma run_calls_same σ σ' :
  master σ' = master σ → weeks σ' = weeks σ → run_calls σ' = run_calls σ.
Proof. intros Hm Hw. unfold run_calls, activities. by rewrite Hm, Hw. Qed.

(** A run on the pages that a run has left: when it has a job, or runs
    without one, it makes the same calls, creates nothing and updates one
    page for each call; otherwise it leaves at once. *)
Lemma run_again RUN_IF_NO_JOB σ σ1 :
  run_calls σ1 = run_calls σ →
  allocations σ1 = (exec (run_calls σ).1 (0, 0)%nat (allocations σ)).2 →
  (run_calls σ).2 = None →
  ∃ s2 σ2,
    run RUN_IF_NO_JOB σ1 = (inr s2, σ2)
    ∧ allocations σ2 = allocations σ1
    ∧ (is_Some (head (queued (jobs σ1))) ∨ RUN_IF_NO_JOB = true →
       s2 = summary (0%nat, length (run_calls σ).1))
    ∧ (¬ (is_Some (head (queued (jobs σ1))) ∨ RUN_IF_NO_JOB = true) →
       s2 = "No job; exiting." ∧ σ2 = σ1).
Proof.
  intros Hcalls Ha Herr.
  destruct (decide (is_Some (head (queued (jobs σ1))) ∨ RUN_IF_NO_JOB = true))
    as [Hgo|Hstay].
  - destruct (run_outcome RUN_IF_NO_JOB σ1 Hgo) as (σ2 & Hr & _ & _ & Ha2).
    rewrite Hcalls, Herr, Ha in Hr. rewrite Hcalls, Ha in Ha2.
    destruct (exec_twice (run_calls σ).1 (0, 0)%nat (0, 0)%nat (allocations σ))
      as [Hc Hp].
    rewrite Hc in Hr. rewrite Hp in Ha2.
    exists (summary (0, 0 + length (run_calls σ).1)%nat), σ2.
    split_and!; [done|by rewrite Ha|done|done].
  - assert (head (queued (jobs σ1)) = None) as Hj.
    { destruct (head (queued (jobs σ1))); [|done]. exfalso. apply Hstay. left. eauto. }
    assert (RUN_IF_NO_JOB = false) as ->
      by (destruct RUN_IF_NO_JOB; [exfalso; apply Hstay; by right|done]).
    exists "No job; exiting.", σ1. rewrite (run_no_job σ1 Hj).
    split_and!; [done..| |done]. intros Hgo. by destruct Hstay.
Qed.

End Calls.

(** ** Idempotence *)

Section Idempotence.

Context {F : Type} `{PyFloat F}.
Implicit Types (σ : notion F).

(** C4. After a run that returns, a second run on the workspace it left
    returns too and leaves every allocation page as the first run left it:
    no new page, and the same planned hours.  When the second run has a
    queued job, or RUN_IF_NO_JOB is set, it does the reconciliation again:
    the first run has reported counts, and the second reports zero pages
    created and one page updated for each page that the first created or
    updated.  Otherwise, with no job queued and RUN_IF_NO_JOB not set, it
    leaves at once and writes nothing. *)
Theorem run_idempotent RUN_IF_NO_JOB σ s1 σ1 :
  run RUN_IF_NO_JOB σ = (inr s1, σ1) →
  ∃ s2 σ2,
    run RUN_IF_NO_JOB σ1 = (inr s2, σ2)
    ∧ allocations σ2 = allocations σ1
    ∧ (is_Some (head (queued (jobs σ1))) ∨ RUN_IF_NO_JOB = true →
       ∃ created updated,
         s1 = summary (created, updated)
         ∧ s2 = summary (0%nat, (created + updated)%nat))
    ∧ (¬ (is_Some (head (queued (jobs σ1))) ∨ RUN_IF_NO_JOB = true) →
       s2 = "No job; exiting." ∧ σ2 = σ1).
Proof.
  intros Hrun.
  destruct (decide (is_Some (head (queued (jobs σ))) ∨ RUN_IF_NO_JOB = true))
    as [Hgo|Hstay].
  - destruct (run_outcome RUN_IF_NO_JOB σ Hgo) as (σ' & Hr & Hm & Hw & Ha).
    rewrite Hr in Hrun.
    destruct (run_calls σ).2 as [e|] eqn:Herr; [done|].
    apply pair_equal_spec in Hrun as [Hs1 <-]. injection Hs1 as <-.
    destruct (run_again RUN_IF_NO_JOB σ σ') as (s2 & σ2 & Hr2 & Ha2 & Hgo2 & Hstay2);
      [by apply run_calls_same|done..|].
    exists s2, σ2. split_and!; [done..| |done].
    intros Hgo'. specialize (Hgo2 Hgo') as ->.
    pose proof (exec_counts (run_calls σ).1 (0, 0)%nat (allocations σ)) as Hn.
    destruct (exec (run_calls σ).1 (0, 0)%nat (allocations σ)).1.1
      as [created updated] eqn:Hcu.
    exists created, updated. split; [done|].
    cbn [fst snd] in Hn. f_equal. f_equal. lia.
  - assert (head (queued (jobs σ)) = None) as Hj.
    { destruct (head (queued (jobs σ))); [|done]. exfalso. apply Hstay. left. eauto. }
    assert (RUN_IF_NO_JOB = false) as ->
      by (destruct RUN_IF_NO_JOB; [exfalso; apply Hstay; by right|done]).
    rewrite (run_no_job σ Hj) in Hrun.
    apply pair_equal_spec in Hrun as [_ <-].
    exists "No job; exiting.", σ. rewrite (run_no_job σ Hj).
    split_and!; [done..| |done]. intros Hgo. by destruct Hstay.
Qed.

End Idempotence.

(** ** The Monday buckets *)

Section Mondays.

Implicit Types (dt cur until start due : datetime).

Lemma instant_shift dt k : instant (shift dt k) = instant dt + k * 86400000000.
Proof. unfold instant, shift. simpl. lia. Qed.

Lemma shift_0 dt : shift dt 0 = dt.
Proof. destruct dt. unfold shift. simpl. f_equal. lia. Qed.

Lemma shift_shift dt a b : shift (shift dt a) b = shift dt (a + b).
Proof. unfold shift. simpl. f_equal. lia. Qed.

Lemma weekday_shift dt (k : Z) : weekday (shift dt (7 * k)) = weekday dt.
Proof.
  unfold weekday, shift. simpl.
  replace (toordinal dt + 7 * k + 6) with (toordinal dt + 6 + k * 7) by lia.
  apply Z.mod_add. lia.
Qed.

Lemma plus_days_shift dt k :
  1 ≤ toordinal dt + k ≤ MAXORD → plus_days dt k = inr (shift dt k).
Proof.
  intros [H1 H2]. unfold plus_days.
  apply Z.leb_le in H1, H2. by rewrite H1, H2.
Qed.

Lemma plus_days_overflow dt k :
  MAXORD < toordinal dt + k → plus_days dt k = inl OverflowError.
Proof.
  intros Hk. unfold plus_days.
  apply Z.leb_gt in Hk. by rewrite Hk, andb_false_r.
Qed.

(** The weekly rule lists the occurrences [cur], [cur] + 7 days, ... that
    are in the calendar and not after [until], and all of them. *)
Lemma rrule_iter_spec fuel : ∀ cur until,
  1 ≤ toordinal cur ≤ MAXORD →
  (MAXORD - toordinal cur) / 7 < Z.of_nat fuel →
  ∃ K : nat,
    rrule_iter fuel cur until
    = (λ k : nat, shift cur (7 * Z.of_nat k)) <$> seq 0 K
    ∧ ∀ k : nat, (k < K)%nat ↔
        toordinal cur + 7 * Z.of_nat k ≤ MAXORD
        ∧ instant (shift cur (7 * Z.of_nat k)) ≤ instant until.
Proof.
  induction fuel as [|fuel IH]; intros cur until Hcur Hfuel.
  { exfalso. assert (0 ≤ (MAXORD - toordinal cur) / 7) by (apply Z.div_pos; lia). lia. }
  cbn [rrule_iter].
  destruct (instant until <? instant cur) eqn:Hlt.
  - apply Z.ltb_lt in Hlt. exists 0%nat. split; [done|].
    intros k. rewrite instant_shift. split; [lia|]. intros [_ Hle]. lia.
  - apply Z.ltb_ge in Hlt.
    destruct (decide (toordinal cur + 7 ≤ MAXORD)) as [Hin|Hout].
    + rewrite plus_days_shift by lia.
      destruct (IH (shift cur 7) until) as (K & HK & Hmem).
      { simpl. lia. }
      { simpl. replace (MAXORD - (toordinal cur + 7))
          with ((MAXORD - toordinal cur) + (-1) * 7) by lia.
        rewrite Z.div_add by lia. lia. }
      exists (S K). split.
      * rewrite HK. cbn [seq fmap list_fmap]. rewrite Z.mul_0_r, shift_0. f_equal.
        rewrite <- fmap_S_seq, <- list_fmap_compose.
        apply list_fmap_ext. intros _ k _. simpl. rewrite shift_shift. f_equal. lia.
      * intros [|k].
        { rewrite Z.mul_0_r, shift_0. split; [lia|]. intros _. lia. }
        specialize (Hmem k). rewrite shift_shift in Hmem. simpl in Hmem.
        replace (7 * Z.of_nat (S k)) with (7 + 7 * Z.of_nat k) by lia.
        rewrite <- Nat.succ_lt_mono, Hmem. split; intros [? ?]; split; lia || done.
    + rewrite plus_days_overflow by lia.
      exists 1%nat. split.
      * cbn [seq fmap list_fmap]. by rewrite Z.mul_0_r, shift_0.
      * intros [|k].
        { rewrite Z.mul_0_r, shift_0. split; [lia|]. intros _. lia. }
        split; [lia|]. intros [? _]. lia.
Qed.

Lemma weekday_range dt : 0 ≤ weekday dt < 7.
Proof. unfold weekday. apply Z.mod_pos_bound. lia. Qed.

Lemma first_monday_range start :
  toordinal start ≤ toordinal (first_monday start) < toordinal start + 7.
Proof.
  unfold first_monday. simpl.
  pose proof (Z.mod_pos_bound (7 - weekday start) 7). lia.
Qed.

Lemma first_monday_weekday start : weekday (first_monday start) = 0.
Proof.
  pose proof (weekday_range start) as Hw.
  unfold first_monday, weekday in *. simpl.
  remember (toordinal start + 6) as a eqn:Ha.
  destruct (decide (a mod 7 = 0)) as [H0|H0].
  - rewrite H0. change ((7 - 0) `mod` 7) with 0.
    replace (toordinal start + 0 + 6) with a by lia. done.
  - rewrite (Z.mod_small (7 - a mod 7) 7) by lia.
    replace (toordinal start + (7 - a mod 7) + 6) with (a - a mod 7 + 1 * 7) by lia.
    rewrite Z.mod_add by lia.
    rewrite (Z.div_mod a 7) at 1 by lia.
    replace (7 * (a / 7) + a mod 7 - a mod 7) with ((a / 7) * 7) by lia.
    apply Z.mod_mul. lia.
Qed.

Lemma first_monday_of_monday start :
  weekday start = 0 → toordinal (first_monday start) = toordinal start.
Proof.
  intros Hw. unfold first_monday. cbn [toordinal]. rewrite Hw.
  change ((7 - 0) `mod` 7) with 0. lia.
Qed.

(** [mondays_between], when the snap stays in the calendar. *)
Lemma mondays_between_rule start due :
  1 ≤ toordinal start → toordinal (first_monday start) ≤ MAXORD →
  mondays_between start due =
  if negb (Bool.eqb (aware start) (aware due)) then inl ValueError
  else inr (rrule_iter
              (Z.to_nat ((MAXORD - toordinal (first_monday start)) / 7 + 1))
              (first_monday start) due).
Proof.
  intros Hlo Hhi. unfold mondays_between.
  pose proof (weekday_range start) as Hw.
  pose proof (first_monday_weekday start) as Hfm.
  assert (∀ s, toordinal s = toordinal (first_monday start) →
               second_of_day s = second_of_day start →
               utcoffset s = utcoffset start →
               rrule_WEEKLY_MO s due =
               if negb (Bool.eqb (aware start) (aware due)) then inl ValueError
               else inr (rrule_iter
                 (Z.to_nat ((MAXORD - toordinal (first_monday start)) / 7 + 1))
                 (first_monday start) due)) as Hrule.
  { intros s Ho Hs Hu. unfold rrule_WEEKLY_MO.
    replace {| toordinal := toordinal s; second_of_day := second_of_day s;
               microsecond := 0; utcoffset := utcoffset s |}
      with (first_monday start)
      by (unfold first_monday; rewrite Hs, Hu; f_equal; unfold first_monday in Ho;
          simpl in Ho; lia).
    replace (aware (first_monday start)) with (aware start) by done.
    destruct (negb _); [done|].
    rewrite Hfm. change ((7 - 0) `mod` 7) with 0.
    pose proof (first_monday_range start).
    rewrite plus_days_shift by lia. by rewrite shift_0. }
  destruct (weekday start =? 0) eqn:Hw0; cbn [negb].
  - apply Z.eqb_eq in Hw0. apply Hrule; [|done..].
    by rewrite first_monday_of_monday.
  - apply Z.eqb_neq in Hw0.
    assert ((7 - weekday start) mod 7 = 7 - weekday start) as Hmod
      by (apply Z.mod_small; lia).
    assert (toordinal (first_monday start) = toordinal start + (7 - weekday start))
      as Hfo by (unfold first_monday; simpl; by rewrite Hmod).
    rewrite plus_days_shift by lia.
    apply Hrule; [|done..]. simpl. lia.
Qed.

(** The buckets that [mondays_between] yields: the Mondays from the first
    one on or after [start], every seven days, those that are in the
    calendar and not after [due]. *)
Lemma mondays_between_list start due :
  aware start = aware due →
  1 ≤ toordinal start → toordinal (first_monday start) ≤ MAXORD →
  ∃ K : nat,
    mondays_between start due
    = inr ((λ k : nat, shift (first_monday start) (7 * Z.of_nat k)) <$> seq 0 K)
    ∧ ∀ k : nat, (k < K)%nat ↔
        toordinal (first_monday start) + 7 * Z.of_nat k ≤ MAXORD
        ∧ instant (shift (first_monday start) (7 * Z.of_nat k)) ≤ instant due.
Proof.
  intros Haw Hlo Hhi. rewrite mondays_between_rule by done.
  rewrite Haw. replace (Bool.eqb (aware due) (aware due)) with true
    by (by destruct (aware due)).
  cbn [negb].
  pose proof (first_monday_range start).
  destruct (rrule_iter_spec
              (Z.to_nat ((MAXORD - toordinal (first_monday start)) / 7 + 1))
              (first_monday start) due) as (K & HK & Hmem).
  - lia.
  - assert (0 ≤ (MAXORD - toordinal (first_monday start)) / 7)
      by (apply Z.div_pos; lia). lia.
  - exists K. by rewrite HK.
Qed.

(** When [due] is before the first Monday, no bucket. *)
Lemma mondays_between_none start due :
  aware start = aware due →
  1 ≤ toordinal start → toordinal (first_monday start) ≤ MAXORD →
  instant due < instant (first_monday start) →
  mondays_between start due = inr [].
Proof.
  intros Haw Hlo Hhi Hdue.
  destruct (mondays_between_list start due Haw Hlo Hhi) as (K & HK & Hmem).
  destruct K as [|K]; [done|].
  exfalso. specialize (Hmem 0%nat). rewrite Z.mul_0_r, shift_0 in Hmem.
  assert (0 < S K)%nat as HK0 by lia. apply Hmem in HK0. lia.
Qed.

(** C2, amended.  When [due] is not before the first Monday on or after
    [start], the buckets are the Mondays from that one (the date of [start]
    when it is a Monday) on, one every seven days in ascending order, up to
    and including the last one that is not after [due]: the Monday [k]
    weeks later is a bucket if and only if it is not after [due]. *)
Theorem mondays_between_spec start due :
  aware start = aware due →
  1 ≤ toordinal start → toordinal (first_monday start) ≤ MAXORD →
  instant (first_monday start) ≤ instant due →
  weekday (first_monday start) = 0
  ∧ toordinal start ≤ toordinal (first_monday start) < toordinal start + 7
  ∧ ∃ K : nat,
      mondays_between start due
      = inr ((λ k : nat, shift (first_monday start) (7 * Z.of_nat k))
             <$> seq 0 (S K))
      ∧ ∀ k : nat, (k ≤ K)%nat ↔
          toordinal (first_monday start) + 7 * Z.of_nat k ≤ MAXORD
          ∧ instant (shift (first_monday start) (7 * Z.of_nat k)) ≤ instant due.
Proof.
  intros Haw Hlo Hhi Hdue.
  split; [apply first_monday_weekday|]. split; [apply first_monday_range|].
  destruct (mondays_between_list start due Haw Hlo Hhi) as (K & HK & Hmem).
  destruct K as [|K].
  - exfalso. specialize (Hmem 0%nat). rewrite Z.mul_0_r, shift_0 in Hmem.
    assert (0 < 0)%nat; [|lia]. apply Hmem. lia.
  - exists K. split; [done|]. intros k. rewrite <- Hmem. lia.
Qed.

End Mondays.

(** C2, as stated, fails: for a task from Monday 2026-01-05 to Wednesday
    2026-01-21 the buckets stop at Monday 2026-01-19; the first Monday on or
    after the due date, 2026-01-26, is not one of them. *)
Lemma mondays_between_not_past_due :
  let start := midnight 2026 1 5 in
  let due := midnight 2026 1 21 in
  instant (first_monday start) ≤ instant due
  ∧ mondays_between start due
    = inr [midnight 2026 1 5; midnight 2026 1 12; midnight 2026 1 19]
  ∧ spec_mondays start due
    = [midnight 2026 1 5; midnight 2026 1 12; midnight 2026 1 19; midnight 2026 1 26]
  ∧ mondays_between start due ≠ inr (spec_mondays start due).
Proof. vm_compute. split_and!; try done. Qed.

(** ** The split of the estimate *)


(** The hours of the buckets, in any arithmetic, for an estimate above 0:
    the quotient, not rounded, before the last bucket, and in the last the
    estimate less the rounded quotient for each of the others. *)
Lemma split_buckets {F} `{PyFloat F} (est : F) (n : nat) :
  f_gt0 est = true → (1 ≤ n)%nat →
  (∀ i, (i < n - 1)%nat →
        bucket_hours est (Z.of_nat n) i = f_div est (f_of_int (Z.of_nat n)))
  ∧ bucket_hours est (Z.of_nat n) (n - 1)
    = f_sub est (f_mul (f_round2 (f_div est (f_of_int (Z.of_nat n))))
                       (f_of_int (Z.of_nat n - 1))).
Proof.
  intros Hgt Hn. split.
  - intros i Hi. unfold bucket_hours, per_week. rewrite Hgt.
    replace (Z.of_nat i =? Z.of_nat n - 1) with false
      by (symmetry; apply Z.eqb_neq; lia).
    done.
  - unfold bucket_hours, carry, per_week. rewrite Hgt.
    replace (Z.of_nat (n - 1) =? Z.of_nat n - 1) with true
      by (symmetry; apply Z.eqb_eq; lia).
    done.
Qed.

Lemma round_half_even_shift (p : Z) (k : positive) :
  round_half_even p (Z.pow_pos 2 k) = round_half_even_pow2 p k.
Proof.
  unfold round_half_even, round_half_even_pow2.
  change (Z.pow_pos 2 k) with (2 ^ Zpos k).
  rewrite Z.shiftr_div_pow2, Z.land_ones, Z.shiftl_1_l by lia. done.
Qed.

Lemma round2_shift_eq (x : float) : Binary64.round2 x = round2_shift x.
Proof.
  unfold Binary64.round2, round2_shift, Binary64.hundredths.
  destruct (Prim2SF x) as [| | |s m [|p|p]]; try done.
  by rewrite round_half_even_shift.
Qed.


Lemma fmap_seq_snoc {A} (f : nat → A) (n : nat) :
  (1 ≤ n)%nat → f <$> seq 0 n = (f <$> seq 0 (n - 1)) ++ [f (n - 1)%nat].
Proof.
  intros Hn. replace n with (n - 1 + 1)%nat at 1 by lia.
  by rewrite seq_app, fmap_app.
Qed.

Section Sums.

Context {F : Type} `{PyFloat F}.

Lemma iter_add_swap (x : F) (k : nat) (acc : F) :
  Nat.iter k (λ s, f_add s x) (f_add acc x) = f_add (Nat.iter k (λ s, f_add s x) acc) x.
Proof. induction k as [|k IH]; [done|]. rewrite !Nat.iter_succ. by rewrite IH. Qed.

Lemma fold_left_const (x : F) (k a : nat) (acc : F) :
  fold_left f_add ((λ _, x) <$> seq a k) acc = Nat.iter k (λ s, f_add s x) acc.
Proof.
  revert a acc. induction k as [|k IH]; intros a acc; [done|].
  cbn [seq fmap list_fmap fold_left]. rewrite IH. apply iter_add_swap.
Qed.

(** [sum] of a list whose elements are all [x] but the last, [y]. *)
Lemma f_sum_buckets (g : nat → F) (n : nat) (x y : F) :
  (1 ≤ n)%nat → (∀ i, (i < n - 1)%nat → g i = x) → g (n - 1)%nat = y →
  f_sum (g <$> seq 0 n) = sum_of n x y.
Proof.
  intros Hn Hx Hy. unfold f_sum, sum_of.
  rewrite fmap_seq_snoc, fold_left_app by done. cbn [fold_left]. rewrite Hy.
  rewrite (list_fmap_ext g (λ _, x) (seq 0 (n - 1))).
  - by rewrite fold_left_const.
  - intros j i Hi. apply lookup_seq in Hi as [-> Hi]. by apply Hx.
Qed.

(** The sums of the hours of the buckets, in any arithmetic, for an
    estimate above 0: as emitted and as persisted. *)
Lemma split_sums (est : F) (n : nat) :
  f_gt0 est = true → (1 ≤ n)%nat →
  let q := f_div est (f_of_int (Z.of_nat n)) in
  let last := f_sub est (f_mul (f_round2 q) (f_of_int (Z.of_nat n - 1))) in
  f_sum (emitted_hours est n) = sum_of n q last
  ∧ f_sum (f_round2 <$> emitted_hours est n) = sum_of n (f_round2 q) (f_round2 last).
Proof.
  intros Hgt Hn. cbv zeta.
  destruct (split_buckets est n Hgt Hn) as [Hfirst Hlast].
  unfold emitted_hours. split.
  - by apply f_sum_buckets.
  - rewrite <- list_fmap_compose. apply f_sum_buckets; [done| |].
    + intros i Hi. cbn [compose]. by rewrite Hfirst.
    + cbn [compose]. by rewrite Hlast.
Qed.

End Sums.

Lemma split_ok_upto_spec (count : nat) : ∀ (k0 : Z) (nmax : nat),
  split_ok_upto count k0 nmax = true →
  ∀ (k : Z) (n : nat), k0 < k ≤ k0 + Z.of_nat count → (1 ≤ n ≤ nmax)%nat →
    split_ok k n = true.
Proof.
  induction count as [|count IH]; intros k0 nmax Hall k n Hk Hn; [lia|].
  cbn [split_ok_upto] in Hall. apply andb_true_iff in Hall as [Hhere Hrest].
  destruct (decide (k = k0 + 1)) as [->|Hne].
  - rewrite forallb_forall in Hhere. apply Hhere, in_seq. lia.
  - apply (IH (k0 + 1) nmax Hrest); [lia|done].
Qed.

(** What [split_ok] says of the program. *)
Lemma split_ok_program (k : Z) (n : nat) :
  (1 ≤ n)%nat → split_ok k n = true →
  let H := hundredths_of k in
  let share := (H / Binary64.of_Z (Z.of_nat n))%float in
  let slack := (Binary64.of_Z (Z.of_nat n - 1) * 0.005 + 1e-9)%float in
  f_gt0 H = true
  ∧ PrimFloat.leb (PrimFloat.abs (f_sum (f_round2 <$> emitted_hours H n) - H)) 1e-9
    = true
  ∧ PrimFloat.leb (PrimFloat.abs (bucket_hours H (Z.of_nat n) (n - 1) - share)) slack
    = true
  ∧ PrimFloat.leb (PrimFloat.abs (f_sum (emitted_hours H n) - H)) slack = true.
Proof.
  intros Hn Hok. cbv zeta. unfold split_ok in Hok. cbv zeta in Hok.
  apply andb_true_iff in Hok as [Hok Hemitted].
  apply andb_true_iff in Hok as [Hok Hlast].
  apply andb_true_iff in Hok as [Hgt Hpersisted].
  change (@f_gt0 float binary64 (hundredths_of k) = true) in Hgt.
  destruct (split_buckets (hundredths_of k) n Hgt Hn) as [_ Hb].
  destruct (split_sums (hundredths_of k) n Hgt Hn) as [He Hp].
  rewrite He, Hp, Hb. clear He Hp Hb.
  change (@f_round2 float binary64) with Binary64.round2.
  rewrite !round2_shift_eq.
  split_and!; assumption.
Qed.

(** Every estimate of 1 to 10000 hundredths over 1 to 53 buckets, by
    evaluation in double precision. *)
Lemma split_checked : split_ok_upto (Z.to_nat 10000) 0 53 = true.
Proof. vm_compute. reflexivity. Qed.


(** ** Exact arithmetic: the single bucket *)

Section ExactSplit.

Local Open Scope Q_scope.

(** In exact arithmetic: with one bucket, the hours of an estimate that is
    not negative are the estimate itself. *)
Lemma single_bucket_hours_exact (est : Q) :
  0 <= est → bucket_hours est 1 0 == est.
Proof.
  intros Hest. unfold bucket_hours, carry, per_week.
  change (f_gt0 est) with (bool_decide (0 < Qnum est)%Z).
  destruct (bool_decide (0 < Qnum est)%Z) eqn:Hgt.
  - change (est - f_round2 (est / inject_Z 1) * 0 == est). ring.
  - apply bool_decide_eq_false in Hgt.
    unfold Qle in Hest. simpl in Hest.
    change (0 == est). unfold Qeq. simpl. lia.
Qed.

End ExactSplit.

(** ** Double precision: the single bucket *)

Section Digits.

Lemma digits2_pos_size p : digits2_pos p = Pos.size p.
Proof. induction p; simpl; by rewrite ?IHp. Qed.

Lemma Zdigits2_nonneg m : 0 ≤ Zdigits2 m.
Proof. destruct m; simpl; lia. Qed.

Lemma Zdigits2_lt_pow m : 0 ≤ m → m < 2 ^ Zdigits2 m.
Proof.
  destruct m as [|p|p]; intros Hm; simpl Zdigits2; [lia| |lia].
  rewrite digits2_pos_size.
  pose proof (Pos.size_gt p) as Hp.
  apply Pos2Z.pos_lt_pos in Hp. by rewrite Pos2Z.inj_pow in Hp.
Qed.

Lemma Zdigits2_le m k : 0 ≤ m → 0 ≤ k → m < 2 ^ k → Zdigits2 m ≤ k.
Proof.
  destruct m as [|p|p]; intros Hm Hk Hlt; simpl Zdigits2; [lia| |lia].
  rewrite digits2_pos_size.
  destruct (decide (Zpos (Pos.size p) ≤ k)) as [|Hgt]; [done|].
  exfalso.
  pose proof (Pos.size_le p) as Hp.
  apply Pos2Z.pos_le_pos in Hp. rewrite Pos2Z.inj_pow in Hp.
  assert (2 ^ (k + 1) ≤ 2 ^ Zpos (Pos.size p)) by (apply Z.pow_le_mono_r; lia).
  rewrite Z.pow_add_r in * by lia. lia.
Qed.

Lemma shr_1_m mrs : 0 ≤ shr_m mrs → shr_m (shr_1 mrs) = shr_m mrs / 2.
Proof.
  destruct mrs as [m r s]. simpl. intros Hm.
  destruct m as [|[p|p|]|p]; cbn [shr_m]; try lia; try reflexivity.
  - replace (Zpos p~1) with (1 + Zpos p * 2) by lia. rewrite Z.div_add by lia. done.
  - replace (Zpos p~0) with (Zpos p * 2) by lia. by rewrite Z.div_mul by lia.
Qed.

Lemma iter_shr_1_m p : ∀ mrs,
  0 ≤ shr_m mrs → shr_m (SpecFloat.iter_pos shr_1 p mrs) = shr_m mrs / 2 ^ Zpos p.
Proof.
  assert (∀ a, 0 < 2 ^ Zpos a) as Hpow by (intros; apply Z.pow_pos_nonneg; lia).
  induction p as [p IH|p IH|]; intros mrs Hm; simpl SpecFloat.iter_pos.
  - pose proof (shr_1_m mrs Hm) as H1.
    assert (0 ≤ shr_m (shr_1 mrs)) as Hm1 by (rewrite H1; apply Z.div_pos; lia).
    pose proof (IH _ Hm1) as H2.
    assert (0 ≤ shr_m (SpecFloat.iter_pos shr_1 p (shr_1 mrs))) as Hm2
      by (rewrite H2; apply Z.div_pos; [lia|apply Hpow]).
    rewrite (IH _ Hm2), H2, H1.
    rewrite !Z.div_div by (pose proof (Hpow p); lia).
    f_equal. rewrite Pos2Z.inj_xI, Z.pow_add_r, Z.pow_mul_r by lia.
    change (2 ^ 1) with 2. rewrite <- Z.pow_mul_r by lia.
    replace (2 * Zpos p) with (Zpos p + Zpos p) by lia.
    rewrite Z.pow_add_r by lia. lia.
  - pose proof (IH _ Hm) as H1.
    assert (0 ≤ shr_m (SpecFloat.iter_pos shr_1 p mrs)) as Hm1
      by (rewrite H1; apply Z.div_pos; [lia|apply Hpow]).
    rewrite (IH _ Hm1), H1.
    rewrite Z.div_div by (pose proof (Hpow p); lia).
    f_equal. replace (Zpos p~0) with (Zpos p + Zpos p) by lia.
    by rewrite Z.pow_add_r by lia.
  - by apply shr_1_m.
Qed.

Lemma Zdigits2_div_pow m n :
  0 ≤ m → 0 < n → Zdigits2 (m / 2 ^ n) ≤ Z.max 0 (Zdigits2 m - n).
Proof.
  intros Hm Hn.
  pose proof (Zdigits2_lt_pow m Hm) as Hlt.
  pose proof (Zdigits2_nonneg m) as Hd.
  assert (0 < 2 ^ n) as Hpow by (apply Z.pow_pos_nonneg; lia).
  apply Zdigits2_le; [by apply Z.div_pos|lia|].
  destruct (decide (n ≤ Zdigits2 m)) as [Hle|Hgt].
  - rewrite Z.max_r by lia. apply Z.div_lt_upper_bound; [done|].
    rewrite <- Z.pow_add_r by lia. by replace (n + (Zdigits2 m - n)) with (Zdigits2 m) by lia.
  - rewrite Z.max_l by lia. change (2 ^ 0) with 1.
    rewrite Z.div_small; [lia|]. split; [done|].
    eapply Z.lt_le_trans; [exact Hlt|]. apply Z.pow_le_mono_r; lia.
Qed.

Lemma shr_fexp_spec m e l :
  0 ≤ m →
  ∃ mrs' e', shr_fexp prec emax m e l = (mrs', e')
    ∧ 0 ≤ shr_m mrs'
    ∧ ((e' = e ∧ shr_m mrs' = m)
       ∨ (e < e' ∧ e' = fexp prec emax (Zdigits2 m + e)
          ∧ shr_m mrs' = m / 2 ^ (e' - e))).
Proof.
  intros Hm. unfold shr_fexp, shr.
  assert (shr_m (shr_record_of_loc m l) = m) as Hrec by (by destruct l as [|[]]).
  destruct (fexp prec emax (Zdigits2 m + e) - e) as [|n|n] eqn:Hn.
  - do 2 eexists. split; [done|]. rewrite Hrec. auto.
  - do 2 eexists. split; [done|].
    rewrite iter_shr_1_m by (by rewrite Hrec). rewrite Hrec.
    split; [apply Z.div_pos; [done|apply Z.pow_pos_nonneg; lia]|].
    right. split_and!; [lia|lia|]. f_equal. f_equal. lia.
  - do 2 eexists. split; [done|]. rewrite Hrec. auto.
Qed.

Lemma round_nearest_even_range m l :
  0 ≤ m → m ≤ round_nearest_even m l ≤ m + 1.
Proof.
  intros Hm. unfold round_nearest_even.
  destruct l as [|[]]; try lia. destruct (Z.even m); lia.
Qed.

(** Rounding to double precision stays finite when the exponent and the
    magnitude leave room. *)
Lemma binary_round_aux_finite s m e l :
  0 ≤ m → e ≤ 971 → Zdigits2 m + e ≤ 1023 →
  SFfinite (binary_round_aux prec emax s m e l).
Proof.
  intros Hm He Hd. unfold binary_round_aux.
  assert (∀ D, D ≤ 1024 → fexp prec emax D ≤ 971) as Hfexp
    by (intros D HD; unfold fexp, emin, prec, emax; lia).
  destruct (shr_fexp_spec m e l Hm) as (mrs1 & e1 & -> & Hm1 & Hcase1).
  assert (e1 ≤ 971 ∧ Zdigits2 (shr_m mrs1) + e1 ≤ 1023) as [He1 Hd1].
  { destruct Hcase1 as [[-> ->]|(Hlt & He1 & ->)]; [done|].
    pose proof (Hfexp (Zdigits2 m + e)) as Hf. rewrite <- He1 in Hf.
    pose proof (Zdigits2_div_pow m (e1 - e) Hm) as Hdiv. lia. }
  set (m2 := round_nearest_even (shr_m mrs1) (loc_of_shr_record mrs1)).
  pose proof (round_nearest_even_range (shr_m mrs1) (loc_of_shr_record mrs1) Hm1) as Hr.
  fold m2 in Hr.
  assert (Zdigits2 m2 ≤ Zdigits2 (shr_m mrs1) + 1) as Hd2.
  { pose proof (Zdigits2_nonneg (shr_m mrs1)).
    apply Zdigits2_le; [lia..|].
    pose proof (Zdigits2_lt_pow _ Hm1). rewrite Z.pow_add_r by lia. lia. }
  destruct (shr_fexp_spec m2 e1 loc_Exact) as (mrs2 & e2 & -> & Hm2 & Hcase2); [lia|].
  assert (e2 ≤ 971) as He2.
  { destruct Hcase2 as [[-> _]|(_ & -> & _)]; [done|]. apply Hfexp. lia. }
  destruct (shr_m mrs2) as [|p|p]; [done| |lia].
  replace (e2 <=? emax - prec) with true; [done|].
  symmetry. apply Z.leb_le. unfold emax, prec. lia.
Qed.

End Digits.

Section Binary64Facts.

Lemma bounded_inv mx ex :
  bounded prec emax mx ex = true →
  Zpos (digits2_pos mx) ≤ 53 ∧ ex ≤ 971.
Proof.
  unfold bounded, canonical_mantissa, fexp, emin, prec, emax.
  intros [Hc He]%andb_prop. apply Z.eqb_eq in Hc. apply Z.leb_le in He. lia.
Qed.

(** A quotient of doubles is finite when the divisor is a normal number and
    the magnitudes leave room. *)
Lemma SFdiv_finite sx mx ex my ey :
  bounded prec emax mx ex = true →
  Zpos (digits2_pos my) = 53 →
  Zpos (digits2_pos mx) + ex - ey - 52 ≤ 1023 →
  SFfinite (SFdiv prec emax (S754_finite sx mx ex) (S754_finite false my ey)).
Proof.
  intros [Hd1 Hex]%bounded_inv Hd2 Hroom.
  unfold SFdiv, SFdiv_core_binary. cbn [Zdigits2]. rewrite Hd2.
  set (d1 := Zpos (digits2_pos mx)) in *.
  set (e' := Z.min (fexp prec emax (d1 + ex - (53 + ey))) (ex - ey)).
  assert (e' ≤ 971) as He' by (subst e'; unfold fexp, emin, prec, emax; lia).
  assert (0 ≤ ex - ey - e') as Hs by (subst e'; lia).
  set (m' := match ex - ey - e' with
             | 0 => Zpos mx
             | Zpos _ => Z.shiftl (Zpos mx) (ex - ey - e')
             | Zneg _ => 0
             end).
  assert (m' = Zpos mx * 2 ^ (ex - ey - e')) as Hm'.
  { subst m'. destruct (ex - ey - e') as [|s|s] eqn:Hse; [|by rewrite Z.shiftl_mul_pow2|lia].
    change (2 ^ 0) with 1. lia. }
  clearbody m'.
  assert (2 ^ 52 ≤ Zpos my) as Hmy.
  { destruct (decide (2 ^ 52 ≤ Zpos my)) as [|Hlt]; [done|]. exfalso.
    assert (Zdigits2 (Zpos my) ≤ 52) by (apply Zdigits2_le; lia).
    simpl Zdigits2 in *. lia. }
  assert (Zpos mx < 2 ^ d1) as Hmx by (apply (Zdigits2_lt_pow (Zpos mx)); lia).
  assert (0 < 2 ^ (ex - ey - e')) as Hpow by (apply Z.pow_pos_nonneg; lia).
  assert (0 ≤ m' < 2 ^ (d1 + (ex - ey - e'))) as [Hm0 Hmlt].
  { rewrite Hm', Z.pow_add_r by lia. split; [lia|]. apply Z.mul_lt_mono_pos_r; lia. }
  destruct (Z.div_eucl m' (Zpos my)) as [q r] eqn:Hqr.
  assert (q = m' / Zpos my) as Hq by (unfold Z.div; by rewrite Hqr).
  assert (0 ≤ q) as Hq0 by (rewrite Hq; apply Z.div_pos; lia).
  assert (q ≤ m' / 2 ^ 52) as Hq52
    by (rewrite Hq; apply Z.div_le_compat_l; [lia|split; [lia|exact Hmy]]).
  assert (Zdigits2 q ≤ Z.max 0 (d1 + (ex - ey - e') - 52)) as Hdq.
  { apply Zdigits2_le; [lia..|].
    eapply Z.le_lt_trans; [exact Hq52|].
    destruct (decide (52 ≤ d1 + (ex - ey - e'))) as [Hle|Hgt].
    - rewrite Z.max_r by lia. apply Z.div_lt_upper_bound; [lia|].
      rewrite <- Z.pow_add_r by lia.
      by replace (52 + (d1 + (ex - ey - e') - 52)) with (d1 + (ex - ey - e')) by lia.
    - rewrite Z.max_l by lia. change (2 ^ 0) with 1.
      rewrite Z.div_small; [lia|]. split; [done|].
      eapply Z.lt_le_trans; [exact Hmlt|]. apply Z.pow_le_mono_r; lia. }
  apply binary_round_aux_finite; lia.
Qed.

Lemma SFopp_finite x : SFfinite x → SFfinite (SFopp x).
Proof. by destruct x. Qed.

Lemma of_uint63_finite n : SFfinite (Prim2SF (of_uint63 n)).
Proof.
  rewrite of_uint63_spec.
  pose proof (Uint63.to_Z_bounded n) as [Hn0 Hn].
  destruct (Uint63.to_Z n) as [|mk|mk] eqn:Hk; [done| |lia].
  unfold binary_normalize, binary_round, shl_align.
  assert (Zpos (digits2_pos mk) ≤ 63) as Hd.
  { apply (Zdigits2_le (Zpos mk)); [lia..|]. exact Hn. }
  destruct (fexp prec emax (Zpos (digits2_pos mk) + 0) - 0) as [|d|d] eqn:Hf.
  - apply binary_round_aux_finite; cbn [Zdigits2]; lia.
  - apply binary_round_aux_finite; cbn [Zdigits2]; lia.
  - cbn [fst snd].
    assert (fexp prec emax (Zpos (digits2_pos mk) + 0) = Zneg d) as -> by lia.
    pose proof (Zpower.shift_pos_correct d mk) as Hshift.
    unfold Zpower.shift_pos in Hshift. rewrite Z.pow_pos_fold in Hshift.
    assert (0 < 2 ^ Zpos d) by (apply Z.pow_pos_nonneg; lia).
    apply binary_round_aux_finite; [lia..|].
    assert (Zdigits2 (Zpos (Pos.iter xO mk d)) ≤ Zpos d + Zpos (digits2_pos mk)); [|lia].
    apply Zdigits2_le; [lia..|]. rewrite Hshift, Z.pow_add_r by lia.
    apply Z.mul_lt_mono_pos_l; [lia|].
    apply (Zdigits2_lt_pow (Zpos mk)). lia.
Qed.

Lemma of_Z_finite z : SFfinite (Prim2SF (Binary64.of_Z z)).
Proof.
  destruct z; unfold Binary64.of_Z.
  - done.
  - apply of_uint63_finite.
  - rewrite FloatAxioms.opp_spec. apply SFopp_finite, of_uint63_finite.
Qed.

Lemma round2_finite x :
  SFfinite (Prim2SF x) → SFfinite (Prim2SF (Binary64.round2 x)).
Proof.
  intros Hx. unfold Binary64.round2.
  destruct (Prim2SF x) as [s|s| |s m e] eqn:Hsf; try (by rewrite Hsf).
  destruct (PrimFloat.ltb _ _); [|by rewrite Hsf].
  assert (SFfinite (Prim2SF (Binary64.of_Z (Binary64.hundredths m e) / 100)%float))
    as Hq.
  { rewrite FloatAxioms.div_spec. unfold SF64div.
    pose proof (of_Z_finite (Binary64.hundredths m e)) as Hfin.
    pose proof (Prim2SF_valid (Binary64.of_Z (Binary64.hundredths m e))) as Hval.
    change (Prim2SF 100%float) with (S754_finite false 7036874417766400 (-46)).
    destruct (Prim2SF (Binary64.of_Z (Binary64.hundredths m e)))
      as [sa|sa| |sa ma ea]; try done.
    apply SFdiv_finite; [done|done|].
    apply bounded_inv in Hval. lia. }
  destruct s; [|done]. rewrite FloatAxioms.opp_spec. by apply SFopp_finite.
Qed.

Lemma div_one_finite (x : float) m e :
  Prim2SF x = S754_finite false m e → e ≤ 970 →
  SFfinite (Prim2SF (x / Binary64.of_Z 1)%float).
Proof.
  intros Hx He. rewrite FloatAxioms.div_spec. unfold SF64div. rewrite Hx.
  change (Prim2SF (Binary64.of_Z 1)) with (S754_finite false 4503599627370496 (-52)).
  pose proof (Prim2SF_valid x) as Hval. rewrite Hx in Hval.
  apply SFdiv_finite; [done|done|].
  apply bounded_inv in Hval. lia.
Qed.

(** In double precision: with one bucket, the carry of an estimate that is
    positive and below 2^1023 is the estimate itself. *)
Lemma single_bucket_hours_binary64 (est : float) :
  (0 <? est)%float = true → (est <? 0x1p+1023)%float = true →
  bucket_hours est 1 0 = est.
Proof.
  intros Hpos Hbig.
  unfold bucket_hours, carry, per_week.
  change (f_gt0 est) with (0 <? est)%float. rewrite Hpos.
  change (Z.of_nat 0 =? 1 - 1) with true. cbn [andb].
  change (f_of_int (1 - 1)) with 0%float. change (f_of_int 1) with (Binary64.of_Z 1).
  change (f_sub ?a ?b) with (a - b)%float. change (f_mul ?a ?b) with (a * b)%float.
  change (f_div ?a ?b) with (a / b)%float. change (f_round2 ?a) with (Binary64.round2 a).
  rewrite FloatAxioms.ltb_spec in Hpos, Hbig.
  change (Prim2SF 0%float) with (S754_zero false) in Hpos.
  change (Prim2SF 0x1p+1023%float) with (S754_finite false 4503599627370496 971) in Hbig.
  destruct (Prim2SF est) as [s|s| |s m e] eqn:Hx; try discriminate.
  { destruct s; discriminate. }
  destruct s; [discriminate|]. clear Hpos.
  assert (e ≤ 970) as He.
  { pose proof (Prim2SF_valid est) as Hval. rewrite Hx in Hval.
    unfold SFltb, SFcompare in Hbig.
    destruct (Z.compare_spec e 971) as [->|Hlt|Hgt]; [|lia|discriminate Hbig].
    exfalso. cbn [valid_binary] in Hval. unfold bounded, canonical_mantissa in Hval.
    apply andb_prop in Hval as [Hc _]. apply Z.eqb_eq in Hc.
    unfold fexp, emin, prec, emax in Hc.
    assert (Zpos (digits2_pos m) = 53) as Hd by lia.
    assert (2 ^ 52 ≤ Zpos m) as Hm.
    { destruct (decide (2 ^ 52 ≤ Zpos m)) as [|Hlt]; [done|]. exfalso.
      assert (Zdigits2 (Zpos m) ≤ 52) by (apply Zdigits2_le; lia).
      cbn [Zdigits2] in *. lia. }
    destruct (Pos.compare_cont Eq m 4503599627370496%positive) eqn:Hcmp;
      [discriminate Hbig| |discriminate Hbig].
    apply (Pos.compare_lt_iff m 4503599627370496%positive) in Hcmp.
    apply Pos2Z.pos_lt_pos in Hcmp. lia. }
  pose proof (round2_finite _ (div_one_finite est m e Hx He)) as Hr.
  apply Prim2SF_inj.
  rewrite FloatAxioms.sub_spec, FloatAxioms.mul_spec. unfold SF64sub, SF64mul.
  change (Prim2SF 0%float) with (S754_zero false). rewrite Hx.
  destruct (Prim2SF (Binary64.round2 (est / Binary64.of_Z 1))) as [sr|sr| |sr mr er];
    try (by destruct Hr); reflexivity.
Qed.

End Binary64Facts.

(** In double precision, on numbers: zero hours stay zero, are persisted as
    zero, and the single bucket of the fallback carries the estimate. *)
Example single_bucket_binary64 :
  bucket_hours 0%float 1 0 = 0%float
  ∧ f_round2 0%float = 0%float
  ∧ bucket_hours 7.5%float 1 0 = 7.5%float.
Proof. vm_compute. done. Qed.

(** C7. A task whose span yields no Monday gets one bucket, its start
    itself, so [n] is 1 and [run] makes at most the one call of that bucket.
    The hours of the bucket are the whole estimate: in exact arithmetic for
    every estimate that is not negative, and in double precision for every
    estimate above 0 and below 2^1023, and for 0. *)
Theorem single_bucket_fallback (start due : datetime) :
  mondays_between start due = inr [] →
  task_weeks start due = inr [start]
  ∧ (∀ F (PF : PyFloat F) idx_by_title idx_by_date (t : task_page F),
       task_start t = Some start → task_due t = Some due →
       task_calls idx_by_title idx_by_date t
       = inr (omap (bucket_call idx_by_title idx_by_date t 1) [(0%nat, start)]))
  ∧ (∀ est : Q, (0 <= est)%Q → (bucket_hours est 1 0 == est)%Q)
  ∧ (∀ est : float,
       (0 <? est)%float = true → (est <? 0x1p+1023)%float = true →
       bucket_hours est 1 0 = est)
  ∧ bucket_hours 0%float 1 0 = 0%float.
Proof.
  intros Hnone.
  assert (task_weeks start due = inr [start]) as Hweeks
    by (unfold task_weeks; by rewrite Hnone).
  split_and!; [done| | | |reflexivity].
  - intros F PF idx_by_title idx_by_date t Hs He.
    unfold task_calls. by rewrite Hs, He, Hweeks.
  - apply single_bucket_hours_exact.
  - apply single_bucket_hours_binary64.
Qed.

(** ** Tasks without an estimate *)

Section ZeroEstimate.

Context {F : Type} `{PyFloat F}.
Implicit Types (σ : notion F) (c : call F).

Lemma bucket_hours_zero (est : F) n i :
  f_gt0 est = false → bucket_hours est n i = f_zero.
Proof.
  intros Hest. unfold bucket_hours, per_week.
  by rewrite Hest, andb_false_r.
Qed.

Lemma bucket_calls_zero idx_by_title idx_by_date (t : task_page F) n ws :
  f_gt0 (default f_zero (task_number t)) = false →
  c_hours <$> omap (bucket_call idx_by_title idx_by_date t n) (imap pair ws)
  = replicate (length (resolvable idx_by_title idx_by_date ws)) f_zero.
Proof.
  intros Hest. unfold resolvable.
  enough (∀ g : nat → nat,
    c_hours <$> omap (bucket_call idx_by_title idx_by_date t n)
                     (imap (λ i w, (g i, w)) ws)
    = replicate (length (filter (λ w, truthy (resolve_week idx_by_title idx_by_date w)) ws))
                f_zero) as Hg by exact (Hg id).
  induction ws as [|w ws IH]; intros g; [done|].
  cbn [imap]. rewrite filter_cons.
  change (omap ?f (?x :: ?xs))
    with (match f x with Some y => y :: omap f xs | None => omap f xs end).
  unfold bucket_call at 1. cbv zeta. cbn [fst snd].
  destruct (truthy (resolve_week idx_by_title idx_by_date w)) eqn:Hw.
  - rewrite decide_True by done. cbn [fmap list_fmap length replicate c_hours].
    rewrite bucket_hours_zero by done. f_equal. exact (IH (g ∘ S)).
  - rewrite decide_False by (by intros []). exact (IH (g ∘ S)).
Qed.

(** C8. For a task whose estimate is not greater than 0, absent included,
    every bucket has 0.0 hours, and the task makes one write, a create or
    an update with the planned hours [round(0.0, 2)], for each bucket that
    resolves to a week, and counts each of them. *)
Theorem zero_estimate idx_by_title idx_by_date counts (t : task_page F) σ s e ws :
  task_start t = Some s → task_due t = Some e →
  task_weeks s e = inr ws →
  f_gt0 (default f_zero (task_number t)) = false →
  (∀ n i, bucket_hours (default f_zero (task_number t)) n i = f_zero)
  ∧ ∃ counts' σ' written,
      run_task idx_by_title idx_by_date counts t σ = (inr counts', σ')
      ∧ writes σ' = writes σ ++ written
      ∧ planned <$> written
        = replicate (length (resolvable idx_by_title idx_by_date ws))
                    (Some (PNumber (f_round2 f_zero)))
      ∧ (counts'.1 + counts'.2
         = counts.1 + counts.2
           + length (resolvable idx_by_title idx_by_date ws))%nat.
Proof.
  intros Hs He Hws Hest.
  split; [intros n i; by apply bucket_hours_zero|].
  rewrite run_task_calls. unfold task_calls. rewrite Hs, He, Hws.
  set (cs := omap _ _).
  assert (c_hours <$> cs
          = replicate (length (resolvable idx_by_title idx_by_date ws)) f_zero)
    as Hcs by (by apply bucket_calls_zero).
  rewrite exec_calls_pure.
  do 3 eexists. split; [reflexivity|]. cbn [writes]. split; [reflexivity|].
  split.
  - rewrite exec_writes_planned.
    etrans; [exact (list_fmap_compose c_hours (λ x, Some (PNumber (f_round2 x))) _)|].
    by rewrite Hcs, fmap_replicate.
  - rewrite exec_counts. f_equal.
    rewrite <- (length_fmap c_hours), Hcs. apply length_replicate.
Qed.

End ZeroEstimate.

(** ** The week of a bucket *)

(** The date index is read only when it has the key "Week Start". *)
Lemma resolve_week_label_only (idx_by_title idx_by_date : gmap string string) w :
  idx_by_date !! P_WEEK_START = None →
  resolve_week idx_by_title idx_by_date w = idx_by_title !! iso_week_label w.
Proof.
  intros Hkey. unfold resolve_week.
  rewrite bool_decide_eq_false_2, andb_false_r; [done|].
  by apply not_elem_of_dom.
Qed.

(** A bucket that misses both indexes is skipped. *)
Lemma resolve_week_both_miss (idx_by_title idx_by_date : gmap string string) w :
  truthy (idx_by_title !! iso_week_label w) = false →
  truthy (idx_by_date !! date_isoformat w) = false →
  truthy (resolve_week idx_by_title idx_by_date w) = false.
Proof.
  intros Ht Hd. unfold resolve_week. rewrite Ht. cbn [negb andb].
  by destruct (bool_decide _).
Qed.

(** C3, on the code.  With week pages that carry their Week Start and no
    title, the Monday 2026-01-05 misses the label index and is in the date
    index, yet it resolves to no week: the run skips every bucket and ends
    with nothing written. *)
Theorem date_index_not_consulted :
  let idx := index_weeks Scenario.untitled_weeks in
  let w := midnight 2026 1 5 in
  idx.1 !! iso_week_label w = None
  ∧ idx.2 !! date_isoformat w = Some "w02"
  ∧ resolve_week idx.1 idx.2 w = None
  ∧ (run false (Scenario.untitled_workspace (Some 10%float))).1
    = inr "Done (+0, ✎0)"
  ∧ allocations (run false (Scenario.untitled_workspace (Some 10%float))).2 = [].
Proof. vm_compute. done. Qed.

(** ** The scenario *)

(** C5. The task from Monday 2026-01-05 to 2026-01-19 with 10 hours has
    the buckets 2026-01-05, 2026-01-12 and 2026-01-19, labelled 2026-[W]02,
    2026-[W]03 and 2026-[W]04; the hours persisted are 3.33, 3.33 and 3.34,
    of sum 10, in double precision and in exact arithmetic; and the run
    creates the three allocation pages. *)
Theorem concrete_scenario :
  let buckets := [midnight 2026 1 5; midnight 2026 1 12; midnight 2026 1 19] in
  weekday (midnight 2026 1 5) = 0
  ∧ task_weeks (midnight 2026 1 5) (midnight 2026 1 19) = inr buckets
  ∧ date_isoformat <$> buckets = ["2026-01-05"; "2026-01-12"; "2026-01-19"]
  ∧ iso_week_label <$> buckets = ["2026-[W]02"; "2026-[W]03"; "2026-[W]04"]
  ∧ f_round2 <$> emitted_hours 10%float 3 = [3.33; 3.33; 3.34]%float
  ∧ f_sum (f_round2 <$> emitted_hours 10%float 3) = 10%float
  ∧ f_round2 <$> emitted_hours 10%Q 3 = [3.33; 3.33; 3.34]%Q
  ∧ (f_sum (f_round2 <$> emitted_hours 10%Q 3) == 10)%Q
  ∧ (run false (Scenario.workspace (Some 10%float))).1 = inr "Done (+3, ✎0)"
  ∧ Scenario.shown <$> allocations (run false (Scenario.workspace (Some 10%float))).2
    = [ (Some (PTitle "Report · 2026-[W]02"), Some (PRelation ["t1"]),
         Some (PRelation ["w02"]), Some (PNumber 3.33%float));
        (Some (PTitle "Report · 2026-[W]03"), Some (PRelation ["t1"]),
         Some (PRelation ["w03"]), Some (PNumber 3.33%float));
        (Some (PTitle "Report · 2026-[W]04"), Some (PRelation ["t1"]),
         Some (PRelation ["w04"]), Some (PNumber 3.34%float)) ].
Proof. vm_compute. split_and!; done. Qed.

(** ** The theorems at an input *)

(** C4 on the scenario with RUN_IF_NO_JOB: the first run creates the three
    pages and sets the job to Done; the second run does the reconciliation
    again, creates nothing and updates the three pages with the same
    hours. *)
Lemma run_idempotent_witness :
  let σ := Scenario.workspace (Some 10%float) in
  run true σ = (inr "Done (+3, ✎0)", (run true σ).2)
  ∧ run true (run true σ).2
    = (inr "Done (+0, ✎3)", (run true (run true σ).2).2)
  ∧ planned <$> drop 5 (writes (run true (run true σ).2).2)
    = [Some (PNumber 3.33%float); Some (PNumber 3.33%float);
       Some (PNumber 3.34%float)]
  ∧ ∃ s2 σ2,
      run true (run true σ).2 = (inr s2, σ2)
      ∧ allocations σ2 = allocations (run true σ).2
      ∧ (is_Some (head (queued (jobs (run true σ).2))) ∨ true = true →
         ∃ created updated,
           "Done (+3, ✎0)" = summary (created, updated)
           ∧ s2 = summary (0%nat, (created + updated)%nat))
      ∧ (¬ (is_Some (head (queued (jobs (run true σ).2))) ∨ true = true) →
         s2 = "No job; exiting." ∧ σ2 = (run true σ).2).
Proof.
  cbv zeta. split; [vm_compute; reflexivity|].
  split; [vm_compute; reflexivity|].
  split; [vm_compute; reflexivity|].
  apply (run_idempotent true (Scenario.workspace (Some 10%float)) "Done (+3, ✎0)").
  vm_compute; reflexivity.
Defined.

(** C9 on a database with two pages for the task and the week. *)
Lemma upsert_allocation_update_frame_witness :
  matching "t1" "w02" (allocations (Scenario.duplicated 1%float 2%float))
  = [(0%nat, Scenario.duplicate 1%float); (1%nat, Scenario.duplicate 2%float)]
  ∧ ∃ σ' p',
      upsert_allocation "t1" "Report" "w02" "2026-[W]02" 3.333%float
        (Scenario.duplicated 1%float 2%float)
      = (inr Updated, σ')
      ∧ writes σ'
        = [WUpdate 0 {[ P_PLANNED := PNumber (f_round2 3.333%float) ]}]
      ∧ allocations (Scenario.duplicated 1%float 2%float) !! 0%nat
        = Some (Scenario.duplicate 1%float)
      ∧ allocations σ' !! 0%nat = Some p'
      ∧ p' !! P_PLANNED = Some (PNumber (f_round2 3.333%float))
      ∧ (∀ name, name ≠ P_PLANNED → p' !! name = Scenario.duplicate 1%float !! name)
      ∧ (∀ j, j ≠ 0%nat → allocations σ' !! j
                          = allocations (Scenario.duplicated 1%float 2%float) !! j)
      ∧ length (allocations σ') = 2%nat.
Proof.
  split; [vm_compute; reflexivity|].
  apply (upsert_allocation_update_frame "t1" "Report" "w02" "2026-[W]02" 3.333%float
           (Scenario.duplicated 1%float 2%float) 0%nat (Scenario.duplicate 1%float)
           [(1%nat, Scenario.duplicate 2%float)]).
  vm_compute; reflexivity.
Defined.


(** C10 on a database with two pages for the task and the week. *)
Lemma upsert_allocation_duplicates_witness :
  matching "t1" "w02" (allocations (Scenario.duplicated 1%float 2%float))
  = [(0%nat, Scenario.duplicate 1%float); (1%nat, Scenario.duplicate 2%float)]
  ∧ let σ' := (upsert_allocation "t1" "Report" "w02" "2026-[W]02" 3.333%float
                 (Scenario.duplicated 1%float 2%float)).2 in
    ¬ at_most_one (allocations σ')
    ∧ allocations σ' !! 1%nat = Some (Scenario.duplicate 2%float)
    ∧ length (allocations σ') = 2%nat.
Proof.
  split; [vm_compute; reflexivity|].
  destruct (upsert_allocation_duplicates "t1" "Report" "w02" "2026-[W]02" 3.333%float
              (Scenario.duplicated 1%float 2%float)) as [Hiff Hdup].
  destruct (Hdup 0%nat (Scenario.duplicate 1%float) 1%nat (Scenario.duplicate 2%float) [])
    as (_ & _ & _ & Hsecond & Hlen & _); [vm_compute; reflexivity|].
  split; [|split; [exact Hsecond|exact Hlen]].
  intros Hone. apply Hiff in Hone. specialize (Hone "t1" "w02").
  vm_compute in Hone. lia.
Defined.

(** C2, amended, for a task from Monday 2026-01-05 to Wednesday
    2026-01-21. *)
Lemma mondays_between_spec_witness :
  let start := midnight 2026 1 5 in
  let due := midnight 2026 1 21 in
  (aware start = aware due ∧ 1 ≤ toordinal start
   ∧ toordinal (first_monday start) ≤ MAXORD
   ∧ instant (first_monday start) ≤ instant due)
  ∧ weekday (first_monday start) = 0
  ∧ toordinal start ≤ toordinal (first_monday start) < toordinal start + 7
  ∧ ∃ K : nat,
      mondays_between start due
      = inr ((λ k : nat, shift (first_monday start) (7 * Z.of_nat k))
             <$> seq 0 (S K))
      ∧ ∀ k : nat, (k ≤ K)%nat ↔
          toordinal (first_monday start) + 7 * Z.of_nat k ≤ MAXORD
          ∧ instant (shift (first_monday start) (7 * Z.of_nat k)) ≤ instant due.
Proof.
  split; [vm_compute; split_and!; (reflexivity || discriminate)|].
  apply (mondays_between_spec (midnight 2026 1 5) (midnight 2026 1 21));
    vm_compute; (reflexivity || discriminate).
Defined.


(** C7 for a task from Tuesday 2026-01-06 to Friday 2026-01-09. *)
Lemma single_bucket_fallback_witness :
  let start := midnight 2026 1 6 in
  let due := midnight 2026 1 9 in
  mondays_between start due = inr []
  ∧ task_weeks start due = inr [start]
  ∧ (∀ F (PF : PyFloat F) idx_by_title idx_by_date (t : task_page F),
       task_start t = Some start → task_due t = Some due →
       task_calls idx_by_title idx_by_date t
       = inr (omap (bucket_call idx_by_title idx_by_date t 1) [(0%nat, start)]))
  ∧ (∀ est : Q, (0 <= est)%Q → (bucket_hours est 1 0 == est)%Q)
  ∧ (∀ est : float,
       (0 <? est)%float = true → (est <? 0x1p+1023)%float = true →
       bucket_hours est 1 0 = est)
  ∧ bucket_hours 0%float 1 0 = 0%float.
Proof.
  split; [vm_compute; reflexivity|].
  apply (single_bucket_fallback (midnight 2026 1 6) (midnight 2026 1 9)).
  vm_compute; reflexivity.
Defined.


(** C8 for the task of the scenario without an estimate. *)
Lemma zero_estimate_witness :
  let idx := index_weeks Scenario.week_pages in
  let t : task_page float := Scenario.task None in
  let σ : notion float := Scenario.workspace None in
  let ws := [midnight 2026 1 5; midnight 2026 1 12; midnight 2026 1 19] in
  (task_weeks (midnight 2026 1 5) (midnight 2026 1 19) = inr ws
   ∧ f_gt0 (default f_zero (task_number t)) = false)
  ∧ (∀ n i, bucket_hours (default f_zero (task_number t)) n i = f_zero)
  ∧ ∃ counts' σ' written,
      run_task idx.1 idx.2 (0, 0)%nat t σ = (inr counts', σ')
      ∧ writes σ' = writes σ ++ written
      ∧ planned <$> written
        = replicate (length (resolvable idx.1 idx.2 ws))
                    (Some (PNumber (f_round2 f_zero)))
      ∧ (counts'.1 + counts'.2
         = 0 + 0 + length (resolvable idx.1 idx.2 ws))%nat.
Proof.
  split; [split; vm_compute; reflexivity|].
  apply (zero_estimate (index_weeks Scenario.week_pages).1
           (index_weeks Scenario.week_pages).2 (0, 0)%nat (Scenario.task None)
           (Scenario.workspace None) (midnight 2026 1 5) (midnight 2026 1 19));
    vm_compute; reflexivity.
Defined.

(** * Further properties *)

(** ** The steps of [run] *)

Section Trace.

Context {F : Type} `{PyFloat F}.
Implicit Types (σ : notion F) (c : call F).

(** [run], when it does not leave at once, step by step: the job is set to
    Running, the calls of the tasks are made up to the first task that
    raises, and when none raises the job is set to Done. *)
Lemma run_trace RUN_IF_NO_JOB σ :
  is_Some (head (queued (jobs σ))) ∨ RUN_IF_NO_JOB = true →
  let j := head (queued (jobs σ)) in
  let σa := job_set j "Running" None σ in
  let ex := exec (run_calls σ).1 (0, 0)%nat (allocations σ) in
  let σb := {| master := master σ; weeks := weeks σ; allocations := ex.2;
               jobs := jobs σa; writes := writes σa ++ ex.1.2 |} in
  run RUN_IF_NO_JOB σ =
  match (run_calls σ).2 with
  | Some e => (inl e, σb)
  | None => (inr (summary ex.1.1), job_set j "Done" (Some (job_note ex.1.1)) σb)
  end.
Proof.
  intros Hgo. cbv zeta. unfold run, run_calls.
  rewrite bind_eq. unfold first_queued_job at 1.
  assert (negb (bool_decide (is_Some (head (queued (jobs σ)))))
          && negb RUN_IF_NO_JOB = false) as ->.
  { destruct Hgo as [Hj| ->]; [|by rewrite andb_false_r].
    by rewrite bool_decide_eq_true_2. }
  rewrite bind_eq.
  assert (match head (queued (jobs σ)) with
          | Some j => set_job_status (job_id j) "Running" None
          | None => ret tt
          end σ = (inr tt, job_set (head (queued (jobs σ))) "Running" None σ)) as ->
    by (by destruct (head (queued (jobs σ)))).
  set (σa := job_set (head (queued (jobs σ))) "Running" None σ).
  assert (master σa = master σ ∧ weeks σa = weeks σ
          ∧ allocations σa = allocations σ) as (Hm & Hw & Ha)
    by (subst σa; by destruct (head (queued (jobs σ)))).
  clearbody σa.
  rewrite bind_eq.
  change (fetch_weeks_index σa) with (@inr exn _ (index_weeks (weeks σa)), σa).
  rewrite Hw. rewrite bind_eq. cbn [fst snd].
  rewrite run_tasks_calls. unfold activities. rewrite Hm.
  destruct (tasks_calls _ _ _) as [cs err]. cbn [fst snd].
  rewrite exec_calls_pure. cbn [fst snd]. rewrite Hm, Hw, Ha.
  destruct err as [e|]; [done|].
  rewrite bind_eq.
  destruct (head (queued (jobs σ))) as [j|]; reflexivity.
Qed.

End Trace.

(** ** Counting the writes *)

Section Counts.

Context {F : Type} `{PyFloat F}.
Implicit Types (σ : notion F) (l m : list (page F)) (p q : page F) (c : call F).

Lemma upsert_pages_result c l :
  let '(r, w, l') := upsert_pages c l in
  (is_create w = bool_decide (r = Created))
  ∧ (is_update w = bool_decide (r = Updated))
  ∧ is_job w = false
  ∧ length l' = (length l + if is_create w then 1 else 0)%nat.
Proof.
  unfold upsert_pages. destruct (first_match c l); simpl.
  - split_and!; try done. rewrite length_alter. lia.
  - split_and!; try done. rewrite length_app. simpl. lia.
Qed.

(** The counts are the numbers of the writes of each kind, and each create
    adds one page. *)
Lemma exec_counts_writes cs : ∀ counts l,
  (exec cs counts l).1.1
  = (counts.1 + creates (exec cs counts l).1.2,
     counts.2 + updates (exec cs counts l).1.2)%nat
  ∧ length (exec cs counts l).2 = (length l + creates (exec cs counts l).1.2)%nat
  ∧ Forall (λ w, is_job w = false) (exec cs counts l).1.2
  ∧ length (exec cs counts l).1.2 = length cs.
Proof.
  induction cs as [|c cs IH]; intros counts l.
  { cbn. destruct counts. split_and!; try done; simpl; f_equal; lia. }
  cbn [exec]. pose proof (upsert_pages_result c l) as Hr.
  destruct (upsert_pages c l) as [[r w] l'].
  destruct Hr as (Hc & Hu & Hj & Hl).
  specialize (IH (bump counts r) l').
  destruct (exec cs (bump counts r) l') as [[counts' ws] l''].
  cbn [fst snd] in *. destruct IH as (IH1 & IH2 & IH3 & IH4).
  unfold creates, updates in *. rewrite !filter_cons.
  unfold bump in IH1. cbn [fst snd] in IH1.
  split_and!.
  - rewrite IH1. destruct r, w; simpl in *; try done; f_equal; lia.
  - rewrite IH2, Hl. destruct w; simpl; lia.
  - by constructor.
  - simpl. by rewrite IH4.
Qed.

End Counts.

(** ** The job of a run *)

Lemma plus_days_error dt k e : plus_days dt k = inl e → e = OverflowError.
Proof. unfold plus_days. destruct (_ && _); congruence. Qed.

Lemma mondays_between_error start due e :
  mondays_between start due = inl e → e = OverflowError ∨ e = ValueError.
Proof.
  unfold mondays_between, rrule_WEEKLY_MO.
  destruct (if negb (weekday start =? 0) then _ else _) as [e'|s] eqn:Hs.
  - destruct (negb (weekday start =? 0)); [|done].
    apply plus_days_error in Hs as ->. intros [= <-]. by left.
  - destruct (negb (Bool.eqb _ _)); [intros [= <-]; by right|].
    clear Hs. by destruct (plus_days _ _).
Qed.

Section Jobs.

Context {F : Type} `{PyFloat F}.
Implicit Types (σ : notion F) (c : call F).

Lemma task_calls_error idx_by_title idx_by_date (t : task_page F) e :
  is_Some (task_start t) → is_Some (task_due t) →
  task_calls idx_by_title idx_by_date t = inl e →
  e = OverflowError ∨ e = ValueError.
Proof.
  intros [s Hs] [d Hd]. unfold task_calls, task_weeks. rewrite Hs, Hd.
  destruct (mondays_between s d) as [e'|ws] eqn:Hm.
  - intros [= <-]. by eapply mondays_between_error.
  - by destruct ws.
Qed.

Lemma tasks_calls_error idx_by_title idx_by_date (ts : list (task_page F)) e :
  Forall (λ t, is_Some (task_start t) ∧ is_Some (task_due t)) ts →
  (tasks_calls idx_by_title idx_by_date ts).2 = Some e →
  e = OverflowError ∨ e = ValueError.
Proof.
  induction 1 as [|t ts [Hs Hd] Hts IH]; [done|].
  cbn [tasks_calls].
  destruct (task_calls idx_by_title idx_by_date t) as [e'|cs] eqn:Ht.
  - intros [= <-]. by eapply task_calls_error.
  - destruct (tasks_calls idx_by_title idx_by_date ts) as [cs' err]. exact IH.
Qed.

Lemma activities_dated σ :
  Forall (λ t : task_page F, is_Some (task_start t) ∧ is_Some (task_due t))
         (activities σ).
Proof.
  apply Forall_forall. intros t [Ht _]%list_elem_of_filter.
  apply andb_True in Ht as [Ht Hd]. apply andb_True in Ht as [_ Hs].
  split; by eapply bool_decide_unpack.
Qed.

Lemma run_calls_error σ e :
  (run_calls σ).2 = Some e → e = OverflowError ∨ e = ValueError.
Proof. apply tasks_calls_error, activities_dated. Qed.

Lemma queued_None (js : list job_page) :
  head (queued js) = None ↔
  Forall (λ j, ¬ (job_type j = "Run Allocations" ∧ job_status j = "Queued")) js.
Proof.
  unfold queued. rewrite head_None. induction js as [|j js IH]; [done|].
  rewrite filter_cons, Forall_cons, <- IH.
  destruct (decide _) as [Hj|Hj].
  - apply andb_True in Hj as [Ht Hs].
    apply Is_true_eq_true, String.eqb_eq in Ht, Hs.
    split; [done|]. intros [Hn _]. by destruct Hn.
  - split; [|by intros [_ ?]]. intros Hnil. split; [|done].
    intros [Ht Hs]. apply Hj. rewrite Ht, Hs. done.
Qed.

Lemma queued_head (js : list job_page) j :
  head (queued js) = Some j →
  ∃ before after, js = before ++ j :: after
    ∧ job_type j = "Run Allocations" ∧ job_status j = "Queued"
    ∧ Forall (λ k, ¬ (job_type k = "Run Allocations" ∧ job_status k = "Queued"))
             before.
Proof.
  unfold queued. induction js as [|k js IH]; [done|].
  rewrite filter_cons. destruct (decide _) as [Hk|Hk].
  - intros [= ->]. exists [], js. split; [done|].
    apply andb_True in Hk as [Ht Hs].
    apply Is_true_eq_true, String.eqb_eq in Ht, Hs. done.
  - intros (before & after & -> & Ht & Hs & Hb)%IH.
    exists (k :: before), after. split_and!; try done.
    constructor; [|done]. intros [Ht' Hs']. apply Hk. by rewrite Ht', Hs'.
Qed.

Lemma job_note_truthy counts : truthy (Some (job_note counts)) = true.
Proof. done. Qed.

Lemma jobs_job_set (j : job_page) status note σ :
  jobs (job_set (Some j) status note σ)
  = (λ k, if String.eqb (job_id k) (job_id j)
          then job_with status
                 (if truthy note then String.substring 0 1900 <$> note else None) k
          else k) <$> jobs σ.
Proof. done. Qed.

Lemma writes_job_set (j : job_page) status note σ :
  writes (job_set (Some j) status note σ)
  = writes σ ++ [WJob (job_id j) status
                   (if truthy note then String.substring 0 1900 <$> note else None)].
Proof. done. Qed.

(** X1. Without a queued job of type Run Allocations, and without
    RUN_IF_NO_JOB, [run] returns "No job; exiting." and the workspace is
    as it was: nothing is queried further and nothing is written.  With
    such a job it does not leave that way. *)
Theorem run_without_job σ :
  Forall (λ j, ¬ (job_type j = "Run Allocations" ∧ job_status j = "Queued"))
         (jobs σ)
  ↔ run false σ = (inr "No job; exiting.", σ).
Proof.
  rewrite <- queued_None. split; [apply run_no_job|].
  intros Hrun. destruct (head (queued (jobs σ))) as [j|] eqn:Hj; [|done].
  exfalso. rewrite run_trace in Hrun by (left; rewrite Hj; eauto).
  cbv zeta in Hrun. rewrite Hj in Hrun.
  destruct (run_calls σ).2; [done|].
  apply (f_equal snd) in Hrun. cbn [snd] in Hrun.
  apply (f_equal (length ∘ writes)) in Hrun.
  cbn [compose] in Hrun. rewrite writes_job_set in Hrun. cbn [writes] in Hrun.
  rewrite writes_job_set in Hrun. rewrite !length_app in Hrun. simpl in Hrun. lia.
Qed.

(** X2. When [run] returns after the loop, the counts in the text it
    returns are the numbers of allocation pages that it has created and
    updated, every create has added one page to the Allocations database,
    and it has written to no page of that database otherwise. *)
Theorem run_counts_writes RUN_IF_NO_JOB σ s σ' :
  is_Some (head (queued (jobs σ))) ∨ RUN_IF_NO_JOB = true →
  run RUN_IF_NO_JOB σ = (inr s, σ') →
  ∃ written,
    writes σ' = writes σ ++ written
    ∧ s = summary (creates written, updates written)
    ∧ length (allocations σ') = (length (allocations σ) + creates written)%nat.
Proof.
  intros Hgo. rewrite run_trace by done. cbv zeta.
  destruct (run_calls σ).2; [done|].
  destruct (exec_counts_writes (run_calls σ).1 (0, 0)%nat (allocations σ))
    as (Hc & Hl & Hj & _).
  set (ex := exec _ _ _) in *.
  intros [Hs <-]%pair_equal_spec. injection Hs as <-.
  assert (∀ ws ws' : list (write F), Forall (λ w, is_job w = true) ws →
            Forall (λ w, is_job w = true) ws' →
            creates (ws ++ ex.1.2 ++ ws') = creates ex.1.2
            ∧ updates (ws ++ ex.1.2 ++ ws') = updates ex.1.2) as Hcu.
  { intros ws ws' Hws Hws'. unfold creates, updates. rewrite !filter_app, !length_app.
    assert (∀ js : list (write F), Forall (λ w, is_job w = true) js →
              filter (λ w, is_create w) js = [] ∧ filter (λ w, is_update w) js = [])
      as Hnil.
    { induction 1 as [|w js Hw _ [IH1 IH2]]; [done|].
      rewrite !filter_cons. destruct w; try done. }
    destruct (Hnil ws Hws) as [-> ->]. destruct (Hnil ws' Hws') as [-> ->].
    simpl. lia. }
  destruct (head (queued (jobs σ))) as [j|].
  - eexists ([_] ++ ex.1.2 ++ [_]).
    rewrite writes_job_set. cbn [writes].
    rewrite writes_job_set. cbn [job_set set_job_status snd allocations].
    split; [by rewrite <- !app_assoc|].
    edestruct Hcu as [-> ->]; [repeat constructor..|].
    rewrite Hc. done.
  - exists ex.1.2. cbn [job_set writes allocations].
    rewrite Hc. done.
Qed.

(** X3. The job that [run] picks is the first job of the query, and when
    the run returns that job has gone from Running to Done, with the note
    of the counts: those are the first and the last write of the run, all
    other writes go to the Allocations database, and the jobs of another
    id are as they were. *)
Theorem run_job_done RUN_IF_NO_JOB σ j s σ' :
  head (queued (jobs σ)) = Some j →
  run RUN_IF_NO_JOB σ = (inr s, σ') →
  ∃ counts written,
    s = summary counts
    ∧ writes σ'
      = writes σ ++ [WJob (job_id j) "Running" None] ++ written
        ++ [WJob (job_id j) "Done"
              (Some (String.substring 0 1900 (job_note counts)))]
    ∧ Forall (λ w, is_job w = false) written
    ∧ jobs σ'
      = (λ k, if String.eqb (job_id k) (job_id j)
              then job_with "Done"
                     (Some (String.substring 0 1900 (job_note counts))) k
              else k) <$> jobs σ.
Proof.
  intros Hj. rewrite run_trace by (left; rewrite Hj; eauto). cbv zeta.
  destruct (run_calls σ).2; [done|].
  destruct (exec_counts_writes (run_calls σ).1 (0, 0)%nat (allocations σ))
    as (_ & _ & Hjw & _).
  set (ex := exec _ _ _) in *. rewrite Hj.
  intros [Hs <-]%pair_equal_spec. injection Hs as <-.
  exists ex.1.1, ex.1.2. split; [done|].
  rewrite writes_job_set, jobs_job_set, job_note_truthy. cbn [writes jobs].
  rewrite ?writes_job_set, ?jobs_job_set. cbn [writes jobs].
  change (truthy None) with false. cbn [fmap option_fmap option_map].
  split_and!.
  - by rewrite <- !app_assoc.
  - done.
  - rewrite <- list_fmap_compose. apply list_fmap_ext. intros _ k _. simpl.
    destruct (String.eqb (job_id k) (job_id j)) eqn:Hk; simpl; by rewrite Hk.
Qed.

(** X4. [run] raises only OverflowError or ValueError, from the dates of a
    task, and has no handler: the job it picked stays Running, neither Done
    nor Error is written to it, and the allocation writes of the tasks
    before the one that raised stay made. *)
Theorem run_abort_job_running RUN_IF_NO_JOB σ j e σ' :
  head (queued (jobs σ)) = Some j →
  run RUN_IF_NO_JOB σ = (inl e, σ') →
  (e = OverflowError ∨ e = ValueError)
  ∧ (∃ written,
       writes σ' = writes σ ++ [WJob (job_id j) "Running" None] ++ written
       ∧ Forall (λ w, is_job w = false) written
       ∧ length written = length (run_calls σ).1)
  ∧ jobs σ'
    = (λ k, if String.eqb (job_id k) (job_id j) then job_with "Running" None k
            else k) <$> jobs σ.
Proof.
  intros Hj. rewrite run_trace by (left; rewrite Hj; eauto). cbv zeta.
  destruct (run_calls σ).2 as [e'|] eqn:He; [|done].
  destruct (exec_counts_writes (run_calls σ).1 (0, 0)%nat (allocations σ))
    as (_ & _ & Hjw & Hlen).
  set (ex := exec _ _ _) in *. rewrite Hj.
  intros [Hs <-]%pair_equal_spec. injection Hs as <-.
  split; [by eapply run_calls_error|]. cbn [writes jobs].
  rewrite writes_job_set, jobs_job_set. split; [|done].
  exists ex.1.2. by rewrite <- !app_assoc.
Qed.

End Jobs.

(** ** The dictionaries of the weeks *)

Section Index.

Lemma index_weeks_fold pages :
  index_weeks pages = fold_left index_step pages (∅, ∅).
Proof.
  unfold index_weeks. generalize (∅ : gmap string string, ∅ : gmap string string).
  induction pages as [|p pages IH]; intros acc; [done|].
  cbn [fold_left]. rewrite IH. by destruct acc.
Qed.

Lemma index_weeks_snoc pages p :
  index_weeks (pages ++ [p]) = index_step (index_weeks pages) p.
Proof. rewrite !index_weeks_fold. by rewrite fold_left_app. Qed.

Lemma index_title_lookup pages title :
  (index_weeks pages).1 !! title
  = if decide (title = "") then None
    else week_id <$> last (filter (λ p, title_of p = title) pages).
Proof.
  induction pages as [|p pages IH] using rev_ind.
  { by destruct (decide _). }
  rewrite index_weeks_snoc, filter_app.
  destruct (index_weeks pages) as [it id]. cbn [fst snd] in *.
  unfold index_step. fold (title_of p). cbn [fst].
  rewrite filter_cons, filter_nil.
  destruct (String.eqb (title_of p) "") eqn:Hp; cbn [negb].
  - apply String.eqb_eq in Hp. rewrite IH.
    destruct (decide (title = "")) as [->|Hne]; [done|].
    rewrite decide_False by congruence. by rewrite app_nil_r.
  - apply String.eqb_neq in Hp.
    destruct (decide (title_of p = title)) as [<-|Hne].
    + rewrite lookup_insert_eq, decide_False by done. by rewrite last_snoc.
    + rewrite lookup_insert_ne by done. by rewrite IH, app_nil_r.
Qed.

Lemma index_date_lookup pages d :
  (index_weeks pages).2 !! d
  = week_id <$> last (filter (λ p, week_start p = Some d) pages).
Proof.
  induction pages as [|p pages IH] using rev_ind; [done|].
  rewrite index_weeks_snoc, filter_app.
  destruct (index_weeks pages) as [it id]. cbn [fst snd] in *.
  unfold index_step. cbn [snd].
  rewrite filter_cons, filter_nil.
  destruct (week_start p) as [d'|] eqn:Hp.
  - destruct (decide (Some d' = Some d)) as [[= ->]|Hne].
    + by rewrite lookup_insert_eq, last_snoc.
    + rewrite lookup_insert_ne by congruence. by rewrite IH, app_nil_r.
  - rewrite decide_False by done. by rewrite IH, app_nil_r.
Qed.

Lemma last_filter_elem {A} (P : A → Prop) `{∀ x, Decision (P x)} (l : list A) x :
  last (filter P l) = Some x → x ∈ l ∧ P x.
Proof.
  intros Hl. apply last_Some in Hl as [l' Hl].
  assert (x ∈ filter P l) as Hx by (rewrite Hl; set_solver).
  apply list_elem_of_filter in Hx. tauto.
Qed.

(** An id in either dictionary is the id of a week page. *)
Lemma index_ids pages :
  (∀ k i, (index_weeks pages).1 !! k = Some i →
          ∃ p, p ∈ pages ∧ week_id p = i ∧ title_of p = k ∧ k ≠ "")
  ∧ (∀ k i, (index_weeks pages).2 !! k = Some i →
            ∃ p, p ∈ pages ∧ week_id p = i ∧ week_start p = Some k).
Proof.
  split; intros k i.
  - rewrite index_title_lookup. destruct (decide (k = "")); [done|].
    destruct (last _) as [p|] eqn:Hl; [|done]. intros [= <-].
    apply last_filter_elem in Hl as [? ?]. eauto.
  - rewrite index_date_lookup.
    destruct (last _) as [p|] eqn:Hl; [|done]. intros [= <-].
    apply last_filter_elem in Hl as [? ?]. eauto.
Qed.

(** X5. The two dictionaries of [fetch_weeks_index]: a title is a key of
    the first when it is not empty and is the first title item of a week
    page, a date is a key of the second when it is the Week Start of a week
    page, and the id under a key is that of the last such page in the order
    of the query; a page without title is under no title. *)
Theorem fetch_weeks_index_last_wins (pages : list week_page) :
  (∀ title,
     (index_weeks pages).1 !! title
     = if decide (title = "") then None
       else week_id <$> last (filter (λ p, title_of p = title) pages))
  ∧ (∀ d,
       (index_weeks pages).2 !! d
       = week_id <$> last (filter (λ p, week_start p = Some d) pages)).
Proof. split; intros; [apply index_title_lookup|apply index_date_lookup]. Qed.

End Index.

(** ** What a run leaves of the databases *)

Section Frames.

Context {F : Type} `{PyFloat F}.
Implicit Types (σ : notion F) (l m : list (page F)) (p q : page F) (c : call F).

(** What a run leaves of the three databases it reads. *)
Lemma run_pages RUN_IF_NO_JOB σ :
  master (run RUN_IF_NO_JOB σ).2 = master σ
  ∧ weeks (run RUN_IF_NO_JOB σ).2 = weeks σ
  ∧ ∃ cs, (∀ c, c ∈ cs → c ∈ (run_calls σ).1)
          ∧ allocations (run RUN_IF_NO_JOB σ).2 = pages_after cs (allocations σ).
Proof.
  destruct (decide (is_Some (head (queued (jobs σ))) ∨ RUN_IF_NO_JOB = true))
    as [Hgo|Hstay].
  - rewrite run_trace by done. cbv zeta.
    assert (∀ j status note (τ : notion F),
              master (job_set j status note τ) = master τ
              ∧ weeks (job_set j status note τ) = weeks τ
              ∧ allocations (job_set j status note τ) = allocations τ) as Hjs
      by (by intros [j|] ???).
    destruct (run_calls σ).2; cbn [snd].
    + split_and!; [done..|]. exists (run_calls σ).1. split; [done|].
      cbn [allocations]. apply exec_pages.
    + destruct (Hjs (head (queued (jobs σ))) "Done"
                  (Some (job_note (exec (run_calls σ).1 (0, 0)%nat (allocations σ)).1.1))
                  {| master := master σ; weeks := weeks σ;
                     allocations := (exec (run_calls σ).1 (0, 0)%nat (allocations σ)).2;
                     jobs := jobs (job_set (head (queued (jobs σ))) "Running" None σ);
                     writes := writes (job_set (head (queued (jobs σ))) "Running" None σ)
                               ++ (exec (run_calls σ).1 (0, 0)%nat (allocations σ)).1.2 |})
        as (-> & -> & ->).
      split_and!; [done..|]. exists (run_calls σ).1. split; [done|].
      cbn [allocations]. apply exec_pages.
  - assert (head (queued (jobs σ)) = None) as Hj.
    { destruct (head (queued (jobs σ))); [|done]. exfalso. apply Hstay. left. eauto. }
    assert (RUN_IF_NO_JOB = false) as ->
      by (destruct RUN_IF_NO_JOB; [exfalso; apply Hstay; by right|done]).
    rewrite (run_no_job σ Hj). split_and!; [done..|].
    exists []. split; [|done]. intros c Hc. by apply elem_of_nil in Hc.
Qed.

Lemma extends_lookup l m j p :
  extends l m → l !! j = Some p →
  ∃ p', m !! j = Some p' ∧ frame p' = frame p.
Proof.
  intros [e He] Hp.
  assert ((frame <$> m) !! j = Some (frame p)) as Hm.
  { rewrite He. apply lookup_app_l_Some. by rewrite list_lookup_fmap, Hp. }
  rewrite list_lookup_fmap in Hm.
  destruct (m !! j) as [p'|]; [|done]. injection Hm as Hm. eauto.
Qed.

Lemma frame_lookup p q name :
  frame p = frame q → name ≠ P_PLANNED → p !! name = q !! name.
Proof.
  intros Hf Hn. unfold frame in Hf.
  rewrite <- (lookup_delete_ne p P_PLANNED name), Hf by done.
  by rewrite lookup_delete_ne.
Qed.

(** A page that passes the filter of none of the calls is as it was. *)
Lemma pages_after_unmatched cs l j p :
  l !! j = Some p →
  (∀ c, c ∈ cs → ¬ matches (c_task c) (c_week c) p) →
  pages_after cs l !! j = Some p.
Proof.
  intros Hp Hun. rewrite <- Hp. apply pages_after_untouched.
  - intros c Hc Hm.
    apply first_match_matches in Hm as (p' & Hp' & Hm).
    destruct (extends_lookup _ _ _ _ (pages_after_extends cs l) Hp)
      as (p'' & Hp'' & Hfr).
    rewrite Hp' in Hp''. injection Hp'' as <-.
    apply (Hun c Hc). by rewrite <- matches_frame, <- Hfr, matches_frame.
  - by eapply lookup_lt_Some.
Qed.

(** A page that the calls have added is, up to its planned hours, the page
    that one of them has created. *)
Lemma pages_after_new cs : ∀ l j p,
  pages_after cs l !! j = Some p → (length l ≤ j)%nat →
  ∃ c, c ∈ cs ∧ frame p = frame (new_allocation c).
Proof.
  induction cs as [|c cs IH]; intros l j p Hp Hj.
  { apply lookup_lt_Some in Hp. simpl in Hp. lia. }
  cbn [pages_after fold_left] in Hp.
  change (fold_left _ cs ?x) with (pages_after cs x) in Hp.
  destruct (decide (length (upsert_pages c l).2 ≤ j)%nat) as [Hge|Hlt].
  - destruct (IH _ _ _ Hp Hge) as (c' & Hc' & Hfr). exists c'. split; [by right|done].
  - exists c. split; [by left|].
    assert ((upsert_pages c l).2 = l ++ [new_allocation c] ∧ j = length l)
      as [Hup ->].
    { unfold upsert_pages in *. destruct (first_match c l); cbn [snd] in *.
      - rewrite length_alter in Hlt. lia.
      - split; [done|]. rewrite length_app in Hlt. simpl in Hlt. lia. }
    assert ((upsert_pages c l).2 !! length l = Some (new_allocation c)) as Hn
      by (by rewrite Hup, lookup_app_r, Nat.sub_diag).
    destruct (extends_lookup _ _ _ _ (pages_after_extends cs _) Hn)
      as (p' & Hp' & Hfr).
    congruence.
Qed.

Lemma upsert_pages_at_most_one c l :
  at_most_one l → at_most_one (upsert_pages c l).2.
Proof.
  intros Hone task week. specialize (Hone task week).
  unfold upsert_pages, first_match.
  destruct (matching (c_task c) (c_week c) l) as [|[i p] rest] eqn:Hq;
    cbn [head fmap option_fmap option_map fst snd].
  - rewrite matching_app, length_app.
    cbn [imap filter list_filter].
    destruct (decide _) as [Hm|]; simpl in *; [|lia].
    apply matches_created in Hm as [Ht Hw].
    rewrite Ht, Hw, Hq in Hone. rewrite Ht, Hw, Hq. simpl. lia.
  - rewrite <- (length_fmap fst).
    rewrite (matching_ids_frame _ _ _ l) by apply frame_alter_patch.
    by rewrite length_fmap.
Qed.

Lemma pages_after_at_most_one cs l :
  at_most_one l → at_most_one (pages_after cs l).
Proof.
  revert l. induction cs as [|c cs IH]; intros l Hl; [done|].
  apply IH, upsert_pages_at_most_one, Hl.
Qed.

(** The calls of a run: the task is an Activity of the query, the week is
    a page of the Weeks database. *)
Lemma tasks_calls_elem idx_by_title idx_by_date (ts : list (task_page F)) c :
  c ∈ (tasks_calls idx_by_title idx_by_date ts).1 →
  ∃ t w, t ∈ ts ∧ c_task c = task_id t
         ∧ c_name c = name_of t ∧ c_label c = iso_week_label w
         ∧ resolve_week idx_by_title idx_by_date w = Some (c_week c)
         ∧ c_week c ≠ "".
Proof.
  induction ts as [|t ts IH]; [by intros ?%elem_of_nil|].
  cbn [tasks_calls].
  destruct (task_calls idx_by_title idx_by_date t) as [e|cs] eqn:Ht;
    [by intros ?%elem_of_nil|].
  destruct (tasks_calls idx_by_title idx_by_date ts) as [cs' err].
  cbn [fst] in *. intros [Hc|Hc]%elem_of_app.
  - unfold task_calls in Ht.
    destruct (task_start t), (task_due t); try done.
    destruct (task_weeks _ _) as [|ws]; [done|]. injection Ht as <-.
    apply list_elem_of_omap in Hc as ([i w] & _ & Hb).
    unfold bucket_call in Hb. cbn [fst snd] in Hb.
    destruct (resolve_week idx_by_title idx_by_date w) as [id|] eqn:Hw; [|done].
    destruct (truthy (Some id)) eqn:Hid; [|done]. injection Hb as <-.
    exists t, w. cbn. split_and!; [by left|done..|].
    intros ->. done.
  - destruct (IH Hc) as (t' & w & ? & ?). exists t', w. split; [by right|done].
Qed.

Lemma run_calls_linked σ c :
  c ∈ (run_calls σ).1 →
  ∃ t wk w, t ∈ activities σ ∧ wk ∈ weeks σ
            ∧ c_task c = task_id t ∧ c_week c = week_id wk ∧ week_id wk ≠ ""
            ∧ c_name c = name_of t ∧ c_label c = iso_week_label w.
Proof.
  intros (t & w & Ht & Hct & Hcn & Hcl & Hw & Hne)%tasks_calls_elem.
  destruct (index_ids (weeks σ)) as [Hi1 Hi2].
  unfold resolve_week in Hw.
  destruct (_ && _).
  - apply Hi2 in Hw as (wk & ? & Hid & _). exists t, wk, w. by rewrite Hid.
  - apply Hi1 in Hw as (wk & ? & Hid & _). exists t, wk, w. by rewrite Hid.
Qed.

(** X6. [run] deletes no allocation page and changes of a page only the
    planned hours: whatever it returns or raises, every page of the
    Allocations database is still there, at its place and with its other
    properties, and the Master Tasks and Weeks databases are as they were. *)
Theorem run_never_deletes RUN_IF_NO_JOB σ r σ' :
  run RUN_IF_NO_JOB σ = (r, σ') →
  master σ' = master σ ∧ weeks σ' = weeks σ
  ∧ (length (allocations σ) ≤ length (allocations σ'))%nat
  ∧ ∀ j p, allocations σ !! j = Some p →
      ∃ p', allocations σ' !! j = Some p'
            ∧ ∀ name, name ≠ P_PLANNED → p' !! name = p !! name.
Proof.
  intros Hrun. destruct (run_pages RUN_IF_NO_JOB σ) as (Hm & Hw & cs & _ & Ha).
  rewrite Hrun in Hm, Hw, Ha. cbn [snd] in *.
  pose proof (pages_after_extends cs (allocations σ)) as Hext. rewrite <- Ha in Hext.
  split_and!; [done..|by apply extends_length|].
  intros j p Hp. destruct (extends_lookup _ _ _ _ Hext Hp) as (p' & Hp' & Hfr).
  exists p'. split; [done|]. intros name Hn. by apply frame_lookup.
Qed.

(** X7. [run] leaves alone the allocation pages that none of its calls
    looks for: a page whose Task and Week relations do not contain the task
    and the week of any call of the run, the page of a week that the task
    has left or of a task that is no Activity any more, keeps its planned
    hours; the run neither clears nor removes it. *)
Theorem run_leaves_unmatched RUN_IF_NO_JOB σ r σ' j p :
  run RUN_IF_NO_JOB σ = (r, σ') →
  allocations σ !! j = Some p →
  (∀ c, c ∈ (run_calls σ).1 → ¬ matches (c_task c) (c_week c) p) →
  allocations σ' !! j = Some p.
Proof.
  intros Hrun Hp Hun. destruct (run_pages RUN_IF_NO_JOB σ) as (_ & _ & cs & Hcs & Ha).
  rewrite Hrun in Ha. cbn [snd] in Ha. rewrite Ha.
  apply pages_after_unmatched; [done|]. intros c Hc. apply Hun, Hcs, Hc.
Qed.

(** X8. A page that [run] has added to the Allocations database relates
    one task and one week that exist: an Activity of the Master Tasks
    database that has its Start and Due, and a page of the Weeks
    database.  Its name is the first title item of the task, or
    "(untitled)" for a task without title, then " · " and the label of a
    day. *)
Theorem run_creates_linked RUN_IF_NO_JOB σ r σ' j p :
  run RUN_IF_NO_JOB σ = (r, σ') →
  allocations σ' !! j = Some p → (length (allocations σ) ≤ j)%nat →
  ∃ t wk, t ∈ master σ ∧ task_type t = "Activity"
          ∧ is_Some (task_start t) ∧ is_Some (task_due t)
          ∧ wk ∈ weeks σ
          ∧ p !! "Task" = Some (PRelation [task_id t])
          ∧ p !! "Week" = Some (PRelation [week_id wk])
          ∧ ∃ w, p !! "Name"
                 = Some (PTitle (name_of t +:+ " · " +:+ iso_week_label w)).
Proof.
  intros Hrun Hp Hj. destruct (run_pages RUN_IF_NO_JOB σ) as (_ & _ & cs & Hcs & Ha).
  rewrite Hrun in Ha. cbn [snd] in Ha. rewrite Ha in Hp.
  destruct (pages_after_new _ _ _ _ Hp Hj) as (c & Hc & Hfr).
  destruct (run_calls_linked σ c (Hcs c Hc))
    as (t & wk & w & Ht & Hwk & Hct & Hcw & _ & Hcn & Hcl).
  exists t, wk.
  apply list_elem_of_filter in Ht as [Hty Ht].
  apply andb_True in Hty as [Hty Hd]. apply andb_True in Hty as [Hty Hs].
  apply Is_true_eq_true, String.eqb_eq in Hty.
  apply bool_decide_unpack in Hs, Hd.
  split_and!; try done.
  - rewrite (frame_lookup _ _ "Task" Hfr) by done. rewrite <- Hct.
    unfold new_allocation. by rewrite lookup_insert_ne, lookup_insert_eq.
  - rewrite (frame_lookup _ _ "Week" Hfr) by done. rewrite <- Hcw.
    unfold new_allocation. by rewrite 2!lookup_insert_ne, lookup_insert_eq.
  - exists w. rewrite (frame_lookup _ _ "Name" Hfr) by done. rewrite <- Hcn, <- Hcl.
    unfold new_allocation. by rewrite lookup_insert_eq.
Qed.

(** X9. [run] keeps the Allocations database free of duplicates: when no
    two pages are for the same task and week before the run, none are
    after it, whatever the run returns or raises. *)
Theorem run_keeps_at_most_one RUN_IF_NO_JOB σ r σ' :
  run RUN_IF_NO_JOB σ = (r, σ') →
  at_most_one (allocations σ) → at_most_one (allocations σ').
Proof.
  intros Hrun Hone. destruct (run_pages RUN_IF_NO_JOB σ) as (_ & _ & cs & _ & Ha).
  rewrite Hrun in Ha. cbn [snd] in Ha. rewrite Ha.
  by apply pages_after_at_most_one.
Qed.

End Frames.

(** ** Calls one after the other *)

Section Compose.

Context {F : Type} `{PyFloat F}.
Implicit Types (σ : notion F) (l m : list (page F)) (p q : page F) (c : call F).

Lemma first_match_head c l i :
  first_match c l = Some i →
  ∃ p rest, matching (c_task c) (c_week c) l = (i, p) :: rest ∧ l !! i = Some p.
Proof.
  unfold first_match.
  destruct (matching (c_task c) (c_week c) l) as [|[i' p] rest] eqn:Hq; [done|].
  intros [= ->]. exists p, rest. split; [done|].
  eapply (elem_of_matching (c_task c) (c_week c)). rewrite Hq. by left.
Qed.

Lemma frame_new c1 c2 :
  c_task c1 = c_task c2 → c_week c1 = c_week c2 →
  c_name c1 = c_name c2 → c_label c1 = c_label c2 →
  frame (new_allocation c1) = frame (new_allocation c2).
Proof.
  intros Ht Hw Hn Hl. unfold frame, new_allocation. rewrite Ht, Hw, Hn, Hl.
  apply map_eq. intros k. destruct (decide (k = P_PLANNED)) as [->|Hk].
  - by rewrite !lookup_delete_eq.
  - rewrite !lookup_delete_ne by done.
    destruct (decide (k = "Name")) as [->|?]; [by rewrite !lookup_insert_eq|].
    rewrite !(lookup_insert_ne _ "Name") by done.
    destruct (decide (k = "Task")) as [->|?]; [by rewrite !lookup_insert_eq|].
    rewrite !(lookup_insert_ne _ "Task") by done.
    destruct (decide (k = "Week")) as [->|?]; [by rewrite !lookup_insert_eq|].
    rewrite !(lookup_insert_ne _ "Week") by done.
    by rewrite !lookup_singleton_ne.
Qed.

Lemma new_planned c :
  new_allocation c !! P_PLANNED = Some (PNumber (f_round2 (c_hours c))).
Proof. unfold new_allocation. by rewrite 3!lookup_insert_ne, lookup_singleton_eq. Qed.

(** Two calls for the same task and week, one after the other, leave the
    pages that the second leaves alone. *)
Lemma upsert_pages_twice c1 c2 l :
  c_task c1 = c_task c2 → c_week c1 = c_week c2 →
  c_name c1 = c_name c2 → c_label c1 = c_label c2 →
  (upsert_pages c2 (upsert_pages c1 l).2).1.1 = Updated
  ∧ (upsert_pages c2 (upsert_pages c1 l).2).2 = (upsert_pages c2 l).2.
Proof.
  intros Ht Hw Hn Hl.
  assert (∀ m, first_match c2 m = first_match c1 m) as Hfm
    by (intros m; unfold first_match; by rewrite Ht, Hw).
  destruct (upsert_target c1 l) as (i & p & Hi & Hp & _).
  unfold upsert_pages at 1 3. rewrite Hfm, Hi. cbn [fst snd]. split; [done|].
  unfold upsert_pages in *. rewrite Hfm.
  pose proof (upsert_extends c1 l) as Hext. unfold upsert_pages in Hext.
  destruct (first_match c1 l) as [i'|] eqn:Hm; cbn [snd] in *.
  - rewrite (first_match_extends _ _ _ _ Hext Hm) in Hi. injection Hi as <-.
    apply list_eq. intros k. destruct (decide (i' = k)) as [->|Hk].
    + rewrite !list_lookup_alter_eq. destruct (l !! k) as [q|]; [|done].
      change (Some (hours_patch c2 ∪ (hours_patch c1 ∪ q)) = Some (hours_patch c2 ∪ q)).
      f_equal. apply patch_frame, frame_patch.
    + by rewrite !list_lookup_alter_ne.
  - apply first_match_lt in Hi as Hlt.
    assert (i = length l) as ->.
    { destruct (decide (i < length l)%nat) as [Hil|Hil].
      - exfalso. apply first_match_matches in Hi as (q & Hq & Hmq).
        rewrite lookup_app_l in Hq by done.
        apply first_match_None in Hm. rewrite Forall_forall in Hm.
        apply (Hm q); [by eapply list_elem_of_lookup_2|done].
      - rewrite length_app in Hlt. simpl in Hlt. lia. }
    apply list_eq. intros k. destruct (decide (length l = k)) as [<-|Hk].
    + rewrite list_lookup_alter_eq, !lookup_app_r, Nat.sub_diag by done.
      change (Some (hours_patch c2 ∪ new_allocation c1) = Some (new_allocation c2)).
      f_equal. rewrite (patch_frame c2 _ (new_allocation c2)) by by apply frame_new.
      apply patch_same, new_planned.
    + rewrite list_lookup_alter_ne by done.
      destruct (decide (k < length l)%nat).
      * by rewrite !lookup_app_l.
      * rewrite !lookup_app_r by lia.
        destruct (k - length l)%nat as [|d] eqn:Hd; [lia|done].
Qed.

(** X10. After [upsert_allocation] the query for the task and the week has
    a result, and its first result, the page that a next call would update,
    has the planned hours [round(hours, 2)]. *)
Theorem upsert_allocation_then_query task_id task_name week_id week_label hours σ :
  ∃ i p rest,
    matching task_id week_id
      (allocations (upsert_allocation task_id task_name week_id week_label hours σ).2)
    = (i, p) :: rest
    ∧ p !! P_PLANNED = Some (PNumber (f_round2 hours)).
Proof.
  set (c := {| c_task := task_id; c_name := task_name; c_week := week_id;
               c_label := week_label; c_hours := hours |}).
  change (upsert_allocation _ _ _ _ _) with (call_upsert c).
  rewrite upsert_allocation_pages. cbn [snd allocations].
  destruct (upsert_target c (allocations σ)) as (i & p & Hi & Hp & Hh).
  apply first_match_head in Hi as (p' & rest & Hq & Hp').
  exists i, p', rest. split; [done|].
  rewrite Hp in Hp'. injection Hp' as <-. exact Hh.
Qed.

(** X11. The last call wins: two calls of [upsert_allocation] for the same
    task and week, with the same name and label, leave the Allocations
    database as the second call alone leaves it, and the second call
    returns "updated"; with the same hours the second call changes
    nothing. *)
Theorem upsert_allocation_last_wins
    task_id task_name week_id week_label h1 h2 σ :
  let σ1 := (upsert_allocation task_id task_name week_id week_label h1 σ).2 in
  ∃ σ2,
    upsert_allocation task_id task_name week_id week_label h2 σ1 = (inr Updated, σ2)
    ∧ allocations σ2
      = allocations (upsert_allocation task_id task_name week_id week_label h2 σ).2
    ∧ (h1 = h2 → allocations σ2 = allocations σ1).
Proof.
  set (c1 := {| c_task := task_id; c_name := task_name; c_week := week_id;
                c_label := week_label; c_hours := h1 |}).
  set (c2 := {| c_task := task_id; c_name := task_name; c_week := week_id;
                c_label := week_label; c_hours := h2 |}).
  change (upsert_allocation _ _ _ _ h1) with (call_upsert c1).
  change (upsert_allocation _ _ _ _ h2) with (call_upsert c2).
  cbv zeta. rewrite !upsert_allocation_pages. cbn [snd allocations].
  destruct (upsert_pages_twice c1 c2 (allocations σ)) as [Hr Hp]; [done..|].
  eexists. split; [by rewrite Hr|]. cbn [allocations].
  split; [done|]. intros ->. by rewrite Hp.
Qed.

End Compose.

(** ** Buckets and errors *)

Section Buckets.

Implicit Types (dt cur until start due : datetime).

Lemma first_monday_snap start :
  weekday start ≠ 0 →
  toordinal (first_monday start) = toordinal start + (7 - weekday start).
Proof.
  intros Hw. pose proof (weekday_range start).
  unfold first_monday. cbn [toordinal]. rewrite Z.mod_small by lia. done.
Qed.

Lemma mondays_between_overflow start due :
  MAXORD < toordinal (first_monday start) → toordinal start ≤ MAXORD →
  mondays_between start due = inl OverflowError.
Proof.
  intros Hfm Hs. unfold mondays_between.
  destruct (weekday start =? 0) eqn:Hw.
  - apply Z.eqb_eq in Hw. rewrite first_monday_of_monday in Hfm by done. lia.
  - apply Z.eqb_neq in Hw. cbn [negb].
    rewrite plus_days_overflow; [done|]. by rewrite <- first_monday_snap.
Qed.

Lemma aware_eqb (a b : bool) : negb (Bool.eqb a b) = bool_decide (a ≠ b).
Proof. by destruct a, b. Qed.

(** When [mondays_between] returns and when it raises. *)
Lemma mondays_between_outcome start due :
  1 ≤ toordinal start ≤ MAXORD →
  (∃ ws, mondays_between start due = inr ws)
  ↔ toordinal (first_monday start) ≤ MAXORD ∧ aware start = aware due.
Proof.
  intros [Hlo Hhi]. split.
  - intros [ws Hws].
    destruct (decide (toordinal (first_monday start) ≤ MAXORD)) as [Hfm|Hfm].
    + split; [done|]. rewrite mondays_between_rule in Hws by done.
      rewrite aware_eqb in Hws.
      destruct (decide (aware start = aware due)); [done|].
      by rewrite bool_decide_eq_true_2 in Hws.
    + rewrite mondays_between_overflow in Hws by lia. done.
  - intros [Hfm Haw].
    destruct (mondays_between_list start due Haw Hlo Hfm) as (K & -> & _). eauto.
Qed.

(** X12. How [mondays_between] fails, for a start in the calendar.  When
    the Monday after a start that is no Monday is past the last day of year
    9999, the snap raises OverflowError; otherwise, when one of start and
    due is aware and the other naive, the rule raises ValueError; otherwise
    the buckets are listed. *)
Theorem mondays_between_errors start due :
  1 ≤ toordinal start ≤ MAXORD →
  (MAXORD < toordinal (first_monday start) →
     weekday start ≠ 0 ∧ mondays_between start due = inl OverflowError)
  ∧ (toordinal (first_monday start) ≤ MAXORD → aware start ≠ aware due →
       mondays_between start due = inl ValueError)
  ∧ (toordinal (first_monday start) ≤ MAXORD → aware start = aware due →
       ∃ ws, mondays_between start due = inr ws).
Proof.
  intros [Hlo Hhi]. split_and!.
  - intros Hfm. split; [|apply mondays_between_overflow; lia].
    intros Hw. rewrite first_monday_of_monday in Hfm by done. lia.
  - intros Hfm Haw. rewrite mondays_between_rule by done.
    by rewrite aware_eqb, bool_decide_eq_true_2.
  - intros Hfm Haw. apply mondays_between_outcome; done.
Qed.

(** X13. The buckets of [mondays_between]: each is a Monday of the
    calendar, not before the day of start and not after due, at the time of
    day and with the offset of start, its microsecond dropped, and each is
    seven days after the one before. *)
Theorem mondays_between_buckets start due ws :
  1 ≤ toordinal start ≤ MAXORD →
  mondays_between start due = inr ws →
  (∀ w, w ∈ ws →
     weekday w = 0
     ∧ toordinal start ≤ toordinal w ≤ MAXORD
     ∧ instant w ≤ instant due
     ∧ second_of_day w = second_of_day start
     ∧ microsecond w = 0
     ∧ utcoffset w = utcoffset start)
  ∧ (∀ i w w', ws !! i = Some w → ws !! S i = Some w' → w' = shift w 7).
Proof.
  intros [Hlo Hhi] Hws.
  destruct (proj1 (mondays_between_outcome start due (conj Hlo Hhi)))
    as [Hfm Haw]; [eauto|].
  destruct (mondays_between_list start due Haw Hlo Hfm) as (K & HK & Hmem).
  rewrite HK in Hws. injection Hws as <-.
  pose proof (first_monday_range start) as Hr.
  split.
  - intros w (k & -> & Hk)%list_elem_of_fmap.
    apply elem_of_seq in Hk. destruct (proj1 (Hmem k)) as [Hin Hle]; [lia|].
    split_and!; try done.
    + rewrite weekday_shift. apply first_monday_weekday.
    + unfold shift. cbn [toordinal]. lia.
  - intros i w w'. rewrite !list_lookup_fmap.
    destruct (seq 0 K !! i) as [k|] eqn:Hk; [|done].
    destruct (seq 0 K !! S i) as [k'|] eqn:Hk'; [|done].
    apply lookup_seq in Hk as [-> _]. apply lookup_seq in Hk' as [-> _].
    cbn [fmap option_fmap option_map]. intros [= <-] [= <-].
    rewrite shift_shift. f_equal. lia.
Qed.

Lemma instant_date_only dt : date_only dt → instant dt = toordinal dt * 86400000000.
Proof. intros (Hs & Hm & Hu). unfold instant. rewrite Hs, Hm, Hu. simpl. lia. Qed.

(** X14. The number of buckets of a task whose Start and Due are dates
    without a time: one for the first Monday on or after Start and one more
    for every seven full days from it to Due, and one, the fallback, when
    Due is before that Monday. *)
Theorem task_weeks_count start due :
  date_only start → date_only due →
  1 ≤ toordinal start → toordinal due ≤ MAXORD →
  toordinal (first_monday start) ≤ MAXORD →
  ∃ ws, task_weeks start due = inr ws
        ∧ Z.of_nat (length ws)
          = Z.max 1 ((toordinal due - toordinal (first_monday start)) / 7 + 1).
Proof.
  intros Hs Hd Hlo Hdue Hfm.
  assert (aware start = aware due) as Haw.
  { destruct Hs as (_ & _ & Hs), Hd as (_ & _ & Hd). unfold aware. by rewrite Hs, Hd. }
  destruct (mondays_between_list start due Haw Hlo Hfm) as (K & HK & Hmem).
  assert (date_only (first_monday start)) as Hfd.
  { destruct Hs as (? & ? & ?). by split_and!. }
  assert (∀ k : nat, (k < K)%nat ↔
            toordinal (first_monday start) + 7 * Z.of_nat k ≤ toordinal due) as Hk.
  { intros k. rewrite Hmem, instant_shift, !instant_date_only by done. lia. }
  set (fm := toordinal (first_monday start)) in *.
  assert (Z.of_nat K = Z.max 0 ((toordinal due - fm) / 7 + 1)) as HKv.
  { destruct (decide (fm ≤ toordinal due)) as [Hle|Hgt].
    - pose proof (Z.div_pos (toordinal due - fm) 7 ltac:(lia) ltac:(lia)) as Hq.
      pose proof (Z.div_mod (toordinal due - fm) 7 ltac:(lia)) as Hdm.
      pose proof (Z.mod_pos_bound (toordinal due - fm) 7 ltac:(lia)) as Hmb.
      set (q := (toordinal due - fm) / 7) in *.
      pose proof (Hk (Z.to_nat q)) as H1. pose proof (Hk (S (Z.to_nat q))) as H2.
      rewrite Z2Nat.id in H1 by lia.
      rewrite Nat2Z.inj_succ, Z2Nat.id in H2 by lia.
      lia.
    - pose proof (Hk 0%nat) as H0.
      assert ((toordinal due - fm) / 7 < 0) by (apply Z.div_lt_upper_bound; lia).
      lia. }
  unfold task_weeks. rewrite HK.
  destruct K as [|K].
  - exists [start]. split; [done|]. simpl length. lia.
  - exists ((λ k : nat, shift (first_monday start) (7 * Z.of_nat k)) <$> seq 0 (S K)).
    split; [reflexivity|]. rewrite length_fmap, length_seq. lia.
Qed.

End Buckets.

Section Returns.

Context {F : Type} `{PyFloat F}.
Implicit Types (σ : notion F) (c : call F).

Lemma task_weeks_outcome start due :
  (∃ ws, task_weeks start due = inr ws) ↔ (∃ ws, mondays_between start due = inr ws).
Proof.
  unfold task_weeks. destruct (mondays_between start due) as [e|[|w ws]];
    split; intros [ws' Hws]; try done; eauto.
Qed.

Lemma tasks_calls_returns idx_by_title idx_by_date (ts : list (task_page F)) :
  (tasks_calls idx_by_title idx_by_date ts).2 = None
  ↔ Forall (λ t, ∃ cs, task_calls idx_by_title idx_by_date t = inr cs) ts.
Proof.
  induction ts as [|t ts IH]; [done|].
  cbn [tasks_calls]. rewrite Forall_cons, <- IH.
  destruct (task_calls idx_by_title idx_by_date t) as [e|cs].
  - split; [done|]. by intros [[? ?] _].
  - destruct (tasks_calls idx_by_title idx_by_date ts) as [cs' err]. cbn [snd].
    split; [eauto|tauto].
Qed.

(** X15. [run] returns, when it has a job or runs without one, exactly when
    the dates of every Activity are fit: Start and Due both aware or both
    naive, and the first Monday on or after Start in the calendar.  One
    task with a date alone as Start and a date with time and offset as Due
    aborts the run for all. *)
Theorem run_returns RUN_IF_NO_JOB σ :
  is_Some (head (queued (jobs σ))) ∨ RUN_IF_NO_JOB = true →
  (∀ t s, t ∈ activities σ → task_start t = Some s → 1 ≤ toordinal s ≤ MAXORD) →
  (∃ s σ', run RUN_IF_NO_JOB σ = (inr s, σ'))
  ↔ (∀ t s e, t ∈ activities σ → task_start t = Some s → task_due t = Some e →
       aware s = aware e ∧ toordinal (first_monday s) ≤ MAXORD).
Proof.
  intros Hgo Hvalid. rewrite run_trace by done. cbv zeta.
  assert ((run_calls σ).2 = None ↔
          ∀ t s e, t ∈ activities σ → task_start t = Some s → task_due t = Some e →
            aware s = aware e ∧ toordinal (first_monday s) ≤ MAXORD) as <-.
  { unfold run_calls. rewrite tasks_calls_returns, Forall_forall.
    split.
    - intros Hall t s e Ht Hs He. specialize (Hall t Ht) as [cs Hcs].
      unfold task_calls in Hcs. rewrite Hs, He in Hcs.
      destruct (task_weeks s e) as [|ws] eqn:Hws; [done|].
      destruct (proj1 (task_weeks_outcome s e)) as [ws' Hws']; [eauto|].
      destruct (proj1 (mondays_between_outcome s e (Hvalid t s Ht Hs))); [eauto|].
      done.
    - intros Hall t Ht.
      pose proof (activities_dated σ) as Hd. rewrite Forall_forall in Hd.
      destruct (Hd t Ht) as [[s Hs] [e He]].
      destruct (Hall t s e Ht Hs He) as [Haw Hfm].
      destruct (proj2 (task_weeks_outcome s e)) as [ws Hws].
      { apply mondays_between_outcome; [by eapply Hvalid|done]. }
      unfold task_calls. rewrite Hs, He, Hws. eauto. }
  destruct (run_calls σ).2 as [e|].
  - split; [by intros (? & ? & ?)|done].
  - split; [done|]. eauto.
Qed.

End Returns.

(** ** Bounds on the split *)

(** X17. In double precision, for every estimate of a whole number of
    hundredths from 0.01 to 100.00 hours over 1 to 53 buckets, the last
    bucket is within [(n - 1) * 0.005 + 1e-9] hours of the even share
    [H / n], and the hours as they go to [upsert_allocation], the buckets
    before the last not rounded, add up to the estimate within as much. *)
Theorem last_bucket_within (k : Z) (n : nat) :
  1 ≤ k ≤ 10000 → (1 ≤ n ≤ 53)%nat →
  let H := hundredths_of k in
  let share := (H / Binary64.of_Z (Z.of_nat n))%float in
  let slack := (Binary64.of_Z (Z.of_nat n - 1) * 0.005 + 1e-9)%float in
  PrimFloat.leb (PrimFloat.abs (bucket_hours H (Z.of_nat n) (n - 1) - share)) slack
  = true
  ∧ PrimFloat.leb (PrimFloat.abs (f_sum (emitted_hours H n) - H)) slack = true.
Proof.
  intros Hk Hn.
  assert (split_ok k n = true) as Hok.
  { apply (split_ok_upto_spec _ _ _ split_checked); [|done].
    rewrite Z2Nat.id by lia. lia. }
  destruct (split_ok_program k n (proj1 Hn) Hok) as (_ & _ & Hl & He). done.
Qed.

(** The last bucket can be negative: 0.06 hours over ten weeks give nine
    buckets that are persisted as 0.01 and a last one of -0.03. *)
Example last_bucket_negative :
  f_round2 <$> emitted_hours 0.06%float 10
  = [0.01; 0.01; 0.01; 0.01; 0.01; 0.01; 0.01; 0.01; 0.01; -0.03]%float.
Proof. vm_compute. reflexivity. Qed.

(** ** Result pages *)

Section Pagination.

Context {A St : Type}.
Implicit Types (query : option string → response A) (body : St → list A → St).

Lemma truthy_Some (s : string) : s ≠ "" → truthy (Some s) = true.
Proof. intros Hs. unfold truthy. by apply negb_true_iff, String.eqb_neq. Qed.

(** The loop takes the result pages one after the other, one query for
    each. *)
Lemma query_all_serves query body cursor chunks :
  serves query cursor chunks →
  cursor = None ∨ truthy cursor = true →
  ∀ fuel acc,
    query_all fuel query body cursor acc
    = if decide (length chunks ≤ fuel)%nat then Some (fold_left body chunks acc)
      else None.
Proof.
  assert (∀ c, c = None ∨ truthy c = true →
               (if truthy c then query c else query None) = query c) as Hq.
  { intros c [->| ->]; done. }
  induction 1 as [c Hlast|c c' chunks Hmore Hnext Hc' Hserves IH];
    intros Hc [|fuel] acc; cbn [query_all length]; try done.
  - rewrite Hq, Hlast by done. cbn [negb fold_left].
    by rewrite decide_True by lia.
  - rewrite Hq, Hmore, Hnext by done. cbn [negb fold_left].
    rewrite IH by (right; by apply truthy_Some).
    destruct (decide (length chunks ≤ fuel)%nat).
    + by rewrite decide_True by lia.
    + by rewrite decide_False by lia.
Qed.

(** X18. A response that has more and gives no cursor, or an empty one,
    sends the loop back to the first result page: it takes that page again
    and again and never ends. *)
Theorem query_all_restarts query body :
  has_more (query None) = true →
  truthy (next_cursor (query None)) = false →
  ∀ fuel acc, query_all fuel query body None acc = None.
Proof.
  intros Hmore Hnext.
  assert (∀ fuel c acc, truthy c = false → query_all fuel query body c acc = None)
    as Hloop.
  { induction fuel as [|fuel IH]; intros c acc Hc; [done|].
    cbn [query_all]. rewrite Hc, Hmore. cbn [negb]. by apply IH. }
  intros fuel acc. by apply Hloop.
Qed.

End Pagination.

Lemma fold_index_concat (chunks : list (list week_page)) idx :
  fold_left (λ idx rs, fold_left index_step rs idx) chunks idx
  = fold_left index_step (concat chunks) idx.
Proof.
  revert idx. induction chunks as [|ch chunks IH]; intros idx; [done|].
  cbn [fold_left concat]. by rewrite IH, fold_left_app.
Qed.

Lemma fold_app_concat {A} (chunks : list (list A)) (acc : list A) :
  fold_left (λ tasks rs, tasks ++ rs) chunks acc = acc ++ concat chunks.
Proof.
  revert acc. induction chunks as [|ch chunks IH]; intros acc.
  - by rewrite app_nil_r.
  - cbn [fold_left concat]. by rewrite IH, app_assoc.
Qed.

(** X19. The two loops over result pages read all of them, in order, with
    one query for each: when the database serves its pages in the chunks
    [chunks], linked by cursors that are not empty, [fetch_weeks_index]
    ends with the index of all the week pages and the loop of [run] with
    the list of all the tasks, as if the query had returned them at once. *)
Theorem query_all_pages {F} (weeks_query : option string → response week_page)
    (tasks_query : option string → response (task_page F)) week_chunks task_chunks :
  serves weeks_query None week_chunks →
  serves tasks_query None task_chunks →
  (∀ fuel, fetch_weeks_pages fuel weeks_query
           = if decide (length week_chunks ≤ fuel)%nat
             then Some (index_weeks (concat week_chunks)) else None)
  ∧ (∀ fuel, fetch_tasks_pages fuel tasks_query
             = if decide (length task_chunks ≤ fuel)%nat
               then Some (concat task_chunks) else None).
Proof.
  intros Hw Ht. split; intros fuel.
  - unfold fetch_weeks_pages. rewrite (query_all_serves _ _ _ _ Hw) by by left.
    by rewrite fold_index_concat, index_weeks_fold.
  - unfold fetch_tasks_pages. rewrite (query_all_serves _ _ _ _ Ht) by by left.
    by rewrite fold_app_concat.
Qed.

(** ** ISO weeks *)

Section IsoWeeks.

Lemma ord2ymd_year o : (ord2ymd o).1.1 = ord2year o.
Proof.
  unfold ord2ymd, ord2year. cbv zeta.
  destruct (_ || _); [done|].
  by destruct (_ <? _).
Qed.

Lemma days_before_year_step y :
  days_before_year (y + 1) - days_before_year y = 365
  ∨ days_before_year (y + 1) - days_before_year y = 366.
Proof. unfold days_before_year. cbv zeta. Z.div_mod_to_equations. lia. Qed.

Lemma ord2year_spec o :
  1 ≤ o → days_before_year (ord2year o) < o ≤ days_before_year (ord2year o + 1).
Proof.
  intros Ho. unfold ord2year, days_before_year, DI400Y, DI100Y, DI4Y. cbv zeta.
  destruct (_ || _) eqn:Hb.
  - apply orb_true_iff in Hb. rewrite !Z.eqb_eq in Hb. Z.div_mod_to_equations. lia.
  - apply orb_false_iff in Hb. rewrite !Z.eqb_neq in Hb. Z.div_mod_to_equations. lia.
Qed.

Lemma ymd2ord_jan1 y : ymd2ord y 1 1 = days_before_year y + 1.
Proof.
  unfold ymd2ord, days_before_month.
  change (nth (Z.to_nat (1 - 1)) DAYS_BEFORE_MONTH 0) with 0.
  change ((2 <? 1) && is_leap y) with false. cbv iota. lia.
Qed.

(** The Monday that starts ISO week 1 is a Monday, within three days of
    the first of January. *)
Lemma isoweek1monday_spec y :
  (isoweek1monday y + 6) mod 7 = 0
  ∧ days_before_year y - 2 ≤ isoweek1monday y ≤ days_before_year y + 4.
Proof.
  unfold isoweek1monday. cbv zeta. rewrite ymd2ord_jan1.
  generalize (days_before_year y). intros d.
  destruct (3 <? _) eqn:Hw; [apply Z.ltb_lt in Hw|apply Z.ltb_ge in Hw];
    Z.div_mod_to_equations; lia.
Qed.

Lemma isoweek1monday_step y :
  isoweek1monday y + 364 ≤ isoweek1monday (y + 1).
Proof.
  pose proof (isoweek1monday_spec y) as [Hm Hr].
  pose proof (isoweek1monday_spec (y + 1)) as [Hm' Hr'].
  pose proof (days_before_year_step y).
  Z.div_mod_to_equations. lia.
Qed.

Lemma isoweek1monday_mono y y' : y ≤ y' → isoweek1monday y ≤ isoweek1monday y'.
Proof.
  intros Hy. replace y' with (y + Z.of_nat (Z.to_nat (y' - y))) by lia.
  induction (Z.to_nat (y' - y)) as [|k IH]; [by rewrite Z.add_0_r|].
  pose proof (isoweek1monday_step (y + Z.of_nat k)).
  replace (y + Z.of_nat (S k)) with (y + Z.of_nat k + 1) by lia. lia.
Qed.

Lemma isocalendar_eq dt :
  isocalendar dt =
  let today := toordinal dt in
  let year := ord2year today in
  let week := (today - isoweek1monday year) / 7 in
  if week <? 0 then (year - 1, (today - isoweek1monday (year - 1)) / 7 + 1)
  else if (52 <=? week) && (isoweek1monday (year + 1) <=? today) then (year + 1, 1)
  else (year, week + 1).
Proof.
  unfold isocalendar. cbv zeta. rewrite <- ord2ymd_year.
  by destruct (ord2ymd (toordinal dt)) as [[y m] d].
Qed.

(** The ISO year and week of a day give the Monday of its week, and the
    ISO year is the one whose weeks hold the day. *)
Lemma isocalendar_spec dt :
  1 ≤ toordinal dt →
  isoweek1monday (isocalendar dt).1 + 7 * ((isocalendar dt).2 - 1)
  = toordinal dt - weekday dt
  ∧ isoweek1monday (isocalendar dt).1 ≤ toordinal dt
    < isoweek1monday ((isocalendar dt).1 + 1)
  ∧ 1 ≤ (isocalendar dt).2 ≤ 53.
Proof.
  intros Ho. rewrite isocalendar_eq. cbv zeta. unfold weekday.
  set (o := toordinal dt) in *. set (y := ord2year o).
  pose proof (ord2year_spec o Ho) as Hy. fold y in Hy.
  pose proof (isoweek1monday_spec (y - 1)) as [Hm0 Hr0].
  pose proof (isoweek1monday_spec y) as [Hm1 Hr1].
  pose proof (isoweek1monday_spec (y + 1)) as [Hm2 Hr2].
  pose proof (isoweek1monday_spec (y + 1 + 1)) as [Hm3 Hr3].
  pose proof (days_before_year_step (y - 1)) as Hs0.
  pose proof (days_before_year_step y) as Hs1.
  pose proof (days_before_year_step (y + 1)) as Hs2.
  replace (y - 1 + 1) with y in * by lia.
  destruct (_ <? 0) eqn:Hneg; [apply Z.ltb_lt in Hneg|apply Z.ltb_ge in Hneg].
  - cbn [fst snd]. replace (y - 1 + 1) with y by lia.
    Z.div_mod_to_equations. lia.
  - destruct (_ && _) eqn:Hb.
    + apply andb_true_iff in Hb as [H52 Hge].
      apply Z.leb_le in H52, Hge. cbn [fst snd].
      Z.div_mod_to_equations. lia.
    + cbn [fst snd].
      apply andb_false_iff in Hb. rewrite Z.leb_gt, Z.leb_gt in Hb.
      Z.div_mod_to_equations. lia.
Qed.

(** Two days have the same ISO year and week exactly when they are in the
    same week, Monday to Sunday. *)
Lemma isocalendar_same_week dt dt' :
  1 ≤ toordinal dt → 1 ≤ toordinal dt' →
  isocalendar dt = isocalendar dt'
  ↔ toordinal dt - weekday dt = toordinal dt' - weekday dt'.
Proof.
  intros Ho Ho'.
  destruct (isocalendar_spec dt Ho) as (HA & HB & _).
  destruct (isocalendar_spec dt' Ho') as (HA' & HB' & _).
  split; [intros Heq; by rewrite <- HA, <- HA', Heq|].
  intros Hm.
  destruct (isocalendar dt) as [Y W], (isocalendar dt') as [Y' W'].
  cbn [fst snd] in *.
  assert (Y = Y') as <-; [|f_equal; lia].
  pose proof (isoweek1monday_spec Y) as [Hm1 _].
  pose proof (isoweek1monday_spec (Y + 1)) as [Hm2 _].
  pose proof (isoweek1monday_spec Y') as [Hm1' _].
  pose proof (isoweek1monday_spec (Y' + 1)) as [Hm2' _].
  unfold weekday in *.
  destruct (Z.lt_trichotomy Y Y') as [Hlt|[Heq|Hgt]]; [|done|].
  - pose proof (isoweek1monday_mono (Y + 1) Y' ltac:(lia)).
    exfalso. Z.div_mod_to_equations. lia.
  - pose proof (isoweek1monday_mono (Y' + 1) Y ltac:(lia)).
    exfalso. Z.div_mod_to_equations. lia.
Qed.

Lemma isocalendar_year_range dt :
  1 ≤ toordinal dt ≤ MAXORD → 1 ≤ (isocalendar dt).1 ≤ 9999.
Proof.
  intros [Hlo Hhi]. destruct (isocalendar_spec dt Hlo) as (_ & HB & _).
  set (Y := (isocalendar dt).1) in *.
  split.
  - destruct (decide (1 ≤ Y)); [done|].
    pose proof (isoweek1monday_mono (Y + 1) 1 ltac:(lia)) as Hmono.
    change (isoweek1monday 1) with 1 in Hmono. lia.
  - destruct (decide (Y ≤ 9999)); [done|].
    pose proof (isoweek1monday_mono 10000 Y ltac:(lia)) as Hmono.
    change (isoweek1monday 10000) with 3652062 in Hmono.
    unfold MAXORD in Hhi. lia.
Qed.

(** *** Decimal fields *)

Lemma append_inj (a a' b b' : string) :
  String.length a = String.length a' → a +:+ b = a' +:+ b' → a = a' ∧ b = b'.
Proof.
  revert a'. induction a as [|c a IH]; intros [|c' a'] Hl Heq; try done.
  injection Heq as -> Heq. injection Hl as Hl.
  destruct (IH a' Hl Heq) as [-> ->]. done.
Qed.

Lemma length_append (a b : string) :
  String.length (a +:+ b) = (String.length a + String.length b)%nat.
Proof. induction a as [|c a IH]; [done|]. simpl. by rewrite IH. Qed.

Lemma length_zfill w n : String.length (zfill w n) = w.
Proof.
  revert n. induction w as [|w IH]; intros n; [done|].
  cbn [zfill]. rewrite length_append, IH. simpl. lia.
Qed.

Lemma digit_inj n n' : digit n = digit n' → n mod 10 = n' mod 10.
Proof.
  unfold digit. intros [= Hd].
  pose proof (Z.mod_pos_bound n 10 ltac:(lia)).
  pose proof (Z.mod_pos_bound n' 10 ltac:(lia)).
  apply (f_equal Ascii.nat_of_ascii) in Hd.
  rewrite !Ascii.nat_ascii_embedding in Hd by lia. lia.
Qed.

(** Two numbers of at most [w] digits with the same field are the same. *)
Lemma zfill_inj w : ∀ n n',
  0 ≤ n < 10 ^ Z.of_nat w → 0 ≤ n' < 10 ^ Z.of_nat w →
  zfill w n = zfill w n' → n = n'.
Proof.
  induction w as [|w IH]; intros n n' Hn Hn' Heq.
  { change (10 ^ Z.of_nat 0) with 1 in *. lia. }
  cbn [zfill] in Heq.
  apply append_inj in Heq as [Hhi Hlo]; [|by rewrite !length_zfill].
  apply digit_inj in Hlo.
  rewrite Nat2Z.inj_succ, Z.pow_succ_r in Hn, Hn' by lia.
  assert (n / 10 = n' / 10) as Hq.
  { apply IH; [| |done]; split;
      try (apply Z.div_pos; lia); apply Z.div_lt_upper_bound; lia. }
  rewrite (Z.div_mod n 10), (Z.div_mod n' 10) by lia. by rewrite Hq, Hlo.
Qed.

Lemma iso_week_label_eq dt :
  iso_week_label dt
  = zfill 4 (isocalendar dt).1 +:+ "-[W]" +:+ zfill 2 (isocalendar dt).2.
Proof. unfold iso_week_label. by destruct (isocalendar dt). Qed.

(** Two days of the calendar have the same label exactly when they are in
    the same week. *)
Lemma iso_week_label_week dt dt' :
  1 ≤ toordinal dt ≤ MAXORD → 1 ≤ toordinal dt' ≤ MAXORD →
  iso_week_label dt = iso_week_label dt'
  ↔ toordinal dt - weekday dt = toordinal dt' - weekday dt'.
Proof.
  intros Ho Ho'. rewrite <- isocalendar_same_week by lia.
  split; [|intros Heq; by rewrite !iso_week_label_eq, Heq].
  rewrite !iso_week_label_eq. intros Heq.
  pose proof (isocalendar_year_range dt Ho) as HY.
  pose proof (isocalendar_year_range dt' Ho') as HY'.
  destruct (isocalendar_spec dt (proj1 Ho)) as (_ & _ & HW).
  destruct (isocalendar_spec dt' (proj1 Ho')) as (_ & _ & HW').
  destruct (isocalendar dt) as [Y W], (isocalendar dt') as [Y' W'].
  cbn [fst snd] in *.
  apply append_inj in Heq as [HYeq Heq]; [|by rewrite !length_zfill].
  apply append_inj in Heq as [_ HWeq]; [|done].
  apply zfill_inj in HYeq; [|change (10 ^ Z.of_nat 4) with 10000; lia..].
  apply zfill_inj in HWeq; [|change (10 ^ Z.of_nat 2) with 100; lia..].
  congruence.
Qed.

End IsoWeeks.

(** ** Labels *)

(** X20. Two days of the calendar have the same label exactly when they
    are in the same week, Monday to Sunday: a day has the label of the
    Monday on or before it, the fallback bucket of a task that of the week
    of its Start, and two Mondays never share a label. *)
Theorem iso_week_label_same_week (dt dt' : datetime) :
  1 ≤ toordinal dt ≤ MAXORD → 1 ≤ toordinal dt' ≤ MAXORD →
  iso_week_label dt = iso_week_label dt'
  ↔ toordinal dt - weekday dt = toordinal dt' - weekday dt'.
Proof. apply iso_week_label_week. Qed.

(** X21. The buckets of a task have labels that differ from one another:
    no two buckets of a task look up the same title of the week index. *)
Theorem task_weeks_labels_distinct (start due : datetime) ws :
  1 ≤ toordinal start ≤ MAXORD →
  task_weeks start due = inr ws →
  NoDup (iso_week_label <$> ws).
Proof.
  intros [Hlo Hhi] Hws. unfold task_weeks in Hws.
  destruct (mondays_between start due) as [e|ms] eqn:Hms; [done|].
  destruct (proj1 (mondays_between_outcome start due (conj Hlo Hhi)))
    as [Hfm Haw]; [eauto|].
  destruct (mondays_between_list start due Haw Hlo Hfm) as (K & HK & Hmem).
  rewrite HK in Hms. injection Hms as <-.
  assert (NoDup (iso_week_label <$>
            ((λ k : nat, shift (first_monday start) (7 * Z.of_nat k)) <$> seq 0 K)))
    as Hnd.
  { rewrite <- list_fmap_compose. apply NoDup_fmap_2_strong; [|apply NoDup_seq].
    intros k k' Hk Hk' Heq. apply elem_of_seq in Hk, Hk'. cbn [compose] in Heq.
    pose proof (first_monday_range start) as Hr.
    destruct (proj1 (Hmem k)) as [Hin _]; [lia|].
    destruct (proj1 (Hmem k')) as [Hin' _]; [lia|].
    apply iso_week_label_week in Heq; [|unfold shift; cbn [toordinal]; lia..].
    rewrite !weekday_shift, first_monday_weekday in Heq.
    unfold shift in Heq. cbn [toordinal] in Heq. lia. }
  destruct K as [|K].
  - injection Hws as <-. cbn. apply NoDup_singleton.
  - injection Hws as <-. exact Hnd.
Qed.

(** ** Jobs, tasks and weeks *)

Section More.

Context {F : Type} `{PyFloat F}.
Implicit Types (σ : notion F) (c : call F).

(** X22. [first_queued_job] returns the first job, in the order of the
    query, that is of type Run Allocations and Queued, whatever comes
    after it, and None when there is no such job; it writes nothing. *)
Theorem first_queued_job_first σ r σ' :
  first_queued_job σ = (inr r, σ') →
  σ' = σ
  ∧ match r with
    | Some j =>
        ∃ before after,
          jobs σ = before ++ j :: after
          ∧ job_type j = "Run Allocations" ∧ job_status j = "Queued"
          ∧ Forall (λ k, ¬ (job_type k = "Run Allocations"
                            ∧ job_status k = "Queued")) before
    | None =>
        Forall (λ k, ¬ (job_type k = "Run Allocations" ∧ job_status k = "Queued"))
               (jobs σ)
    end.
Proof.
  unfold first_queued_job. intros [Hr <-]%pair_equal_spec. injection Hr as <-.
  split; [done|].
  destruct (head (queued (jobs σ))) as [j|] eqn:Hj.
  - by apply queued_head.
  - by apply queued_None.
Qed.

(** X23. With RUN_IF_NO_JOB and no queued job, [run] does the allocations
    all the same and touches no job: it writes to the Allocations database
    only, and the Jobs database is as it was. *)
Theorem run_if_no_job σ r σ' :
  Forall (λ k, ¬ (job_type k = "Run Allocations" ∧ job_status k = "Queued"))
         (jobs σ) →
  run true σ = (r, σ') →
  jobs σ' = jobs σ
  ∧ (∃ written, writes σ' = writes σ ++ written
                ∧ Forall (λ w, is_job w = false) written
                ∧ length written = length (run_calls σ).1)
  ∧ r = match (run_calls σ).2 with
        | Some e => inl e
        | None => inr (summary (exec (run_calls σ).1 (0, 0)%nat (allocations σ)).1.1)
        end.
Proof.
  intros Hj%queued_None. rewrite run_trace by by right. cbv zeta. rewrite Hj.
  destruct (exec_counts_writes (run_calls σ).1 (0, 0)%nat (allocations σ))
    as (_ & _ & Hjw & Hlen).
  cbn [job_set].
  destruct (run_calls σ).2; intros [<- <-]%pair_equal_spec; cbn [jobs writes];
    (split_and!; [done| |done]); eauto.
Qed.

Lemma resolved_hours idx_by_title idx_by_date (t : task_page F) n
    (l : list (nat * datetime)) :
  c_hours <$> omap (bucket_call idx_by_title idx_by_date t n) l
  = (λ iw, bucket_hours (default f_zero (task_number t)) n iw.1)
    <$> filter (λ iw, truthy (resolve_week idx_by_title idx_by_date iw.2)) l.
Proof.
  induction l as [|[i w] l IH]; [done|].
  change (omap ?f (?x :: ?xs))
    with (match f x with Some y => y :: omap f xs | None => omap f xs end).
  rewrite filter_cons. unfold bucket_call at 1. cbv zeta. cbn [fst snd].
  destruct (truthy (resolve_week idx_by_title idx_by_date w)) eqn:Hw.
  - rewrite decide_True by done. cbn [fmap list_fmap c_hours]. f_equal. exact IH.
  - rewrite decide_False by (by intros []). exact IH.
Qed.

Lemma task_weeks_nonempty s e ws : task_weeks s e = inr ws → ws ≠ [].
Proof.
  unfold task_weeks. destruct (mondays_between s e) as [|[|w l]]; [done|..];
    by intros [= <-].
Qed.

(** X24. What a task writes.  Each bucket that resolves to a week gets one
    write, in the order of the buckets, with the hours of its place among
    all the buckets of the task, rounded to two decimals; a bucket that
    does not resolve is passed over, and its hours go to no other bucket:
    the hours written then add up to less than the estimate. *)
Theorem run_task_writes idx_by_title idx_by_date counts (t : task_page F) σ s e ws :
  task_start t = Some s → task_due t = Some e →
  task_weeks s e = inr ws →
  ∃ counts' σ' written,
    run_task idx_by_title idx_by_date counts t σ = (inr counts', σ')
    ∧ writes σ' = writes σ ++ written
    ∧ planned <$> written
      = (λ iw, Some (PNumber (f_round2
                 (bucket_hours (default f_zero (task_number t))
                               (Z.of_nat (length ws)) iw.1))))
        <$> filter (λ iw, truthy (resolve_week idx_by_title idx_by_date iw.2))
                   (imap pair ws)
    ∧ (counts'.1 + counts'.2
       = counts.1 + counts.2
         + length (resolvable idx_by_title idx_by_date ws))%nat.
Proof.
  intros Hs He Hws.
  rewrite run_task_calls. unfold task_calls. rewrite Hs, He, Hws.
  assert (Z.max 1 (Z.of_nat (length ws)) = Z.of_nat (length ws)) as ->.
  { apply task_weeks_nonempty in Hws. destruct ws; [done|]. simpl length. lia. }
  set (cs := omap _ _).
  pose proof (resolved_hours idx_by_title idx_by_date t (Z.of_nat (length ws))
                (imap pair ws)) as Hcs. fold cs in Hcs.
  rewrite exec_calls_pure.
  do 3 eexists. split; [reflexivity|]. cbn [writes]. split; [reflexivity|].
  split.
  - rewrite exec_writes_planned.
    etrans; [exact (list_fmap_compose c_hours (λ x, Some (PNumber (f_round2 x))) _)|].
    rewrite Hcs. by rewrite <- list_fmap_compose.
  - rewrite exec_counts. f_equal.
    rewrite <- (length_fmap c_hours), Hcs, length_fmap.
    unfold resolvable.
    enough (∀ (g : nat → nat) l,
      length (filter (λ iw : nat * datetime,
                        truthy (resolve_week idx_by_title idx_by_date iw.2))
                     (imap (λ i w, (g i, w)) l))
      = length (filter (λ w, truthy (resolve_week idx_by_title idx_by_date w)) l))
      as Hg by exact (Hg id ws).
    intros g l. revert g. induction l as [|w l IH]; intros g; [done|].
    cbn [imap]. rewrite !filter_cons. cbn [snd].
    destruct (decide _); cbn [length]; [f_equal|]; exact (IH (g ∘ S)).
Qed.

End More.

Lemma iso_week_label_nonempty w : iso_week_label w ≠ "".
Proof.
  intros Heq. apply (f_equal String.length) in Heq.
  rewrite iso_week_label_eq, !length_append, !length_zfill in Heq. done.
Qed.

(** X25. The week of a bucket, when no week page has the text "Week Start"
    as its date: the last week page, in the order of the query, whose title
    is the label of the bucket, and none when no page has that title.  The
    Week Start of the pages plays no part. *)
Theorem resolve_week_by_title (pages : list week_page) (w : datetime) :
  Forall (λ p, week_start p ≠ Some P_WEEK_START) pages →
  resolve_week (index_weeks pages).1 (index_weeks pages).2 w
  = week_id <$> last (filter (λ p, title_of p = iso_week_label w) pages).
Proof.
  intros Hpages. rewrite resolve_week_label_only.
  - rewrite index_title_lookup. by rewrite decide_False by apply iso_week_label_nonempty.
  - rewrite index_date_lookup.
    replace (filter (λ p, week_start p = Some P_WEEK_START) pages) with (@nil week_page);
      [done|].
    symmetry. induction Hpages as [|p pages Hp _ IH]; [done|].
    rewrite filter_cons. by rewrite decide_False.
Qed.

(** ** The further theorems at an input *)

(** X2 on the scenario. *)
Lemma run_counts_writes_witness :
  let σ := Scenario.workspace (Some 10%float) in
  (is_Some (head (queued (jobs σ))) ∨ false = true)
  ∧ run false σ = (inr "Done (+3, ✎0)", (run false σ).2)
  ∧ ∃ written,
      writes (run false σ).2 = writes σ ++ written
      ∧ "Done (+3, ✎0)" = summary (creates written, updates written)
      ∧ length (allocations (run false σ).2)
        = (length (allocations σ) + creates written)%nat.
Proof.
  cbv zeta. split; [left; vm_compute; eauto|].
  split; [vm_compute; reflexivity|].
  apply (run_counts_writes false (Scenario.workspace (Some 10%float))
           "Done (+3, ✎0)").
  - left. vm_compute. eauto.
  - vm_compute. reflexivity.
Defined.

(** X3 on the scenario. *)
Lemma run_job_done_witness :
  let σ := Scenario.workspace (Some 10%float) in
  head (queued (jobs σ)) = Some Scenario.job
  ∧ run false σ = (inr "Done (+3, ✎0)", (run false σ).2)
  ∧ ∃ counts written,
      "Done (+3, ✎0)" = summary counts
      ∧ writes (run false σ).2
        = writes σ ++ [WJob "j1" "Running" None] ++ written
          ++ [WJob "j1" "Done" (Some (String.substring 0 1900 (job_note counts)))]
      ∧ Forall (λ w, is_job w = false) written
      ∧ jobs (run false σ).2
        = (λ k, if String.eqb (job_id k) "j1"
                then job_with "Done"
                       (Some (String.substring 0 1900 (job_note counts))) k
                else k) <$> jobs σ.
Proof.
  cbv zeta. split; [vm_compute; reflexivity|].
  split; [vm_compute; reflexivity|].
  apply (run_job_done false (Scenario.workspace (Some 10%float)) Scenario.job
           "Done (+3, ✎0)"); vm_compute; reflexivity.
Defined.

(** X4 on a workspace whose second task has a date as
    Start and a date with time and offset as Due. *)
Lemma run_abort_job_running_witness :
  let σ := Cases.mixed_workspace in
  head (queued (jobs σ)) = Some Scenario.job
  ∧ run false σ = (inl ValueError, (run false σ).2)
  ∧ (ValueError = OverflowError ∨ ValueError = ValueError)
  ∧ (∃ written,
       writes (run false σ).2 = writes σ ++ [WJob "j1" "Running" None] ++ written
       ∧ Forall (λ w, is_job w = false) written
       ∧ length written = length (run_calls σ).1)
  ∧ jobs (run false σ).2
    = (λ k, if String.eqb (job_id k) "j1" then job_with "Running" None k else k)
      <$> jobs σ.
Proof.
  cbv zeta. split; [vm_compute; reflexivity|].
  split; [vm_compute; reflexivity|].
  apply (run_abort_job_running false Cases.mixed_workspace Scenario.job ValueError);
    vm_compute; reflexivity.
Defined.

(** X6 on a workspace with an allocation page of an
    earlier run. *)
Lemma run_never_deletes_witness :
  let σ := Cases.stale_workspace in
  run false σ = (inr "Done (+3, ✎0)", (run false σ).2)
  ∧ master (run false σ).2 = master σ ∧ weeks (run false σ).2 = weeks σ
  ∧ (length (allocations σ) ≤ length (allocations (run false σ).2))%nat
  ∧ ∀ j p, allocations σ !! j = Some p →
      ∃ p', allocations (run false σ).2 !! j = Some p'
            ∧ ∀ name, name ≠ P_PLANNED → p' !! name = p !! name.
Proof.
  cbv zeta. split; [vm_compute; reflexivity|].
  apply (run_never_deletes false Cases.stale_workspace (inr "Done (+3, ✎0)")).
  vm_compute. reflexivity.
Defined.

(** X7 on that workspace: the page of week 52 stays
    with its 5 hours. *)
Lemma run_leaves_unmatched_witness :
  let σ := Cases.stale_workspace in
  run false σ = (inr "Done (+3, ✎0)", (run false σ).2)
  ∧ allocations σ !! 0%nat = Some Cases.stale
  ∧ Forall (λ c, ¬ matches (c_task c) (c_week c) Cases.stale) (run_calls σ).1
  ∧ allocations (run false σ).2 !! 0%nat = Some Cases.stale.
Proof.
  cbv zeta. split; [vm_compute; reflexivity|].
  split; [vm_compute; reflexivity|].
  assert (Forall (λ c, ¬ matches (c_task c) (c_week c) Cases.stale)
                 (run_calls Cases.stale_workspace).1) as Hun.
  { vm_compute. repeat constructor; intros []. }
  split; [exact Hun|].
  apply (run_leaves_unmatched false Cases.stale_workspace (inr "Done (+3, ✎0)")).
  - vm_compute. reflexivity.
  - vm_compute. reflexivity.
  - intros c Hc. revert c Hc. apply Forall_forall. exact Hun.
Defined.

(** X8 on the scenario: the first page created. *)
Lemma run_creates_linked_witness :
  let σ := Scenario.workspace (Some 10%float) in
  let p : page float :=
    {[ "Name" := PTitle "Report · 2026-[W]02"; "Task" := PRelation ["t1"];
       "Week" := PRelation ["w02"]; P_PLANNED := PNumber 3.33%float ]} in
  run false σ = (inr "Done (+3, ✎0)", (run false σ).2)
  ∧ allocations (run false σ).2 !! 0%nat = Some p
  ∧ (length (allocations σ) ≤ 0)%nat
  ∧ ∃ t wk, t ∈ master σ ∧ task_type t = "Activity"
            ∧ is_Some (task_start t) ∧ is_Some (task_due t)
            ∧ wk ∈ weeks σ
            ∧ p !! "Task" = Some (PRelation [task_id t])
            ∧ p !! "Week" = Some (PRelation [week_id wk])
            ∧ ∃ w, p !! "Name"
                   = Some (PTitle (name_of t +:+ " · " +:+ iso_week_label w)).
Proof.
  cbv zeta. split; [vm_compute; reflexivity|].
  split; [vm_compute; reflexivity|].
  split; [vm_compute; lia|].
  apply (run_creates_linked false (Scenario.workspace (Some 10%float))
           (inr "Done (+3, ✎0)")
           (run false (Scenario.workspace (Some 10%float))).2 0%nat).
  - vm_compute. reflexivity.
  - vm_compute. reflexivity.
  - vm_compute. lia.
Defined.

(** X9 on the scenario. *)
Lemma run_keeps_at_most_one_witness :
  let σ := Scenario.workspace (Some 10%float) in
  run false σ = (inr "Done (+3, ✎0)", (run false σ).2)
  ∧ at_most_one (allocations σ)
  ∧ at_most_one (allocations (run false σ).2).
Proof.
  cbv zeta. split; [vm_compute; reflexivity|].
  assert (at_most_one (allocations (Scenario.workspace (Some 10%float)))) as Hone.
  { intros task week. simpl. lia. }
  split; [exact Hone|].
  apply (run_keeps_at_most_one false (Scenario.workspace (Some 10%float))
           (inr "Done (+3, ✎0)")).
  - vm_compute. reflexivity.
  - exact Hone.
Defined.

(** X12 for a task from Tuesday 2026-01-06. *)
Lemma mondays_between_errors_witness :
  let start := midnight 2026 1 6 in
  let due := midnight 2026 1 21 in
  1 ≤ toordinal start ≤ MAXORD
  ∧ (MAXORD < toordinal (first_monday start) →
       weekday start ≠ 0 ∧ mondays_between start due = inl OverflowError)
  ∧ (toordinal (first_monday start) ≤ MAXORD → aware start ≠ aware due →
       mondays_between start due = inl ValueError)
  ∧ (toordinal (first_monday start) ≤ MAXORD → aware start = aware due →
       ∃ ws, mondays_between start due = inr ws).
Proof.
  cbv zeta. split; [vm_compute; split; discriminate|].
  apply (mondays_between_errors (midnight 2026 1 6) (midnight 2026 1 21)).
  vm_compute. split; discriminate.
Defined.

(** X13 for a task from Monday 2026-01-05 to
    Wednesday 2026-01-21. *)
Lemma mondays_between_buckets_witness :
  let start := midnight 2026 1 5 in
  let due := midnight 2026 1 21 in
  let ws := [midnight 2026 1 5; midnight 2026 1 12; midnight 2026 1 19] in
  1 ≤ toordinal start ≤ MAXORD
  ∧ mondays_between start due = inr ws
  ∧ (∀ w, w ∈ ws →
       weekday w = 0
       ∧ toordinal start ≤ toordinal w ≤ MAXORD
       ∧ instant w ≤ instant due
       ∧ second_of_day w = second_of_day start
       ∧ microsecond w = 0
       ∧ utcoffset w = utcoffset start)
  ∧ (∀ i w w', ws !! i = Some w → ws !! S i = Some w' → w' = shift w 7).
Proof.
  cbv zeta. split; [vm_compute; split; discriminate|].
  split; [vm_compute; reflexivity|].
  apply (mondays_between_buckets (midnight 2026 1 5) (midnight 2026 1 21)).
  - vm_compute. split; discriminate.
  - vm_compute. reflexivity.
Defined.

(** X14 for that task: three buckets. *)
Lemma task_weeks_count_witness :
  let start := midnight 2026 1 5 in
  let due := midnight 2026 1 21 in
  (date_only start ∧ date_only due ∧ 1 ≤ toordinal start
   ∧ toordinal due ≤ MAXORD ∧ toordinal (first_monday start) ≤ MAXORD)
  ∧ ∃ ws, task_weeks start due = inr ws
          ∧ Z.of_nat (length ws)
            = Z.max 1 ((toordinal due - toordinal (first_monday start)) / 7 + 1).
Proof.
  cbv zeta.
  assert (date_only (midnight 2026 1 5)) as Hs by (by split_and!).
  assert (date_only (midnight 2026 1 21)) as Hd by (by split_and!).
  split; [split_and!; try done; vm_compute; discriminate|].
  apply (task_weeks_count (midnight 2026 1 5) (midnight 2026 1 21));
    try done; vm_compute; discriminate.
Defined.

(** X15 on the scenario. *)
Lemma run_returns_witness :
  let σ := Scenario.workspace (Some 10%float) in
  (is_Some (head (queued (jobs σ))) ∨ false = true)
  ∧ (∀ t s, t ∈ activities σ → task_start t = Some s → 1 ≤ toordinal s ≤ MAXORD)
  ∧ ((∃ s σ', run false σ = (inr s, σ'))
     ↔ (∀ t s e, t ∈ activities σ → task_start t = Some s → task_due t = Some e →
          aware s = aware e ∧ toordinal (first_monday s) ≤ MAXORD)).
Proof.
  cbv zeta.
  assert (∀ (t : task_page float) s,
            t ∈ activities (Scenario.workspace (Some 10%float)) →
            task_start t = Some s → 1 ≤ toordinal s ≤ MAXORD) as Hvalid.
  { intros t s Ht Hs. vm_compute in Ht. apply list_elem_of_singleton in Ht.
    subst t. injection Hs as <-. vm_compute. split; discriminate. }
  split; [left; vm_compute; eauto|]. split; [exact Hvalid|].
  apply (run_returns false (Scenario.workspace (Some 10%float))).
  - left. vm_compute. eauto.
  - exact Hvalid.
Defined.

(** X17 for 10 hours over 3 buckets. *)
Lemma last_bucket_within_witness :
  (1 ≤ 1000 ≤ 10000 ∧ (1 ≤ 3 ≤ 53)%nat)
  ∧ let H := hundredths_of 1000 in
    let share := (H / Binary64.of_Z (Z.of_nat 3))%float in
    let slack := (Binary64.of_Z (Z.of_nat 3 - 1) * 0.005 + 1e-9)%float in
    PrimFloat.leb (PrimFloat.abs (bucket_hours H (Z.of_nat 3) (3 - 1) - share)) slack
    = true
    ∧ PrimFloat.leb (PrimFloat.abs (f_sum (emitted_hours H 3) - H)) slack = true.
Proof.
  split; [lia|].
  apply (last_bucket_within 1000 3%nat); lia.
Defined.

(** X18 on a database that has more and no cursor. *)
Lemma query_all_restarts_witness :
  (has_more (Cases.no_cursor None) = true
   ∧ truthy (next_cursor (Cases.no_cursor None)) = false)
  ∧ ∀ fuel acc,
      query_all fuel Cases.no_cursor
        (λ idx rs, fold_left index_step rs idx) None acc = None.
Proof.
  split; [split; reflexivity|].
  apply (query_all_restarts Cases.no_cursor); reflexivity.
Defined.

(** X19 on the Weeks database in two result pages. *)
Lemma query_all_pages_witness :
  let week_chunks := [results (Cases.weeks_in_two None);
                     results (Cases.weeks_in_two (Some "c1"))] in
  let task_chunks := [results (Cases.tasks_in_one None)] in
  (serves Cases.weeks_in_two None week_chunks
   ∧ serves Cases.tasks_in_one None task_chunks)
  ∧ (∀ fuel, fetch_weeks_pages fuel Cases.weeks_in_two
             = if decide (length week_chunks ≤ fuel)%nat
               then Some (index_weeks (concat week_chunks)) else None)
  ∧ (∀ fuel, fetch_tasks_pages fuel Cases.tasks_in_one
             = if decide (length task_chunks ≤ fuel)%nat
               then Some (concat task_chunks) else None).
Proof.
  cbv zeta.
  assert (serves Cases.weeks_in_two None
            [results (Cases.weeks_in_two None);
             results (Cases.weeks_in_two (Some "c1"))]) as Hw.
  { apply (serves_more _ None "c1"); [reflexivity|reflexivity|discriminate|].
    apply (serves_last _ (Some "c1")). reflexivity. }
  assert (serves Cases.tasks_in_one None [results (Cases.tasks_in_one None)]) as Ht.
  { apply (serves_last _ None). reflexivity. }
  split; [by split|].
  apply (query_all_pages Cases.weeks_in_two Cases.tasks_in_one); done.
Defined.

(** X20 for Wednesday 2026-01-07 and Monday
    2026-01-05. *)
Lemma iso_week_label_same_week_witness :
  let dt := midnight 2026 1 7 in
  let dt' := midnight 2026 1 5 in
  (1 ≤ toordinal dt ≤ MAXORD ∧ 1 ≤ toordinal dt' ≤ MAXORD)
  ∧ (iso_week_label dt = iso_week_label dt'
     ↔ toordinal dt - weekday dt = toordinal dt' - weekday dt').
Proof.
  cbv zeta. split; [vm_compute; split_and!; discriminate|].
  apply (iso_week_label_same_week (midnight 2026 1 7) (midnight 2026 1 5));
    vm_compute; split; discriminate.
Defined.

(** X21 for the task of the scenario. *)
Lemma task_weeks_labels_distinct_witness :
  let start := midnight 2026 1 5 in
  let due := midnight 2026 1 19 in
  let ws := [midnight 2026 1 5; midnight 2026 1 12; midnight 2026 1 19] in
  1 ≤ toordinal start ≤ MAXORD
  ∧ task_weeks start due = inr ws
  ∧ NoDup (iso_week_label <$> ws).
Proof.
  cbv zeta. split; [vm_compute; split; discriminate|].
  split; [vm_compute; reflexivity|].
  apply (task_weeks_labels_distinct (midnight 2026 1 5) (midnight 2026 1 19)).
  - vm_compute. split; discriminate.
  - vm_compute. reflexivity.
Defined.

(** X22 on the scenario. *)
Lemma first_queued_job_first_witness :
  let σ : notion float := Scenario.workspace (Some 10%float) in
  first_queued_job σ = (inr (Some Scenario.job), σ)
  ∧ σ = σ
  ∧ ∃ before after,
      jobs σ = before ++ Scenario.job :: after
      ∧ job_type Scenario.job = "Run Allocations"
      ∧ job_status Scenario.job = "Queued"
      ∧ Forall (λ k, ¬ (job_type k = "Run Allocations" ∧ job_status k = "Queued"))
               before.
Proof.
  cbv zeta. split; [reflexivity|].
  apply (first_queued_job_first (Scenario.workspace (Some 10%float))
           (Some Scenario.job)).
  reflexivity.
Defined.

(** X23 on the scenario without its job. *)
Lemma run_if_no_job_witness :
  let σ := Cases.jobless_workspace in
  Forall (λ k, ¬ (job_type k = "Run Allocations" ∧ job_status k = "Queued")) (jobs σ)
  ∧ run true σ = (inr "Done (+3, ✎0)", (run true σ).2)
  ∧ jobs (run true σ).2 = jobs σ
  ∧ (∃ written, writes (run true σ).2 = writes σ ++ written
                ∧ Forall (λ w, is_job w = false) written
                ∧ length written = length (run_calls σ).1)
  ∧ inr "Done (+3, ✎0)"
    = match (run_calls σ).2 with
      | Some e => inl e
      | None => inr (summary (exec (run_calls σ).1 (0, 0)%nat (allocations σ)).1.1)
      end.
Proof.
  cbv zeta. split; [constructor|].
  split; [vm_compute; reflexivity|].
  apply (run_if_no_job Cases.jobless_workspace (inr "Done (+3, ✎0)")).
  - constructor.
  - vm_compute. reflexivity.
Defined.

(** X24 for the task of the scenario with 10 hours. *)
Lemma run_task_writes_witness :
  let idx := index_weeks Scenario.week_pages in
  let t : task_page float := Scenario.task (Some 10%float) in
  let σ : notion float := Scenario.workspace (Some 10%float) in
  let ws := [midnight 2026 1 5; midnight 2026 1 12; midnight 2026 1 19] in
  (task_start t = Some (midnight 2026 1 5) ∧ task_due t = Some (midnight 2026 1 19)
   ∧ task_weeks (midnight 2026 1 5) (midnight 2026 1 19) = inr ws)
  ∧ ∃ counts' σ' written,
      run_task idx.1 idx.2 (0, 0)%nat t σ = (inr counts', σ')
      ∧ writes σ' = writes σ ++ written
      ∧ planned <$> written
        = (λ iw, Some (PNumber (f_round2
                   (bucket_hours (default f_zero (task_number t))
                                 (Z.of_nat (length ws)) iw.1))))
          <$> filter (λ iw, truthy (resolve_week idx.1 idx.2 iw.2)) (imap pair ws)
      ∧ (counts'.1 + counts'.2
         = 0 + 0 + length (resolvable idx.1 idx.2 ws))%nat.
Proof.
  cbv zeta. split; [split_and!; vm_compute; reflexivity|].
  apply (run_task_writes (index_weeks Scenario.week_pages).1
           (index_weeks Scenario.week_pages).2 (0, 0)%nat
           (Scenario.task (Some 10%float)) (Scenario.workspace (Some 10%float))
           (midnight 2026 1 5) (midnight 2026 1 19));
    vm_compute; reflexivity.
Defined.

(** X25 on the week pages of the scenario. *)
Lemma resolve_week_by_title_witness :
  let w := midnight 2026 1 12 in
  Forall (λ p, week_start p ≠ Some P_WEEK_START) Scenario.week_pages
  ∧ resolve_week (index_weeks Scenario.week_pages).1
                 (index_weeks Scenario.week_pages).2 w
    = week_id <$> last (filter (λ p, title_of p = iso_week_label w)
                               Scenario.week_pages).
Proof.
  cbv zeta.
  assert (Forall (λ p, week_start p ≠ Some P_WEEK_START) Scenario.week_pages)
    as Hpages by (repeat constructor; discriminate).
  split; [exact Hpages|].
  apply (resolve_week_by_title Scenario.week_pages (midnight 2026 1 12)).
  exact Hpages.
Defined.
